(** * social-screenshot: the capture pipeline of [screenshot.js]

    A shallow embedding of the capture pipeline: URL classification
    ([detectPlatform]), image materialisation ([imageToBase64],
    [downloadImage]), the extraction steps that turn remote images into
    inline data URIs, the card templates, the per-URL pipeline
    ([processUrl]) and the batch scheduler ([processInParallel]).

    JavaScript strings are modelled as byte strings ([string]); URLs and
    markup delimiters are ASCII, and the bytes of a UTF-8 encoded
    character are never equal to an ASCII character, so the string
    operations used below act on bytes as they act on code units.
    A value that may be [undefined], [null] or a string is an
    [option string]; the empty string and the absent value are the falsy
    ones. *)

From stdpp Require Import base option list strings pretty.
From Stdlib Require Import NArith ZArith Ascii String Lia.
From Stdlib Require Import Sorted.

Open Scope string_scope.
Open Scope list_scope.

(* ===================================================================== *)
(** * Definitions                                                          *)
(* ===================================================================== *)

(** ** JavaScript string primitives *)

Module Js.

(** The double quote character. *)
Definition dq : ascii := "034"%char.

Definition code (c : ascii) : N := N_of_ascii c.

Definition between (lo hi c : ascii) : bool :=
  (code lo <=? code c)%N && (code c <=? code hi)%N.

Definition isUpper (c : ascii) : bool := between "A" "Z" c.
Definition isLower (c : ascii) : bool := between "a" "z" c.
(** [\d] *)
Definition isDigit (c : ascii) : bool := between "0" "9" c.
(** [[a-zA-Z0-9]] *)
Definition isAlnum (c : ascii) : bool := isLower c || isUpper c || isDigit c.
(** [\w] *)
Definition isWord (c : ascii) : bool := isAlnum c || Ascii.eqb c "_".

Definition lowerChar (c : ascii) : ascii :=
  if isUpper c then ascii_of_N (code c + 32) else c.

(** [s.toLowerCase()], on the letters a URL is made of: the ASCII ones. *)
Fixpoint toLowerCase (s : string) : string :=
  match s with
  | "" => ""
  | String c s' => String (lowerChar c) (toLowerCase s')
  end.

(** [s.startsWith(p)] *)
Fixpoint startsWith (s p : string) : bool :=
  match p, s with
  | "", _ => true
  | String _ _, "" => false
  | String b p', String a s' => Ascii.eqb a b && startsWith s' p'
  end.

(** [s.includes(p)] *)
Fixpoint includes (s p : string) : bool :=
  startsWith s p ||
  match s with
  | "" => false
  | String _ s' => includes s' p
  end.

(** [s.split(c).pop()]: the part of [s] after its last [c], the whole of
    [s] when [c] does not occur.  [acc] is the segment read so far. *)
Fixpoint lastSegmentFrom (c : ascii) (acc s : string) : string :=
  match s with
  | "" => acc
  | String a s' =>
      if Ascii.eqb a c then lastSegmentFrom c "" s'
      else lastSegmentFrom c (acc +:+ String a "") s'
  end.
Definition splitPop (c : ascii) (s : string) : string := lastSegmentFrom c "" s.

(** [s.replace(/[^...]/g, '')]: keep the characters of the class. *)
Fixpoint keep (p : ascii -> bool) (s : string) : string :=
  match s with
  | "" => ""
  | String a s' => if p a then String a (keep p s') else keep p s'
  end.

(** [s.slice(0, n)] *)
Fixpoint slice0 (n : nat) (s : string) : string :=
  match n, s with
  | S n', String a s' => String a (slice0 n' s')
  | _, _ => ""
  end.

(** [s.replace(/c/g, by)] for a one-character pattern. *)
Fixpoint replaceAll (c : ascii) (by_ : string) (s : string) : string :=
  match s with
  | "" => ""
  | String a s' =>
      if Ascii.eqb a c then by_ +:+ replaceAll c by_ s'
      else String a (replaceAll c by_ s')
  end.

Fixpoint dropChars (n : nat) (s : string) : string :=
  match n, s with
  | S n', String _ s' => dropChars n' s'
  | _, _ => s
  end.

(** [s.replace(p, by)] for a string pattern: the first occurrence only. *)
Fixpoint replaceFirst (p by_ : string) (s : string) : string :=
  if startsWith s p then by_ +:+ dropChars (String.length p) s
  else match s with
       | "" => ""
       | String a s' => String a (replaceFirst p by_ s')
       end.

(** [v || d] on a possibly absent string. *)
Definition truthy (v : option string) : bool :=
  match v with
  | Some (String _ _) => true
  | _ => false
  end.

Definition orElse (v : option string) (d : string) : string :=
  match v with
  | Some (String a s) => String a s
  | _ => d
  end.

(** [[...s].every(p)] *)
Fixpoint every (p : ascii -> bool) (s : string) : bool :=
  match s with
  | "" => true
  | String a s' => p a && every p s'
  end.

(** [s.indexOf(p)]; [None] is [-1]. *)
Fixpoint indexOf (s p : string) : option nat :=
  if startsWith s p then Some 0
  else match s with
       | "" => None
       | String _ s' => S <$> indexOf s' p
       end.


(** A template's literal text, written with backquotes for double quotes. *)
Fixpoint tpl (s : string) : string :=
  match s with
  | "" => ""
  | String a s' => String (if Ascii.eqb a "`" then dq else a) (tpl s')
  end.

(** [array.join('')] *)
Definition join (l : list string) : string := foldr String.append "" l.

Fixpoint takeWhile (p : ascii -> bool) (s : string) : string :=
  match s with
  | String a s' => if p a then String a (takeWhile p s') else ""
  | "" => ""
  end.

Fixpoint dropWhile (p : ascii -> bool) (s : string) : string :=
  match s with
  | String a s' => if p a then dropWhile p s' else s
  | "" => ""
  end.

(** [s.split(c)[0]] *)
Definition splitHead (c : ascii) (s : string) : string :=
  takeWhile (fun a => negb (Ascii.eqb a c)) s.

(** The leftmost position of [s] at which [f] succeeds: how an
    unanchored pattern with a capture group is matched. *)
Fixpoint firstMatch {A} (f : string -> option A) (s : string) : option A :=
  match f s with
  | Some x => Some x
  | None =>
      match s with
      | "" => None
      | String _ s' => firstMatch f s'
      end
  end.

Definition nonEmpty (s : string) : option string :=
  match s with
  | "" => None
  | _ => Some s
  end.

(** The ASCII white space characters. *)
Definition isSpace (c : ascii) : bool := Ascii.is_space c.

(** The bytes of a character, from their codes. *)
Definition bytes (codes : list nat) : string :=
  foldr (fun c s => String (ascii_of_nat c) s) "" codes.

(** The white space characters beyond ASCII ([WhiteSpace] and
    [LineTerminator] of the language, which [\s] and [trim] go by), as
    UTF-8 has them: U+00A0, U+1680, U+2000 to U+200A, U+2028, U+2029,
    U+202F, U+205F, U+3000 and U+FEFF. *)
Definition unicodeSpaces : list string :=
  bytes [194; 160] :: bytes [225; 154; 128]
  :: ((fun c => bytes [226; 128; c]) <$> seq 128 11)
  ++ [bytes [226; 128; 168]; bytes [226; 128; 169]; bytes [226; 128; 175];
      bytes [226; 129; 159]; bytes [227; 128; 128]; bytes [239; 187; 191]].

(** The number of bytes of the white space character [s] starts with;
    [0] when it starts with none. *)
Definition spaceWidth (s : string) : nat :=
  match s with
  | "" => 0
  | String a _ =>
      if isSpace a then 1
      else match List.find (startsWith s) unicodeSpaces with
           | Some p => String.length p
           | None => 0
           end
  end.

(** [s.replace(/<[^>]*>/g, ' ')].  [tag] holds the text read since an
    opening bracket that has not been closed yet; it is kept when no
    closing bracket follows. *)
Fixpoint stripTagsFrom (tag : option string) (s : string) : string :=
  match s, tag with
  | "", None => ""
  | "", Some t => t
  | String a s', None =>
      if Ascii.eqb a "<" then stripTagsFrom (Some "<") s'
      else String a (stripTagsFrom None s')
  | String a s', Some t =>
      if Ascii.eqb a ">" then String " " (stripTagsFrom None s')
      else stripTagsFrom (Some (t +:+ String a "")) s'
  end.
Definition stripTags (s : string) : string := stripTagsFrom None s.

(** [s.replace(/\s+/g, ' ')].  [inRun] tells that the previous character
    was white space, already replaced; [skip] counts the bytes still to
    pass of the white space character at hand. *)
Fixpoint collapseSpacesFrom (inRun : bool) (skip : nat) (s : string) : string :=
  match s with
  | "" => ""
  | String a s' =>
      match skip with
      | S k => collapseSpacesFrom inRun k s'
      | O =>
          match spaceWidth s with
          | O => String a (collapseSpacesFrom false 0 s')
          | S k =>
              if inRun then collapseSpacesFrom true k s'
              else String " " (collapseSpacesFrom true k s')
          end
      end
  end.
Definition collapseSpaces (s : string) : string := collapseSpacesFrom false 0 s.

(** [s.trimStart()] *)
Fixpoint trimStartFrom (skip : nat) (s : string) : string :=
  match s with
  | "" => ""
  | String _ s' =>
      match skip with
      | S k => trimStartFrom k s'
      | O =>
          match spaceWidth s with
          | O => s
          | S k => trimStartFrom k s'
          end
      end
  end.
Definition trimStart (s : string) : string := trimStartFrom 0 s.

(** [s] is made of white space characters only. *)
Fixpoint allSpacesFrom (skip : nat) (s : string) : bool :=
  match s with
  | "" => Nat.eqb skip 0
  | String _ s' =>
      match skip with
      | S k => allSpacesFrom k s'
      | O =>
          match spaceWidth s with
          | O => false
          | S k => allSpacesFrom k s'
          end
      end
  end.

(** [s.trimEnd()]: what is left once the longest end of [s] made of
    white space characters is cut. *)
Fixpoint trimEnd (s : string) : string :=
  match s with
  | "" => ""
  | String a s' => if allSpacesFrom 0 s then "" else String a (trimEnd s')
  end.

(** [s.trim()] *)
Definition trim (s : string) : string := trimEnd (trimStart s).

(** *** Regular expressions

    The patterns of the source, with [test] (the truthiness of
    [s.match(re)] for a pattern without anchors) computed by Brzozowski
    derivatives. *)
Inductive regex : Type :=
| ReNone
| ReEps
| ReClass (p : ascii -> bool)
| ReSeq (r1 r2 : regex)
| ReAlt (r1 r2 : regex)
| ReStar (r : regex).

Definition reChar (c : ascii) : regex := ReClass (Ascii.eqb c).
Definition rePlus (r : regex) : regex := ReSeq r (ReStar r).
Definition reAny : regex := ReClass (fun _ => true).

Fixpoint nullable (r : regex) : bool :=
  match r with
  | ReNone => false
  | ReEps => true
  | ReClass _ => false
  | ReSeq r1 r2 => nullable r1 && nullable r2
  | ReAlt r1 r2 => nullable r1 || nullable r2
  | ReStar _ => true
  end.

Fixpoint deriv (a : ascii) (r : regex) : regex :=
  match r with
  | ReNone => ReNone
  | ReEps => ReNone
  | ReClass p => if p a then ReEps else ReNone
  | ReSeq r1 r2 =>
      if nullable r1 then ReAlt (ReSeq (deriv a r1) r2) (deriv a r2)
      else ReSeq (deriv a r1) r2
  | ReAlt r1 r2 => ReAlt (deriv a r1) (deriv a r2)
  | ReStar r1 => ReSeq (deriv a r1) (ReStar r1)
  end.

(** The whole of [s] is in the language of [r]. *)
Fixpoint fullMatch (r : regex) (s : string) : bool :=
  match s with
  | "" => nullable r
  | String a s' => fullMatch (deriv a r) s'
  end.

(** Some substring of [s] is in the language of [r]. *)
Definition test (r : regex) (s : string) : bool :=
  fullMatch (ReSeq (ReStar reAny) (ReSeq r (ReStar reAny))) s.

End Js.

(** ** Markup escaping (source lines 2857-2865) *)

Definition escapeHtml (text : option string) : string :=
  match text with
  | Some (String a t) =>
      Js.replaceAll "'" "&#039;"
        (Js.replaceAll Js.dq "&quot;"
           (Js.replaceAll ">" "&gt;"
              (Js.replaceAll "<" "&lt;"
                 (Js.replaceAll "&" "&amp;" (String a t)))))
  | _ => ""
  end.

(** ** Platform detection (source lines 373-405) *)

Inductive Platform : Type :=
| Twitter | Macrumors | Threads | Bluesky | Mastodon | Youtube | Tiktok
| Article | Unknown.

#[global] Instance Platform_eq_dec : EqDecision Platform.
Proof. solve_decision. Defined.

Definition platformTag (p : Platform) : string :=
  match p with
  | Twitter => "twitter"
  | Macrumors => "macrumors"
  | Threads => "threads"
  | Bluesky => "bluesky"
  | Mastodon => "mastodon"
  | Youtube => "youtube"
  | Tiktok => "tiktok"
  | Article => "article"
  | Unknown => "unknown"
  end.

(** [/\/@[\w]+\/\d+/] *)
Definition mastodonPath : Js.regex :=
  Js.ReSeq (Js.reChar "/")
    (Js.ReSeq (Js.reChar "@")
       (Js.ReSeq (Js.rePlus (Js.ReClass Js.isWord))
          (Js.ReSeq (Js.reChar "/") (Js.rePlus (Js.ReClass Js.isDigit))))).

Definition detectPlatform (url : string) : Platform :=
  let urlLower := Js.toLowerCase url in
  if Js.includes urlLower "x.com" || Js.includes urlLower "twitter.com" then Twitter
  else if Js.includes urlLower "forums.macrumors.com" then Macrumors
  else if Js.includes urlLower "threads.net" then Threads
  else if Js.includes urlLower "bsky.app" then Bluesky
  else if (Js.includes urlLower "mastodon.social"
           || Js.includes urlLower "zeppelin.flights"
           || Js.includes urlLower "@")
          && Js.test mastodonPath urlLower then Mastodon
  else if Js.includes urlLower "youtube.com" || Js.includes urlLower "youtu.be" then Youtube
  else if Js.includes urlLower "tiktok.com" then Tiktok
  else if Js.includes urlLower "cultofmac.com" || Js.includes urlLower "newsletters." then Article
  else Unknown.

(** ** Artifact names (source lines 280-284)

    [timestamp] is the value read from [Date.now()], a count of
    milliseconds. *)

Definition urlHash (url : string) : string :=
  Js.slice0 20 (Js.keep Js.isAlnum (Js.splitPop "/" url)).

Definition generateFilename (url platform : string) (timestamp : N) : string :=
  platform +:+ "-" +:+ urlHash url +:+ "-" +:+ pretty timestamp +:+ ".png".

(** ** Effects

    An asynchronous function is a function of the world: it yields the
    state of its promise and the world it leaves behind.  The world
    holds the clock read by [Date.now()] and the chronological trace of
    the observable effects. *)

Record Error : Type := mkError { message : string }.

Inductive Promise (A : Type) : Type :=
| Resolved (a : A)
| Rejected (e : Error)
| Pending.
Arguments Resolved {A} a.
Arguments Rejected {A} e.
Arguments Pending {A}.

Inductive Effect : Type :=
| NetGet (secure : bool) (url : string)
| FsCreate (path : string)
| FsWrite (path : string) (data : string)
| ConsoleLog (line : string).

Record World : Type := mkWorld { clock : N; trace : list Effect }.

Definition Async (A : Type) : Type := World -> Promise A * World.

Definition ret {A} (a : A) : Async A := fun w => (Resolved a, w).
Definition throw {A} (e : Error) : Async A := fun w => (Rejected e, w).
Definition never {A} : Async A := fun w => (Pending, w).

(** [await m] followed by [k]. *)
Definition bind {A B} (m : Async A) (k : A -> Async B) : Async B :=
  fun w =>
    match m w with
    | (Resolved a, w') => k a w'
    | (Rejected e, w') => (Rejected e, w')
    | (Pending, w') => (Pending, w')
    end.

(** [try { m } catch (e) { h e }] *)
Definition tryCatch {A} (m : Async A) (h : Error -> Async A) : Async A :=
  fun w =>
    match m w with
    | (Rejected e, w') => h e w'
    | r => r
    end.

Definition emit (e : Effect) : Async unit :=
  fun w => (Resolved tt, mkWorld (clock w) (trace w ++ [e])).

Definition dateNow : Async N := fun w => (Resolved (clock w), w).

Declare Scope async_scope.
Delimit Scope async_scope with async.
Notation "'let*' x := m 'in' k" := (bind m (fun x => k))
  (at level 10, x name, m at level 100, k at level 200,
   format "'[v' 'let*'  x  :=  m  'in' '/' k ']'") : async_scope.
Open Scope async_scope.

(** ** Payloads

    The objects built by the scrapers and read by the templates.  A
    field that a scraper may leave [undefined] or [null] is an option. *)

Module Author.
Record t : Type := mk {
  name : option string;
  handle : option string;
  title : option string;
  avatar : option string;       (* inline data URI *)
  avatarUrl : option string;
  verified : option bool
}.
End Author.

Module Post.
Record t : Type := mk {
  platform : string;
  author : option Author.t;
  content : option string;
  images : list string;                        (* inline data URIs *)
  originalImageUrls : list (option string);    (* for download *)
  timestamp : option string;
  metrics : option (list (string * option Z));
  postNumber : option string;
  reactions : option string;
  instance : option string;
  isMainTweet : bool;
  siteName : option string;
  url : string
}.
End Post.

Module Thread.
Record t : Type := mk {
  platform : string;
  tweets : list Post.t;
  url : string
}.
End Thread.

(** What [page.evaluate] returns on the embed page (source lines 469-478). *)
Module Embed.
Record t : Type := mk {
  text : string;
  authorName : string;
  authorHandle : string;
  avatar : string;
  images : list string;
  timestamp : string;
  likes : string;
  retweets : string
}.
End Embed.

(** The post view of [app.bsky.feed.getPostThread], as far as it is read. *)
Module Bsky.
Record image : Type := mkImage { fullsize : option string; thumb : option string }.
Record author : Type := mkAuthor {
  avatar : option string;
  displayName : option string;
  handle : option string
}.
Record post : Type := mkPost {
  postAuthor : option author;                 (* post.author *)
  embedImages : option (list image);          (* post.embed?.images *)
  externalThumb : option string;              (* post.embed?.external?.thumb *)
  recordText : option string;                 (* post.record?.text *)
  recordCreatedAt : option string;            (* post.record?.createdAt *)
  indexedAt : option string;
  replyCount : option Z;
  repostCount : option Z;
  likeCount : option Z
}.
End Bsky.

(** The status of [/api/v1/statuses/:id], as far as it is read. *)
Module Masto.
Record media : Type := mkMedia {
  type : option string;
  url : option string;
  preview_url : option string
}.
Record account : Type := mkAccount {
  avatar : option string;
  display_name : option string;
  username : option string
}.
Record status : Type := mkStatus {
  statusAccount : option account;             (* data.account *)
  media_attachments : option (list media);
  content : option string;
  created_at : option string;
  replies_count : option Z;
  reblogs_count : option Z;
  favourites_count : option Z
}.
End Masto.

(** ** The network and the disk, as seen by the program *)

Inductive BodyOutcome : Type :=
| BodyEnd (data : string)      (* all chunks, concatenated *)
| BodyError (e : Error).       (* the response stream emits 'error' *)

Record Response : Type := mkResponse {
  statusCode : N;
  location : option string;      (* res.headers.location *)
  contentType : option string;   (* res.headers['content-type'] *)
  body : BodyOutcome
}.

Inductive GetOutcome : Type :=
| GetThrows (e : Error)          (* protocol.get throws, e.g. on a malformed URL *)
| RequestError (e : Error)       (* the request emits 'error' *)
| Respond (res : Response).

(** What the outside answers.  Answers may depend on the moment of the
    request. *)
Record Env : Type := mkEnv {
  httpGet : World -> bool -> string -> GetOutcome;
  (** [true] when the write stream opened on a path reaches 'finish',
      [false] when it emits 'error'. *)
  streamFinishes : World -> string -> bool;
  (** [parseInt(s)]; [None] is [NaN]. *)
  parseInt : string -> option Z;
  (** [new URL(s)]: host name and path name; [None] when it throws. *)
  urlParts : string -> option (string * string);
  (** [JSON.parse] of a status answer, read at its type; [None] when it
      throws. *)
  parseStatus : string -> option Masto.status;
  (** Loading the embed page at an address in a fresh browser context,
      waiting for it to settle and evaluating the extraction script. *)
  embedPage : string -> Async Embed.t;
  (** [getBrowser()], [browser.newContext(...)] and [context.newPage()]. *)
  newPage : Async unit;
  (** [new Date(s).getTime()]; [None] for an invalid date. *)
  dateParse : string -> option Z;
  (** [date.toLocaleDateString('en-US', ...)] of a valid date. *)
  toLocaleDateString : Z -> string
}.

Definition isRedirect (res : Response) : bool :=
  (300 <=? statusCode res)%N && (statusCode res <? 400)%N && Js.truthy (location res).

(** ** Base64 ([buffer.toString('base64')]) *)

Definition b64Alphabet : string :=
  "ABCDEFGHIJKLMNOPQRSTUVWXYZabcdefghijklmnopqrstuvwxyz0123456789+/".

Definition b64Char (n : N) : ascii :=
  match String.get (N.to_nat n) b64Alphabet with
  | Some c => c
  | None => "="%char
  end.

Fixpoint base64 (s : string) : string :=
  match s with
  | "" => ""
  | String a "" =>
      let x := Js.code a in
      String (b64Char (x / 4)) (String (b64Char (x mod 4 * 16)) "==")
  | String a (String b "") =>
      let x := Js.code a in
      let y := Js.code b in
      String (b64Char (x / 4))
        (String (b64Char (x mod 4 * 16 + y / 16))
           (String (b64Char (y mod 16 * 4)) "="))
  | String a (String b (String c s')) =>
      let x := Js.code a in
      let y := Js.code b in
      let z := Js.code c in
      String (b64Char (x / 4))
        (String (b64Char (x mod 4 * 16 + y / 16))
           (String (b64Char (y mod 16 * 4 + z / 64))
              (String (b64Char (z mod 64)) (base64 s'))))
  end%N.

(** ** Image materialiser (source lines 173-229)

    [fuel] bounds the number of requests issued along one redirect
    chain; the source follows redirects without a bound, and a chain
    longer than the fuel leaves the promise pending. *)

Section Materializer.
Variable env : Env.

Fixpoint imageToBase64 (fuel : nat) (url : option string) : Async (option string) :=
  fun w =>
    if negb (Js.truthy url) then (Resolved None, w)
    else
      match fuel with
      | O => (Pending, w)
      | S fuel' =>
          let u := Js.orElse url "" in
          let secure := Js.startsWith u "https" in
          match httpGet env w secure u with
          | GetThrows e => (Rejected e, w)
          | RequestError _ =>
              (Resolved None, mkWorld (clock w) (trace w ++ [NetGet secure u]))
          | Respond res =>
              let w1 := mkWorld (clock w) (trace w ++ [NetGet secure u]) in
              if isRedirect res then imageToBase64 fuel' (location res) w1
              else
                match body res with
                | BodyEnd data =>
                    (Resolved
                       (Some ("data:" +:+ Js.orElse (contentType res) "image/jpeg"
                              +:+ ";base64," +:+ base64 data)), w1)
                | BodyError _ => (Resolved None, w1)
                end
          end
      end.

Fixpoint downloadImage (fuel : nat) (url : option string) (filepath : string)
  : Async (option string) :=
  fun w =>
    if negb (Js.truthy url) then (Resolved None, w)
    else
      match fuel with
      | O => (Pending, w)
      | S fuel' =>
          let u := Js.orElse url "" in
          let secure := Js.startsWith u "https" in
          match httpGet env w secure u with
          | GetThrows e => (Rejected e, w)
          | RequestError _ =>
              (Resolved None, mkWorld (clock w) (trace w ++ [NetGet secure u]))
          | Respond res =>
              let w1 := mkWorld (clock w) (trace w ++ [NetGet secure u]) in
              if isRedirect res then downloadImage fuel' (location res) filepath w1
              else if negb (statusCode res =? 200)%N then (Resolved None, w1)
              else
                let w2 := mkWorld (clock w1) (trace w1 ++ [FsCreate filepath]) in
                match body res with
                | BodyEnd data =>
                    if streamFinishes env w2 filepath
                    then (Resolved (Some filepath),
                          mkWorld (clock w2) (trace w2 ++ [FsWrite filepath data]))
                    else (Resolved None, w2)
                | BodyError _ =>
                    (* no handler on the response: the stream never finishes *)
                    (Pending, w2)
                end
          end
      end.

End Materializer.

(** ** Extraction (source lines 414-528, 775-882)

    The steps of the scrapers that fetch the images of a post and turn
    them into inline data URIs. *)

(** [/status\/(\d+)/] *)
Definition statusId (url : string) : option string :=
  Js.firstMatch
    (fun s => if Js.startsWith s "status/"
              then Js.nonEmpty (Js.takeWhile Js.isDigit (Js.dropChars 7 s))
              else None)
    url.

(** [/\/@[\w]+\/(\d+)/] *)
Definition mastodonPostId (pathname : string) : option string :=
  Js.firstMatch
    (fun s =>
       if Js.startsWith s "/@" then
         let r := Js.dropChars 2 s in
         match Js.takeWhile Js.isWord r, Js.dropWhile Js.isWord r with
         | String _ _, String "/" r' => Js.nonEmpty (Js.takeWhile Js.isDigit r')
         | _, _ => None
         end
       else None)
    pathname.

(** Twitter image URLs are upgraded to full resolution (lines 493-501). *)
Definition upgradeTwitterImage (url : string) : string :=
  if Js.includes url "pbs.twimg.com/media"
  then Js.splitHead "?" url +:+ "?format=jpg&name=4096x4096"
  else url.

(** [n || 0] on a count read from an API answer. *)
Definition countOr0 (n : option Z) : Z := default 0%Z n.

(** [`${v}`] *)
Definition interpolate (v : option string) : string := default "undefined" v.

Section Extraction.
Variable env : Env.
Variable fuel : nat.

(** The loop [for (const imgUrl of urls) { const base64 = await
    imageToBase64(imgUrl); if (base64) imagesBase64.push(base64); }]. *)
Fixpoint inlineImages (urls : list (option string)) : Async (list string) :=
  match urls with
  | [] => ret []
  | imgUrl :: rest =>
      let* base64 := imageToBase64 env fuel imgUrl in
      let* more := inlineImages rest in
      ret (match base64 with
           | Some (String a d) => String a d :: more
           | _ => more
           end)
  end.

Definition scrapeTwitter (url : string) : Async Post.t :=
  match statusId url with
  | None => throw (mkError "Invalid Twitter URL")
  | Some tweetId =>
      let* _ := newPage env in
      tryCatch
        (let embedUrl :=
           "https://platform.twitter.com/embed/Tweet.html?id=" +:+ tweetId +:+ "&theme=dark" in
         let* data := embedPage env embedUrl in
         let avatarUrl := Embed.avatar data in
         let* avatarBase64 := imageToBase64 env fuel (Some avatarUrl) in
         let* imagesBase64 := inlineImages (Some <$> take 4 (Embed.images data)) in
         let originalImageUrls := upgradeTwitterImage <$> Embed.images data in
         ret (Post.mk "twitter"
                (Some (Author.mk (Some (Embed.authorName data))
                         (Some (Embed.authorHandle data)) None
                         avatarBase64 (Some avatarUrl) (Some false)))
                (Some (Embed.text data))
                imagesBase64
                (Some <$> originalImageUrls)
                (Some (Embed.timestamp data))
                (Some [("replies", Some 0%Z);
                       ("retweets", Some (countOr0 (parseInt env (Embed.retweets data))));
                       ("likes", Some (countOr0 (parseInt env (Embed.likes data))));
                       ("views", None)])
                None None None false None url))
        (fun e => throw (mkError ("Could not fetch tweet: " +:+ message e)))
  end.

Definition formatBlueskyPost (post : Bsky.post) (url : string) : Async Post.t :=
  let avatarUrl := Js.orElse (Bsky.postAuthor post ≫= Bsky.avatar) "" in
  let* avatarBase64 := imageToBase64 env fuel (Some avatarUrl) in
  let images :=
    (match Bsky.embedImages post with
     | Some imgs =>
         (fun img => if Js.truthy (Bsky.fullsize img) then Bsky.fullsize img
                     else Bsky.thumb img) <$> imgs
     | None => []
     end)
    ++ (if Js.truthy (Bsky.externalThumb post) then [Bsky.externalThumb post] else []) in
  let* imagesBase64 := inlineImages images in
  ret (Post.mk "bluesky"
         (Some (Author.mk
                  (Some (Js.orElse (Bsky.postAuthor post ≫= Bsky.displayName)
                           (Js.orElse (Bsky.postAuthor post ≫= Bsky.handle) "Unknown")))
                  (Some (Js.orElse (Bsky.postAuthor post ≫= Bsky.handle) "unknown"))
                  None avatarBase64 (Some avatarUrl) None))
         (Some (Js.orElse (Bsky.recordText post) ""))
         imagesBase64
         images
         (if Js.truthy (Bsky.recordCreatedAt post) then Bsky.recordCreatedAt post
          else Bsky.indexedAt post)
         (Some [("replies", Some (countOr0 (Bsky.replyCount post)));
                ("reposts", Some (countOr0 (Bsky.repostCount post)));
                ("likes", Some (countOr0 (Bsky.likeCount post)))])
         None None None false None url).

(** [fetchJSON] (source lines 141-168).  [parse] is [JSON.parse] followed
    by the reading of the answer at the type the caller expects. *)
Fixpoint fetchJSON {A} (parse : string -> option A) (n : nat) (url : string) : Async A :=
  fun w =>
    match n with
    | O => (Pending, w)
    | S n' =>
        let secure := Js.startsWith url "https" in
        match httpGet env w secure url with
        | GetThrows e => (Rejected e, w)
        | RequestError e =>
            (Rejected e, mkWorld (clock w) (trace w ++ [NetGet secure url]))
        | Respond res =>
            let w1 := mkWorld (clock w) (trace w ++ [NetGet secure url]) in
            if isRedirect res then fetchJSON parse n' (Js.orElse (location res) "") w1
            else
              match body res with
              | BodyEnd data =>
                  match parse data with
                  | Some v => (Resolved v, w1)
                  | None => (Rejected (mkError "Invalid JSON response"), w1)
                  end
              | BodyError e => (Rejected e, w1)
              end
        end
    end.

Definition mastodonMediaUrl (media : Masto.media) : list (option string) :=
  if bool_decide (Masto.type media = Some "image")
     || bool_decide (Masto.type media = Some "gifv")
  then [if Js.truthy (Masto.url media) then Masto.url media else Masto.preview_url media]
  else if bool_decide (Masto.type media = Some "video") then [Masto.preview_url media]
  else [].

Definition scrapeMastodon (url : string) : Async Post.t :=
  match urlParts env url with
  | None => throw (mkError "Invalid URL")
  | Some (instance, pathname) =>
      match mastodonPostId pathname with
      | None => throw (mkError "Invalid Mastodon URL")
      | Some postId =>
          let apiUrl := "https://" +:+ instance +:+ "/api/v1/statuses/" +:+ postId in
          let* data := fetchJSON (parseStatus env) fuel apiUrl in
          let avatarUrl := Js.orElse (Masto.statusAccount data ≫= Masto.avatar) "" in
          let* avatarBase64 := imageToBase64 env fuel (Some avatarUrl) in
          let images :=
            match Masto.media_attachments data with
            | Some l => l ≫= mastodonMediaUrl
            | None => []
            end in
          let* imagesBase64 := inlineImages images in
          let content :=
            match Masto.content data with
            | Some c => Js.trim (Js.collapseSpaces (Js.stripTags c))
            | None => ""
            end in
          ret (Post.mk "mastodon"
                 (Some (Author.mk
                          (Some (Js.orElse (Masto.statusAccount data ≫= Masto.display_name)
                                   (Js.orElse (Masto.statusAccount data ≫= Masto.username)
                                      "Unknown")))
                          (Some ("@" +:+ interpolate (Masto.statusAccount data ≫= Masto.username)
                                 +:+ "@" +:+ instance))
                          None avatarBase64 (Some avatarUrl) None))
                 (Some content)
                 imagesBase64
                 images
                 (Masto.created_at data)
                 (Some [("replies", Some (countOr0 (Masto.replies_count data)));
                        ("boosts", Some (countOr0 (Masto.reblogs_count data)));
                        ("favorites", Some (countOr0 (Masto.favourites_count data)))])
                 None None (Some instance) false None url)
      end
  end.

End Extraction.

(** ** Templates

    The cards are template literals.  The literal text of a template is
    written below with a backquote wherever the source has a double
    quote (a backquote cannot occur in the text of a template literal);
    [Js.tpl] puts the double quotes back. *)

Definition CARD_WIDTH : N := 550.

(** [data.author.avatar] on a payload without an author. *)
Definition typeError (field : string) : Error :=
  mkError ("Cannot read properties of undefined (reading '" +:+ field +:+ "')").

(** [array.map(f)] for a callback that takes the index and may throw. *)
Fixpoint mapIndexed {A B} (f : nat -> A -> Error + B) (index : nat) (l : list A)
  : Error + list B :=
  match l with
  | [] => inr []
  | x :: rest =>
      match f index x with
      | inl e => inl e
      | inr y =>
          match mapIndexed f (S index) rest with
          | inl e => inl e
          | inr ys => inr (y :: ys)
          end
      end
  end.

Section Templates.
Variable env : Env.
(** The value of [new Date()] when the card is rendered. *)
Variable now : Z.

(** Source lines 260-275. *)
Definition formatRelativeTime (dateStr : option string) : string :=
  match dateStr with
  | Some (String a d) =>
      match dateParse env (String a d) with
      | None => "Invalid Date"
      | Some date =>
          let diffMs := (now - date)%Z in
          let diffMins := (diffMs / 60000)%Z in
          let diffHours := (diffMs / 3600000)%Z in
          let diffDays := (diffMs / 86400000)%Z in
          if (diffMins <? 1)%Z then "just now"
          else if (diffMins <? 60)%Z then pretty diffMins +:+ "m"
          else if (diffHours <? 24)%Z then pretty diffHours +:+ "h"
          else if (diffDays <? 7)%Z then pretty diffDays +:+ "d"
          else toLocaleDateString env date
      end
  | _ => ""
  end.

(** ['<div class="connector-line"></div>'] *)
Definition connectorLine : string := Js.tpl "<div class=`connector-line`></div>".

(** The literal text of the page around the posts (source lines 1279-1390). *)
Definition threadCardPrologue : string :=
  Js.tpl "
    <!DOCTYPE html>
    <html>
    <head>
      <meta charset=`UTF-8`>
      <style>
        * { margin: 0; padding: 0; box-sizing: border-box; }
        body {
          font-family: -apple-system, BlinkMacSystemFont, `Segoe UI`, Roboto, Helvetica, Arial, sans-serif;
          background: #000;
          padding: 20px;
        }
        .card {
          background: #16181c;
          border-radius: 16px;
          padding: 16px;
          max-width: "
  +:+ pretty CARD_WIDTH
  +:+ Js.tpl "px;
          border: 1px solid #2f3336;
        }
        .tweet {
          display: flex;
          gap: 12px;
          margin-bottom: 0;
        }
        .tweet.main-tweet .tweet-text {
          font-size: 16px;
        }
        .tweet-connector {
          display: flex;
          flex-direction: column;
          align-items: center;
          width: 40px;
          flex-shrink: 0;
        }
        .avatar-wrapper {
          flex-shrink: 0;
        }
        .avatar {
          width: 40px;
          height: 40px;
          border-radius: 50%;
          object-fit: cover;
        }
        .avatar.placeholder {
          background: #2f3336;
        }
        .connector-line {
          width: 2px;
          flex-grow: 1;
          background: #2f3336;
          min-height: 20px;
          margin: 4px 0;
        }
        .tweet-content {
          flex: 1;
          padding-bottom: 16px;
        }
        .tweet:last-child .tweet-content {
          padding-bottom: 0;
        }
        .tweet-header {
          display: flex;
          align-items: center;
          gap: 4px;
          margin-bottom: 4px;
          flex-wrap: wrap;
        }
        .name {
          color: #e7e9ea;
          font-weight: 700;
          font-size: 14px;
        }
        .handle {
          color: #71767b;
          font-size: 14px;
        }
        .time {
          color: #71767b;
          font-size: 14px;
        }
        .tweet-text {
          color: #e7e9ea;
          font-size: 14px;
          line-height: 1.4;
          white-space: pre-wrap;
          word-wrap: break-word;
        }
        .tweet-images {
          border-radius: 12px;
          overflow: hidden;
          margin-top: 12px;
        }
        .tweet-images.grid {
          display: grid;
          grid-template-columns: repeat(2, 1fr);
          gap: 2px;
        }
        .tweet-images img {
          width: 100%;
          display: block;
          max-height: 200px;
          object-fit: cover;
        }
      </style>
    </head>
    <body>
      <div class=`card`>
        ".

Definition threadCardEpilogue : string :=
  "
      </div>
    </body>
    </html>
  ".

(** The markup of one post (source lines 1258-1276). *)
Definition threadTweetHtmlBlock (tweet : Post.t) (author : Author.t) (imagesHtml : string)
    (isLast : bool) : string :=
  Js.tpl "
      <div class=`tweet "
  +:+ (if Post.isMainTweet tweet then "main-tweet" else "")
  +:+ Js.tpl "`>
        <div class=`tweet-connector`>
          <div class=`avatar-wrapper`>
            "
  +:+ (if Js.truthy (Author.avatar author)
             then Js.tpl "<img class=`avatar` src=`" +:+ Js.orElse (Author.avatar author) ""
                  +:+ Js.tpl "` alt=`Avatar`>"
             else Js.tpl "<div class=`avatar placeholder`></div>")
  +:+ "
          </div>
          "
  +:+ (if negb isLast then connectorLine else "")
  +:+ Js.tpl "
        </div>
        <div class=`tweet-content`>
          <div class=`tweet-header`>
            <span class=`name`>"
  +:+ escapeHtml (Author.name author)
  +:+ Js.tpl "</span>
            <span class=`handle`>@"
  +:+ escapeHtml (Author.handle author)
  +:+ Js.tpl "</span>
            <span class=`time`>· "
  +:+ formatRelativeTime (Post.timestamp tweet)
  +:+ Js.tpl "</span>
          </div>
          <div class=`tweet-text`>"
  +:+ escapeHtml (Post.content tweet)
  +:+ "</div>
          "
  +:+ imagesHtml
  +:+ "
        </div>
      </div>
    ".

(** [imagesHtml] (source lines 1250-1254). *)
Definition threadTweetHtmlImages (tweet : Post.t) : string :=
  if (0 <? List.length (Post.images tweet))%nat then
    Js.tpl "
      <div class=`tweet-images "
    +:+ (if (1 <? List.length (Post.images tweet))%nat then "grid" else "")
    +:+ Js.tpl "`>
        "
    +:+ (Js.join ((fun img => Js.tpl "<img src=`" +:+ img +:+ Js.tpl "` alt=`Tweet image`>") <$> Post.images tweet))
    +:+ "
      </div>
    "
  else "".

(** The callback of [threadData.tweets.map]; [count] is
    [threadData.tweets.length]. *)
Definition threadTweetHtml (count : nat) (index : nat) (tweet : Post.t) : Error + string :=
  match Post.author tweet with
  | None => inl (typeError "avatar")
  | Some author =>
      let imagesHtml := threadTweetHtmlImages tweet in
      let isLast := (Z.of_nat index =? Z.of_nat count - 1)%Z in
      inr (threadTweetHtmlBlock tweet author imagesHtml isLast)
  end.

Definition renderTwitterThreadCard (threadData : Thread.t) : Error + string :=
  match mapIndexed (threadTweetHtml (List.length (Thread.tweets threadData))) 0
          (Thread.tweets threadData) with
  | inl e => inl e
  | inr blocks =>
      let tweetsHtml := Js.join blocks in
      inr (threadCardPrologue +:+ tweetsHtml +:+ threadCardEpilogue)
  end.

(** The literal text of the page around the posts (source lines 2171-2271). *)
Definition bentoThreadCardPrologue : string :=
  Js.tpl "
    <!DOCTYPE html>
    <html>
    <head>
      <meta charset=`UTF-8`>
      <style>
        * { margin: 0; padding: 0; box-sizing: border-box; }
        body {
          font-family: -apple-system, BlinkMacSystemFont, `SF Pro Display`, `SF Pro Text`, Helvetica, Arial, sans-serif;
          background: transparent;
          padding: 0;
        }
        .card {
          background: #1c1c1e;
          border-radius: 24px;
          padding: 24px;
          max-width: "
  +:+ pretty CARD_WIDTH
  +:+ Js.tpl "px;
        }
        .tweet {
          display: flex;
          gap: 12px;
        }
        .tweet-connector {
          display: flex;
          flex-direction: column;
          align-items: center;
          width: 40px;
          flex-shrink: 0;
        }
        .avatar {
          width: 40px;
          height: 40px;
          border-radius: 50%;
          object-fit: cover;
        }
        .avatar.placeholder {
          background: #2c2c2e;
        }
        .connector-line {
          width: 2px;
          flex-grow: 1;
          background: #3a3a3c;
          min-height: 20px;
          margin: 4px 0;
        }
        .tweet-content {
          flex: 1;
          padding-bottom: 20px;
        }
        .tweet:last-child .tweet-content {
          padding-bottom: 0;
        }
        .tweet-header {
          display: flex;
          align-items: center;
          gap: 6px;
          margin-bottom: 4px;
        }
        .name {
          color: #fff;
          font-weight: 600;
          font-size: 15px;
          letter-spacing: -0.01em;
        }
        .handle {
          color: rgba(255,255,255,0.55);
          font-size: 14px;
        }
        .tweet-text {
          color: #fff;
          font-size: 16px;
          line-height: 1.45;
          white-space: pre-wrap;
          word-wrap: break-word;
          letter-spacing: -0.01em;
        }
        .tweet-images {
          border-radius: 12px;
          overflow: hidden;
          margin-top: 12px;
        }
        .tweet-images.grid {
          display: grid;
          grid-template-columns: repeat(2, 1fr);
          gap: 2px;
        }
        .tweet-images img {
          width: 100%;
          display: block;
          max-height: 200px;
          object-fit: cover;
        }
      </style>
    </head>
    <body>
      <div class=`card`>
        ".

Definition bentoThreadCardEpilogue : string :=
  "
      </div>
    </body>
    </html>
  ".

(** The markup of one post (source lines 2151-2168). *)
Definition bentoThreadTweetHtmlBlock (tweet : Post.t) (author : Author.t) (imagesHtml : string)
    (isLast : bool) : string :=
  Js.tpl "
      <div class=`tweet`>
        <div class=`tweet-connector`>
          <div class=`avatar-wrapper`>
            "
  +:+ (if Js.truthy (Author.avatar author)
             then Js.tpl "<img class=`avatar` src=`" +:+ Js.orElse (Author.avatar author) ""
                  +:+ Js.tpl "` alt=`Avatar`>"
             else Js.tpl "<div class=`avatar placeholder`></div>")
  +:+ "
          </div>
          "
  +:+ (if negb isLast then connectorLine else "")
  +:+ Js.tpl "
        </div>
        <div class=`tweet-content`>
          <div class=`tweet-header`>
            <span class=`name`>"
  +:+ escapeHtml (Author.name author)
  +:+ Js.tpl "</span>
            <span class=`handle`>@"
  +:+ escapeHtml (Author.handle author)
  +:+ Js.tpl "</span>
          </div>
          <div class=`tweet-text`>"
  +:+ escapeHtml (Post.content tweet)
  +:+ "</div>
          "
  +:+ imagesHtml
  +:+ "
        </div>
      </div>
    ".

(** [imagesHtml] (source lines 2143-2147). *)
Definition bentoThreadTweetHtmlImages (tweet : Post.t) : string :=
  if (0 <? List.length (Post.images tweet))%nat then
    Js.tpl "
      <div class=`tweet-images "
    +:+ (if (1 <? List.length (Post.images tweet))%nat then "grid" else "")
    +:+ Js.tpl "`>
        "
    +:+ (Js.join ((fun img => Js.tpl "<img src=`" +:+ img +:+ Js.tpl "` alt=`Tweet image`>") <$> Post.images tweet))
    +:+ "
      </div>
    "
  else "".

(** The callback of [threadData.tweets.map]; [count] is
    [threadData.tweets.length]. *)
Definition bentoThreadTweetHtml (count : nat) (index : nat) (tweet : Post.t) : Error + string :=
  match Post.author tweet with
  | None => inl (typeError "avatar")
  | Some author =>
      let imagesHtml := bentoThreadTweetHtmlImages tweet in
      let isLast := (Z.of_nat index =? Z.of_nat count - 1)%Z in
      inr (bentoThreadTweetHtmlBlock tweet author imagesHtml isLast)
  end.

Definition renderBentoTwitterThreadCard (threadData : Thread.t) : Error + string :=
  match mapIndexed (bentoThreadTweetHtml (List.length (Thread.tweets threadData))) 0
          (Thread.tweets threadData) with
  | inl e => inl e
  | inr blocks =>
      let tweetsHtml := Js.join blocks in
      inr (bentoThreadCardPrologue +:+ tweetsHtml +:+ bentoThreadCardEpilogue)
  end.

(** The literal text of the page before the card body (source lines 1403-1509). *)
Definition macrumorsCardPrologue : string :=
  Js.tpl "
    <!DOCTYPE html>
    <html>
    <head>
      <meta charset=`UTF-8`>
      <style>
        * { margin: 0; padding: 0; box-sizing: border-box; }
        body {
          font-family: -apple-system, BlinkMacSystemFont, `Segoe UI`, Roboto, Helvetica, Arial, sans-serif;
          background: #000;
          padding: 20px;
        }
        .card {
          background: #fff;
          border-radius: 12px;
          overflow: hidden;
          max-width: "
  +:+ pretty CARD_WIDTH
  +:+ Js.tpl "px;
          display: flex;
        }
        .sidebar {
          background: #f8f9fa;
          padding: 16px;
          text-align: center;
          min-width: 100px;
          border-right: 1px solid #e9ecef;
        }
        .avatar {
          width: 64px;
          height: 64px;
          border-radius: 50%;
          margin-bottom: 8px;
          object-fit: cover;
        }
        .author-name {
          color: #0066cc;
          font-weight: 600;
          font-size: 14px;
          margin-bottom: 4px;
        }
        .author-title {
          color: #6c757d;
          font-size: 12px;
        }
        .main {
          flex: 1;
          padding: 16px;
        }
        .post-header {
          display: flex;
          justify-content: space-between;
          align-items: center;
          margin-bottom: 12px;
          padding-bottom: 8px;
          border-bottom: 1px solid #e9ecef;
        }
        .timestamp {
          color: #6c757d;
          font-size: 12px;
        }
        .post-number {
          background: #0066cc;
          color: white;
          padding: 2px 8px;
          border-radius: 4px;
          font-size: 12px;
          font-weight: 600;
        }
        .content {
          color: #212529;
          font-size: 14px;
          line-height: 1.5;
        }
        .images {
          margin-top: 12px;
        }
        .images img {
          max-width: 100%;
          border-radius: 8px;
          margin-bottom: 8px;
        }
        .reactions {
          margin-top: 12px;
          color: #6c757d;
          font-size: 12px;
        }
        .arrow-btn {
          position: absolute;
          right: 16px;
          bottom: 16px;
          width: 32px;
          height: 32px;
          background: #0066cc;
          border-radius: 50%;
          display: flex;
          align-items: center;
          justify-content: center;
        }
        .arrow-btn svg {
          fill: white;
          width: 16px;
          height: 16px;
        }
      </style>
    </head>
    <body>
      <div class=`card`>
        <div class=`sidebar`>
          ".

Definition renderMacrumorsCard (data : Post.t) : Error + string :=
  match Post.author data with
  | None => inl (typeError "avatar")
  | Some author =>
      let imagesHtml :=
        if (0 <? List.length (Post.images data))%nat then
           Js.tpl "
    <div class=`images`>
      "
           +:+ (Js.join ((fun img => Js.tpl "<img src=`" +:+ img +:+ Js.tpl "` alt=`Post image`>") <$> Post.images data))
           +:+ "
    </div>
  "
        else "" in
      inr (macrumorsCardPrologue
           +:+ (if Js.truthy (Author.avatar author)
             then Js.tpl "<img class=`avatar` src=`" +:+ Js.orElse (Author.avatar author) ""
                  +:+ Js.tpl "` alt=`Avatar`>"
             else Js.tpl "<div class=`avatar` style=`background:#e9ecef;`></div>")
           +:+ Js.tpl "
          <div class=`author-name`>"
           +:+ escapeHtml (Author.name author)
           +:+ Js.tpl "</div>
          <div class=`author-title`>"
           +:+ escapeHtml (Some (Js.orElse (Author.title author) "member"))
           +:+ Js.tpl "</div>
        </div>
        <div class=`main`>
          <div class=`post-header`>
            <span class=`timestamp`>"
           +:+ formatRelativeTime (Post.timestamp data)
           +:+ "</span>
            "
           +:+ (if Js.truthy (Post.postNumber data)
             then Js.tpl "<span class=`post-number`>#" +:+ Js.orElse (Post.postNumber data) ""
                  +:+ "</span>"
             else "")
           +:+ Js.tpl "
          </div>
          <div class=`content`>"
           +:+ escapeHtml (Post.content data)
           +:+ "</div>
          "
           +:+ imagesHtml
           +:+ "
          "
           +:+ (if Js.truthy (Post.reactions data)
             then Js.tpl "<div class=`reactions`>" +:+ escapeHtml (Post.reactions data)
                  +:+ "</div>"
             else "")
           +:+ "
        </div>
      </div>
    </body>
    </html>
  ")
  end.

(** The literal text of the page before the card body (source lines 2493-2565). *)
Definition bentoMacrumorsCardPrologue : string :=
  Js.tpl "
    <!DOCTYPE html>
    <html>
    <head>
      <meta charset=`UTF-8`>
      <style>
        * { margin: 0; padding: 0; box-sizing: border-box; }
        body {
          font-family: -apple-system, BlinkMacSystemFont, `SF Pro Display`, `SF Pro Text`, Helvetica, Arial, sans-serif;
          background: transparent;
          padding: 0;
        }
        .card {
          background: #1c1c1e;
          border-radius: 24px;
          padding: 24px;
          max-width: "
  +:+ pretty CARD_WIDTH
  +:+ Js.tpl "px;
        }
        .header {
          display: flex;
          align-items: center;
          margin-bottom: 16px;
        }
        .avatar {
          width: 48px;
          height: 48px;
          border-radius: 50%;
          margin-right: 14px;
          object-fit: cover;
        }
        .author-info { flex: 1; }
        .name {
          color: #0a84ff;
          font-weight: 600;
          font-size: 16px;
          letter-spacing: -0.01em;
        }
        .title {
          color: rgba(255,255,255,0.55);
          font-size: 13px;
        }
        .post-number {
          background: #0a84ff;
          color: white;
          padding: 4px 10px;
          border-radius: 8px;
          font-size: 13px;
          font-weight: 600;
        }
        .content {
          color: #fff;
          font-size: 16px;
          line-height: 1.5;
          letter-spacing: -0.01em;
        }
        .images {
          margin-top: 16px;
        }
        .images img {
          max-width: 100%;
          border-radius: 12px;
          margin-bottom: 8px;
        }
        .reactions {
          margin-top: 16px;
          color: rgba(255,255,255,0.55);
          font-size: 14px;
        }
      </style>
    </head>
    <body>
      <div class=`card`>
        <div class=`header`>
          ".

Definition renderBentoMacrumorsCard (data : Post.t) : Error + string :=
  match Post.author data with
  | None => inl (typeError "avatar")
  | Some author =>
      let imagesHtml :=
        if (0 <? List.length (Post.images data))%nat then
           Js.tpl "
    <div class=`images`>
      "
           +:+ (Js.join ((fun img => Js.tpl "<img src=`" +:+ img +:+ Js.tpl "` alt=`Post image`>") <$> Post.images data))
           +:+ "
    </div>
  "
        else "" in
      inr (bentoMacrumorsCardPrologue
           +:+ (if Js.truthy (Author.avatar author)
             then Js.tpl "<img class=`avatar` src=`" +:+ Js.orElse (Author.avatar author) ""
                  +:+ Js.tpl "` alt=`Avatar`>"
             else Js.tpl "<div class=`avatar` style=`background:#2c2c2e;`></div>")
           +:+ Js.tpl "
          <div class=`author-info`>
            <div class=`name`>"
           +:+ escapeHtml (Author.name author)
           +:+ Js.tpl "</div>
            <div class=`title`>"
           +:+ escapeHtml (Some (Js.orElse (Author.title author) "member"))
           +:+ "</div>
          </div>
          "
           +:+ (if Js.truthy (Post.postNumber data)
             then Js.tpl "<span class=`post-number`>#" +:+ Js.orElse (Post.postNumber data) ""
                  +:+ "</span>"
             else "")
           +:+ Js.tpl "
        </div>
        <div class=`content`>"
           +:+ escapeHtml (Post.content data)
           +:+ "</div>
        "
           +:+ imagesHtml
           +:+ "
        "
           +:+ (if Js.truthy (Post.reactions data)
             then Js.tpl "<div class=`reactions`>" +:+ escapeHtml (Post.reactions data)
                  +:+ "</div>"
             else "")
           +:+ "
      </div>
    </body>
    </html>
  ")
  end.

End Templates.

(** ** File names *)

(** The alternatives of [(jpg|jpeg|png|gif|webp)], tried in this order. *)
Definition imageExtensions : list string := ["jpg"; "jpeg"; "png"; "gif"; "webp"].

Definition extensionAt (s : string) : option string :=
  List.find (Js.startsWith s) imageExtensions.

(** Source lines 234-244.  Both patterns are case insensitive and their
    capture is lowered, so they are matched on the lowered URL. *)
Definition getImageExtension (url : string) : string :=
  let lower := Js.toLowerCase url in
  match Js.firstMatch
          (fun s => if Js.startsWith s "." then extensionAt (Js.dropChars 1 s) else None)
          lower with
  | Some ext => ext
  | None =>
      match Js.firstMatch
              (fun s => if Js.startsWith s "format=" then extensionAt (Js.dropChars 7 s)
                        else None)
              lower with
      | Some ext => ext
      | None => "jpg"
      end
  end.

(** [path.join(dir, name)], for a resolved directory and a plain file
    name, and [path.basename(p)]. *)
Definition pathJoin (dir name : string) : string := dir +:+ "/" +:+ name.
Definition pathBasename (p : string) : string := Js.splitPop "/" p.

(** ** The pipeline of one URL (source lines 2914-3037) *)

Record Options : Type := mkOptions { thread : bool; bento : bool }.

Inductive CaptureResult : Type :=
| Failure (url : string) (error : string)
| Success (url : string) (cardFilename : string) (imageFilenames : list string)
          (metadataFilename : string) (author : string).

Definition success (r : CaptureResult) : bool :=
  match r with
  | Success _ _ _ _ _ => true
  | Failure _ _ => false
  end.

Definition resultUrl (r : CaptureResult) : string :=
  match r with
  | Success url _ _ _ _ => url
  | Failure url _ => url
  end.

Inductive Card : Type :=
| TwitterCard | MacrumorsCard | BlueskyCard | MastodonCard
| YouTubeCard | TikTokCard | ArticleCard.

(** The functions [processUrl] calls.  [scrape p] is the scraper of
    platform [p] ([scrapeTwitter], [scrapeMacrumors], ...), [render c b]
    the template of card [c], in its bento variant when [b] holds
    ([renderTwitterCard], [renderBentoTwitterCard], ...).  Each of them
    may resolve, throw or stay pending, and may act on the world. *)
Record Stages : Type := mkStages {
  scrape : Platform -> string -> Async Post.t;
  scrapeTwitterThreadStage : string -> Async Thread.t;
  render : Card -> bool -> Post.t -> Async string;
  renderThread : bool -> Thread.t -> Async string;
  generateScreenshot : string -> string -> Async string;
  downloadImageStage : option string -> string -> Async (option string);
  (** [JSON.stringify(buildMetadataPayload(source, url, card, images), null, 2)] *)
  metadataJson : Thread.t + Post.t -> string -> string -> list string -> Async string;
  writeFileSync : string -> string -> Async unit
}.

(** What the [switch] leaves in [data], [html] and [metadataSource]. *)
Record Scraped : Type := mkScraped {
  dataAuthor : option Author.t;
  dataSiteName : option string;
  dataOriginalImageUrls : list (option string);
  html : string;
  metadataSource : Thread.t + Post.t
}.

Definition ofPost (data : Post.t) (html : string) : Scraped :=
  mkScraped (Post.author data) (Post.siteName data) (Post.originalImageUrls data)
    html (inr data).

Definition logPrefix (index total : nat) : string :=
  if (1 <? total)%nat
  then "[" +:+ pretty (index + 1)%nat +:+ "/" +:+ pretty total +:+ "] "
  else "".

Definition consoleLog (line : string) : Async unit := emit (ConsoleLog line).

Section Pipeline.
Variable stages : Stages.

Definition scrapeAndRender (platform : Platform) (card : Card) (url : string)
    (options : Options) : Async Scraped :=
  let* data := scrape stages platform url in
  let* html := render stages card (bento options) data in
  ret (ofPost data html).

(** The [switch] on the platform (lines 2932-2987). *)
Definition scrapeByPlatform (platform : Platform) (url : string) (options : Options)
  : Async Scraped :=
  match platform with
  | Twitter =>
      if thread options then
        let* threadData := scrapeTwitterThreadStage stages url in
        let* html := renderThread stages (bento options) threadData in
        ret (mkScraped
               (Some (default (Author.mk (Some "Unknown") None None None None None)
                        (head (Thread.tweets threadData) ≫= Post.author)))
               None
               (Thread.tweets threadData ≫= Post.originalImageUrls)
               html (inl threadData))
      else scrapeAndRender Twitter TwitterCard url options
  | Macrumors => scrapeAndRender Macrumors MacrumorsCard url options
  | Bluesky => scrapeAndRender Bluesky BlueskyCard url options
  | Mastodon => scrapeAndRender Mastodon MastodonCard url options
  | Threads => scrapeAndRender Threads TwitterCard url options
  | Youtube => scrapeAndRender Youtube YouTubeCard url options
  | Tiktok => scrapeAndRender Tiktok TikTokCard url options
  | Article => scrapeAndRender Article ArticleCard url options
  | Unknown => throw (mkError "Platform not implemented")
  end.

(** The download loop (lines 2999-3010); [i] is the loop index. *)
Fixpoint downloadOriginals (outputDir baseFilename : string) (i : nat)
    (urls : list (option string)) : Async (list string) :=
  match urls with
  | [] => ret []
  | imgUrl :: rest =>
      match imgUrl with
      | None => throw (typeError "match")
      | Some u =>
          let ext := getImageExtension u in
          let imgFilename :=
            pathJoin outputDir
              (baseFilename +:+ "-image-" +:+ pretty (i + 1)%nat +:+ "." +:+ ext) in
          let* result := downloadImageStage stages imgUrl imgFilename in
          let* more := downloadOriginals outputDir baseFilename (S i) rest in
          ret (if Js.truthy result then pathBasename imgFilename :: more else more)
      end
  end.

Fixpoint logImages (prefix : string) (images : list string) : Async unit :=
  match images with
  | [] => ret tt
  | img :: rest =>
      let* _ := consoleLog (prefix +:+ "     Image: " +:+ img) in
      logImages prefix rest
  end.

(** The body of the [try] block (lines 2927-3031). *)
Definition capture (url : string) (platform : Platform) (prefix outputDir : string)
    (options : Options) : Async CaptureResult :=
  let* scraped := scrapeByPlatform platform url options in
  let author :=
    Js.orElse (dataAuthor scraped ≫= Author.name)
      (Js.orElse (dataSiteName scraped) "Unknown") in
  let* timestamp := dateNow in
  let baseFilename :=
    Js.replaceFirst ".png" "" (generateFilename url (platformTag platform) timestamp) in
  let cardFilename := pathJoin outputDir (baseFilename +:+ "-card.png") in
  let* _ := generateScreenshot stages (html scraped) cardFilename in
  let* downloadedImages :=
    downloadOriginals outputDir baseFilename 0 (dataOriginalImageUrls scraped) in
  let metadataFilename := pathJoin outputDir (baseFilename +:+ "-metadata.json") in
  let* metadataPayload :=
    metadataJson stages (metadataSource scraped) url cardFilename downloadedImages in
  let* _ := writeFileSync stages metadataFilename metadataPayload in
  let* _ := consoleLog (prefix +:+ "  ✅ " +:+ author) in
  let* _ := consoleLog (prefix +:+ "     Card: " +:+ pathBasename cardFilename) in
  let* _ := logImages prefix downloadedImages in
  let* _ := consoleLog (prefix +:+ "     Metadata: " +:+ pathBasename metadataFilename) in
  ret (Success url (pathBasename cardFilename) downloadedImages
         (pathBasename metadataFilename) author).

Definition processUrl (url : string) (index total : nat) (outputDir : string)
    (options : Options) : Async CaptureResult :=
  let prefix := logPrefix index total in
  let* _ := consoleLog (prefix +:+ "Processing: " +:+ url) in
  let platform := detectPlatform url in
  match platform with
  | Unknown =>
      let* _ := consoleLog (prefix +:+ "  ⚠️  Unknown platform, skipping") in
      ret (Failure url "Unknown platform")
  | _ =>
      tryCatch (capture url platform prefix outputDir options)
        (fun error =>
           let* _ := consoleLog (prefix +:+ "  ❌ Error: " +:+ message error) in
           ret (Failure url (message error)))
  end.

(** ** The batch scheduler (source lines 85-104) *)

(** Starting every promise of a list, in the order of the list.  The
    members of a wave interleave at their suspension points; each is
    taken to run as a whole, in the order in which the wave starts them.
    The order of the values of [Promise.all] is that of the members,
    whatever the order in which they settle. *)
Fixpoint startAll {A} (ps : list (Async A)) (w : World) : list (Promise A) * World :=
  match ps with
  | [] => ([], w)
  | p :: rest =>
      let '(r, w1) := p w in
      let '(rs, w2) := startAll rest w1 in
      (r :: rs, w2)
  end.

(** The state of [Promise.all]: rejected when a member is, else pending
    when a member is, else resolved with the values in the order of the
    members. *)
Fixpoint allSettled {A} (rs : list (Promise A)) : Promise (list A) :=
  match rs with
  | [] => Resolved []
  | r :: rest =>
      match r, allSettled rest with
      | Rejected e, _ => Rejected e
      | _, Rejected e => Rejected e
      | Pending, _ => Pending
      | _, Pending => Pending
      | Resolved a, Resolved l => Resolved (a :: l)
      end
  end.

Definition promiseAll {A} (ps : list (Async A)) : Async (list A) :=
  fun w => let '(rs, w') := startAll ps w in (allSettled rs, w').

(** The [for] loop, from index [i] with the results gathered so far.
    [fuel] bounds the number of waves. *)
Fixpoint waves (fuel : nat) (urls : list string) (outputDir : string)
    (concurrency : nat) (options : Options) (i : nat) (results : list CaptureResult)
  : Async (list CaptureResult) :=
  if (i <? List.length urls)%nat then
    match fuel with
    | O => never
    | S fuel' =>
        let batch := take concurrency (drop i urls) in
        let batchPromises :=
          imap (fun batchIndex url =>
                  let index := (i + batchIndex)%nat in
                  processUrl url index (List.length urls) outputDir options)
            batch in
        let* batchResults := promiseAll batchPromises in
        waves fuel' urls outputDir concurrency options (i + concurrency)
          (results ++ batchResults)
    end
  else ret results.

Definition processInParallel (fuel : nat) (urls : list string) (outputDir : string)
    (concurrency : nat) (options : Options) : Async (list CaptureResult) :=
  waves fuel urls outputDir concurrency options 0 [].

End Pipeline.

(** ** Vocabulary of the statements *)

(** A computation settles when its promise is never left pending. *)
Definition settles {A} (m : Async A) : Prop := forall w, (m w).1 <> Pending.

(** Every function called along the pipeline settles. *)
Record StagesSettle (stages : Stages) : Prop := mkStagesSettle {
  scrape_settles : forall p u, settles (scrape stages p u);
  scrapeTwitterThread_settles : forall u, settles (scrapeTwitterThreadStage stages u);
  render_settles : forall c b d, settles (render stages c b d);
  renderThread_settles : forall b d, settles (renderThread stages b d);
  generateScreenshot_settles : forall h f, settles (generateScreenshot stages h f);
  downloadImage_settles : forall u f, settles (downloadImageStage stages u f);
  metadataJson_settles : forall m u c i, settles (metadataJson stages m u c i);
  writeFileSync_settles : forall f d, settles (writeFileSync stages f d)
}.

(** The paths written on disk, in the order of the writes. *)
Definition fsWrites (t : list Effect) : list string :=
  t ≫= fun e =>
         match e with
         | FsCreate path => [path]
         | FsWrite path _ => [path]
         | _ => []
         end.

(** The network requests issued. *)
Definition netRequests (t : list Effect) : list string :=
  t ≫= fun e =>
         match e with
         | NetGet _ url => [url]
         | _ => []
         end.


(** The world in which the [try] block of [processUrl] starts. *)
Definition entering (url : string) (index total : nat) (w : World) : World :=
  mkWorld (clock w) (trace w ++ [ConsoleLog (logPrefix index total +:+ "Processing: " +:+ url)]).

(** The pipeline runs the scheduler starts for the URLs from position
    [i] on. *)
Definition itemsFrom (stages : Stages) (urls : list string) (outputDir : string)
    (options : Options) (i : nat) : list (Async CaptureResult) :=
  imap (fun k url => processUrl stages url (i + k) (List.length urls) outputDir options)
    (drop i urls).

(** A text without an opening angle bracket. *)
Definition markupFree (s : string) : bool :=
  Js.every (fun c => negb (Ascii.eqb c "<")) s.


(** A post of a thread as the scraper builds it: it has an author, and
    its inline images are data URIs, free of markup. *)
Record WellFormedTweet (tweet : Post.t) : Prop := mkWellFormedTweet {
  tweet_author : is_Some (Post.author tweet);
  tweet_avatar :
    forall a, Post.author tweet = Some a -> markupFree (Js.orElse (Author.avatar a) "") = true;
  tweet_images : Forall (fun img => markupFree img = true) (Post.images tweet)
}.

(** The markup of a post of a thread, in the standard and in the bento
    card. *)
Definition threadPost (env : Env) (now : Z) (tweet : Post.t) (isLast : bool) : string :=
  match Post.author tweet with
  | Some author =>
      threadTweetHtmlBlock env now tweet author (threadTweetHtmlImages tweet) isLast
  | None => ""
  end.

Definition bentoThreadPost (tweet : Post.t) (isLast : bool) : string :=
  match Post.author tweet with
  | Some author =>
      bentoThreadTweetHtmlBlock tweet author (bentoThreadTweetHtmlImages tweet) isLast
  | None => ""
  end.

(** ** Fixtures *)

Definition anError : Error := mkError "ECONNREFUSED".

(** An outside that answers every request with [res]. *)
Definition answering (res : Response) : Env :=
  mkEnv (fun _ _ _ => Respond res) (fun _ _ => true) (fun _ => None) (fun _ => None)
    (fun _ => None) (fun _ => throw anError) (ret tt) (fun _ => None) (fun _ => "").

Definition notFound : Response :=
  mkResponse 404 None (Some "text/html") (BodyEnd "Not Found").

Definition world0 : World := mkWorld 1706472000000 [].

Definition aPost : Post.t :=
  Post.mk "twitter"
    (Some (Author.mk (Some "Ada") (Some "ada") None None None (Some false)))
    (Some "Hello") [] [] None None None None None false None
    "https://x.com/ada/status/1".

Definition aThread : Thread.t :=
  Thread.mk "twitter-thread" [aPost] "https://x.com/ada/status/1".

(** Stages that settle: scraping fails for the posts that are gone, and
    everything else goes through. *)
Definition demoStages : Stages :=
  mkStages
    (fun _ url => if Js.includes url "gone" then throw (mkError "Post not found")
                  else ret aPost)
    (fun _ => ret aThread)
    (fun _ _ _ => ret "<html></html>")
    (fun _ _ => ret "<html></html>")
    (fun _ filename => let* _ := emit (FsWrite filename "PNG") in ret filename)
    (fun _ _ => ret None)
    (fun _ _ _ _ => ret "{}")
    (fun path data => emit (FsWrite path data)).

Definition demoOptions : Options := mkOptions false false.

Definition tweetBy (name handle text : string) (images : list string) (main : bool) : Post.t :=
  Post.mk "twitter"
    (Some (Author.mk (Some name) (Some handle) None None (Some "") (Some false)))
    (Some text) images [] (Some "") None None None None main None "".

(** A server of the fediverse that allows five attachments on a status,
    and serves them. *)
Definition fiveImages : list Masto.media :=
  (fun n => Masto.mkMedia (Some "image")
              (Some ("https://cdn.social.example/" +:+ n +:+ ".png")) None)
  <$> ["1"; "2"; "3"; "4"; "5"].

Definition statusWithFiveImages : Masto.status :=
  Masto.mkStatus (Some (Masto.mkAccount None (Some "Eve") (Some "eve")))
    (Some fiveImages) (Some "<p>Five  pictures</p>") (Some "2024-01-28T20:00:00.000Z")
    (Some 1%Z) None (Some 3%Z).

Definition fediverse : Env :=
  mkEnv
    (fun _ _ url =>
       if String.eqb url "https://social.example/api/v1/statuses/42"
       then Respond (mkResponse 200 None (Some "application/json") (BodyEnd "{}"))
       else Respond (mkResponse 200 None (Some "image/png") (BodyEnd "PNG")))
    (fun _ _ => true)
    (fun _ => None)
    (fun _ => Some ("social.example", "/@eve/42"))
    (fun _ => Some statusWithFiveImages)
    (fun _ => throw anError) (ret tt) (fun _ => None) (fun _ => "").

(** A post view with four images and the thumbnail of an external
    embed. *)
Definition postWithFiveImages : Bsky.post :=
  Bsky.mkPost (Some (Bsky.mkAuthor None (Some "Eve") (Some "eve.example")))
    (Some ((fun n => Bsky.mkImage (Some ("https://cdn.bsky.app/img/" +:+ n)) None)
           <$> ["1"; "2"; "3"; "4"]))
    (Some "https://cdn.bsky.app/img/thumb") (Some "Five") None None None None None.

(** A forum post whose number and text hold markup. *)
Definition forumPost : Post.t :=
  Post.mk "macrumors"
    (Some (Author.mk (Some "Eve") None (Some "macrumors 6502") None (Some "") None))
    (Some "Nice <b>phone</b>") [] [] (Some "") None
    (Some "1<script>alert(1)</script>") (Some "Like & share") None false None
    "https://forums.macrumors.com/threads/x.1/post-2".

(** A conversation of three posts. *)
Definition demoThread : Thread.t :=
  Thread.mk "twitter-thread"
    [tweetBy "Ada" "ada" "First <post>" [] true;
     tweetBy "Bob" "bob" "Second & last?" ["data:image/png;base64,AAAA"] false;
     tweetBy "Cy" "cy" "Third" [] false]
    "https://x.com/ada/status/1".

Definition demoUrls : list string :=
  ["https://x.com/ada/status/1"; "https://example.org/post/12";
   "https://bsky.app/profile/gone.example/post/3k"].


(** ** Further vocabulary *)

(** [s.split('').map(f).join('')] *)
Fixpoint flatMap (f : ascii -> string) (s : string) : string :=
  match s with
  | "" => ""
  | String a s' => f a +:+ flatMap f s'
  end.

(** What [escapeHtml] makes of one character. *)
Definition escapeChar (c : ascii) : string :=
  if Ascii.eqb c "&" then "&amp;"
  else if Ascii.eqb c "<" then "&lt;"
  else if Ascii.eqb c ">" then "&gt;"
  else if Ascii.eqb c Js.dq then "&quot;"
  else if Ascii.eqb c "'" then "&#039;"
  else String c "".

(** The characters [escapeHtml] replaces, the ampersand apart. *)
Definition isDelimiter (c : ascii) : bool :=
  Ascii.eqb c "<" || Ascii.eqb c ">" || Ascii.eqb c Js.dq || Ascii.eqb c "'".

(** A clock and a calendar: dates are read as the number that stands
    for them, and written back as that number. *)
Definition numericDates : Env :=
  mkEnv (fun _ _ _ => RequestError anError) (fun _ _ => true) (fun _ => None)
    (fun _ => None) (fun _ => None) (fun _ => throw anError) (ret tt)
    (fun s => if String.eqb s "soon" then Some 1706472030000%Z
              else if String.eqb s "lunch" then Some 1706464800000%Z
              else None)
    (fun date => pretty date).


(** The content types the servers announce hold no markup. *)
Definition plainContentTypes (env : Env) : Prop :=
  forall w secure url res,
    httpGet env w secure url = Respond res ->
    markupFree (Js.orElse (contentType res) "image/jpeg") = true.


(** A byte of a white space character: it is no bracket. *)
Definition spaceByte (c : ascii) : bool :=
  Js.isSpace c || (128 <=? nat_of_ascii c)%nat.







(** An embed page that shows a tweet with five images. *)
Definition tweetWithFiveImages : Embed.t :=
  Embed.mk "Five pictures" "Ada" "ada" "https://pbs.twimg.com/profile_images/1/a.jpg"
    ((fun n => "https://pbs.twimg.com/media/" +:+ n +:+ "?format=jpg&name=small")
     <$> ["1"; "2"; "3"; "4"; "5"])
    "2024-01-28T20:00:00.000Z" "12" "3".

Definition twitterEmbed : Env :=
  mkEnv
    (fun _ _ _ => Respond (mkResponse 200 None (Some "image/jpeg") (BodyEnd "JPG")))
    (fun _ _ => true)
    (fun s => if String.eqb s "12" then Some 12%Z else if String.eqb s "3" then Some 3%Z
              else None)
    (fun _ => None) (fun _ => None)
    (fun _ => ret tweetWithFiveImages) (ret tt) (fun _ => None) (fun _ => "").


(** The name of the [k]-th image file of a capture: the template
    [`${baseFilename}-image-${i + 1}.${ext}`] of the download loop. *)
Definition imageName (baseFilename : string) (k : nat) (ext : string) : string :=
  baseFilename +:+ "-image-" +:+ pretty k +:+ "." +:+ ext.

Definition notSlash (c : ascii) : bool := negb (Ascii.eqb c "/").
Definition notDot (c : ascii) : bool := negb (Ascii.eqb c ".").

(** The stages of a capture from the fediverse: the scraper and the
    downloader are those of the program, on the network of [fediverse]. *)
Definition fediverseStages : Stages :=
  mkStages
    (fun p url => match p with
                  | Mastodon => scrapeMastodon fediverse 5 url
                  | _ => throw anError
                  end)
    (fun _ => throw anError)
    (fun _ _ _ => ret "<html></html>")
    (fun _ _ => ret "<html></html>")
    (fun _ filename => let* _ := emit (FsWrite filename "PNG") in ret filename)
    (downloadImage fediverse 5)
    (fun _ _ _ _ => ret "{}")
    (fun path data => emit (FsWrite path data)).


(** ** Running a batch and counting (source lines 3105-3128, and lines
    94-109 of the UI server)

    One URL is processed directly, several through the scheduler; the
    totals of the answer count the results by their [success] flag. *)
Definition runBatch (stages : Stages) (fuel : nat) (urls : list string) (outputDir : string)
    (parallel : nat) (options : Options) : Async (list CaptureResult) :=
  match urls with
  | [url] =>
      let* result := processUrl stages url 0 1 outputDir options in
      ret [result]
  | _ => processInParallel stages fuel urls outputDir parallel options
  end.

Record Totals : Type := mkTotals { totalUrls : nat; successful : nat; failed : nat }.

Definition totals (urls : list string) (results : list CaptureResult) : Totals :=
  mkTotals (List.length urls)
    (List.length (List.filter success results))
    (List.length (List.filter (fun result => negb (success result)) results)).

(** [successful.reduce((sum, r) => sum + (r.imageFilenames?.length || 0), 0)] *)
Definition imagesSaved (results : list CaptureResult) : nat :=
  foldl (fun sum r =>
           sum + match r with
                 | Success _ _ imageFilenames _ _ => List.length imageFilenames
                 | Failure _ _ => 0
                 end)
    0 (List.filter success results).


(** ** The command line (source lines 48-80 and 3048-3054) *)

Module Config.
Record t : Type := mk {
  urls : list string;
  file : option string;
  output : string;
  parallel : Z;
  thread : bool;
  bento : bool
}.
End Config.

Definition DEFAULT_PARALLEL : Z := 3.

Section Cli.
Variable env : Env.
(** [path.resolve] *)
Variable resolve : string -> string.
Variable DEFAULT_SCREENSHOTS_DIR : string.

(** The loop of [parseArgs].  [skip] tells that the argument at hand
    has been read as the value of the option before it (the [i++] of the
    branch); [head rest] is [args[i + 1]]. *)
Fixpoint parseArgsFrom (skip : bool) (result : Config.t) (args : list string) : Config.t :=
  match args with
  | [] => result
  | arg :: rest =>
      if skip then parseArgsFrom false result rest
      else
        let next := head rest in
        if String.eqb arg "--file" && Js.truthy next then
          parseArgsFrom true
            (Config.mk (Config.urls result) next (Config.output result)
               (Config.parallel result) (Config.thread result) (Config.bento result))
            rest
        else if String.eqb arg "--output" && Js.truthy next then
          parseArgsFrom true
            (Config.mk (Config.urls result) (Config.file result) (resolve (default "" next))
               (Config.parallel result) (Config.thread result) (Config.bento result))
            rest
        else if String.eqb arg "--thread" then
          parseArgsFrom false
            (Config.mk (Config.urls result) (Config.file result) (Config.output result)
               (Config.parallel result) true (Config.bento result))
            rest
        else if String.eqb arg "--bento" then
          parseArgsFrom false
            (Config.mk (Config.urls result) (Config.file result) (Config.output result)
               (Config.parallel result) (Config.thread result) true)
            rest
        else if String.eqb arg "--parallel" && Js.truthy next then
          parseArgsFrom true
            (Config.mk (Config.urls result) (Config.file result) (Config.output result)
               (match parseInt env (default "" next) with
                | Some n => if (n =? 0)%Z then DEFAULT_PARALLEL else n
                | None => DEFAULT_PARALLEL
                end)
               (Config.thread result) (Config.bento result))
            rest
        else if Js.startsWith arg "http" then
          parseArgsFrom false
            (Config.mk (Config.urls result ++ [arg]) (Config.file result)
               (Config.output result) (Config.parallel result) (Config.thread result)
               (Config.bento result))
            rest
        else parseArgsFrom false result rest
  end.

Definition parseArgs (args : list string) : Config.t :=
  parseArgsFrom false
    (Config.mk [] None DEFAULT_SCREENSHOTS_DIR DEFAULT_PARALLEL false false) args.

End Cli.

(** [s.split(c)]; [acc] is the piece read so far. *)
Fixpoint splitFrom (c : ascii) (acc s : string) : list string :=
  match s with
  | "" => [acc]
  | String a s' =>
      if Ascii.eqb a c then acc :: splitFrom c "" s'
      else splitFrom c (acc +:+ String a "") s'
  end.

Definition newline : ascii := "010".

(** The URLs of a file given with [--file] (lines 3050-3054). *)
Definition urlsOfFile (content : string) : list string :=
  List.filter
    (fun line =>
       match line with "" => false | _ => true end
       && negb (Js.startsWith line "#") && Js.startsWith line "http")
    (Js.trim <$> splitFrom newline "" content).

(** A file of one line per text. *)
Definition unlines (l : list string) : string :=
  Js.join ((fun line => line +:+ String newline "") <$> l).

(** An address as a file holds it: it starts with [http], has no white
    space around it, and stays on its line. *)
Definition cleanUrl (u : string) : Prop :=
  Js.startsWith u "http" = true /\ Js.trim u = u
  /\ Js.every (fun a => negb (Ascii.eqb a newline)) u = true.


(** ** Bluesky (source lines 729-773) *)

(** [/profile\/([^\/]+)\/post\/([^\/\?]+)/]: the handle and the post id. *)
Definition blueskyPostRef (url : string) : option (string * string) :=
  Js.firstMatch
    (fun s =>
       if Js.startsWith s "profile/" then
         let r := Js.dropChars 8 s in
         match Js.takeWhile notSlash r with
         | "" => None
         | handle =>
             let r' := Js.dropWhile notSlash r in
             if Js.startsWith r' "/post/" then
               match Js.takeWhile (fun c => notSlash c && negb (Ascii.eqb c "?"))
                       (Js.dropChars 6 r') with
               | "" => None
               | postId => Some (handle, postId)
               end
             else None
         end
       else None)
    url.

Section Bluesky.
Variable env : Env.
Variable fuel : nat.
(** [JSON.parse] of the answer of [getPostThread], read at
    [.thread?.post]: [None] when it throws, [Some None] for [null],
    [Some (Some post)] with the post, [None] when it is falsy. *)
Variable parseThread : string -> option (option (option Bsky.post)).
(** [JSON.parse] of the answer of [resolveHandle], read at [.did]. *)
Variable parseResolve : string -> option (option (option string)).
Variable encodeURIComponent : string -> string.

(** [const threadData = await fetchJSON(apiUrl); const post =
    threadData.thread?.post;] *)
Definition fetchThreadPost (apiUrl : string) : Async (option Bsky.post) :=
  let* threadData := fetchJSON env parseThread fuel apiUrl in
  match threadData with
  | None => throw (mkError "Cannot read properties of null (reading 'thread')")
  | Some post => ret post
  end.

Definition scrapeBluesky (url : string) : Async Post.t :=
  match blueskyPostRef url with
  | None => throw (mkError "Invalid Bluesky URL")
  | Some (handle, postId) =>
      let resolveUrl :=
        "https://public.api.bsky.app/xrpc/com.atproto.identity.resolveHandle?handle="
        +:+ handle in
      tryCatch
        (let* bridged :=
           if Js.includes handle ".ap.brid.gy" then
             let apiUrl :=
               "https://public.api.bsky.app/xrpc/app.bsky.feed.getPostThread?uri=at://"
               +:+ handle +:+ "/app.bsky.feed.post/" +:+ postId +:+ "&depth=0" in
             tryCatch
               (let* post := fetchThreadPost apiUrl in
                match post with
                | Some p =>
                    let* data := formatBlueskyPost env fuel p url in
                    ret (Some data)
                | None => ret None
                end)
               (fun _ => ret None)
           else ret None in
         match bridged with
         | Some data => ret data
         | None =>
             let* resolveData := fetchJSON env parseResolve fuel resolveUrl in
             match resolveData with
             | None => throw (mkError "Cannot read properties of null (reading 'did')")
             | Some did =>
                 let postUri :=
                   "at://" +:+ interpolate did +:+ "/app.bsky.feed.post/" +:+ postId in
                 let threadUrl :=
                   "https://public.api.bsky.app/xrpc/app.bsky.feed.getPostThread?uri="
                   +:+ encodeURIComponent postUri +:+ "&depth=0" in
                 let* post := fetchThreadPost threadUrl in
                 match post with
                 | None => throw (mkError "Post not found")
                 | Some p => formatBlueskyPost env fuel p url
                 end
             end
         end)
        (fun e => throw (mkError ("Could not fetch Bluesky post: " +:+ message e)))
  end.

End Bluesky.

(** ** Twitter conversations (source lines 534-644) *)

(** What [page.evaluate] returns for a tweet of the conversation view
    (lines 575-583). *)
Module Conversation.
Record tweet : Type := mk {
  text : string;
  authorName : string;
  authorHandle : string;
  avatar : string;
  images : list string;
  timestamp : string;
  isMainTweet : bool
}.
End Conversation.

Section Conversations.
Variable env : Env.
Variable fuel : nat.
(** Loading the conversation view at an address, waiting for it,
    evaluating the extraction script and closing the context. *)
Variable conversationPage : string -> Async (list Conversation.tweet).

(** The body of the loop over the tweets (lines 598-627).  A thread
    tweet has no [url]. *)
Definition formatTweet (tweet : Conversation.tweet) : Async Post.t :=
  let* avatarBase64 := imageToBase64 env fuel (Some (Conversation.avatar tweet)) in
  let shown := take 4 (Conversation.images tweet) in
  let* imagesBase64 := inlineImages env fuel (Some <$> shown) in
  let originalImageUrls := upgradeTwitterImage <$> shown in
  ret (Post.mk "twitter"
         (Some (Author.mk (Some (Conversation.authorName tweet))
                  (Some (Conversation.authorHandle tweet)) None
                  avatarBase64 (Some (Conversation.avatar tweet)) (Some false)))
         (Some (Conversation.text tweet))
         imagesBase64
         (Some <$> originalImageUrls)
         (Some (Conversation.timestamp tweet))
         None None None None (Conversation.isMainTweet tweet) None "").

Fixpoint formatTweets (tweets : list Conversation.tweet) : Async (list Post.t) :=
  match tweets with
  | [] => ret []
  | tweet :: rest =>
      let* formatted := formatTweet tweet in
      let* more := formatTweets rest in
      ret (formatted :: more)
  end.

Definition scrapeTwitterThread (url : string) : Async Thread.t :=
  match statusId url with
  | None => throw (mkError "Invalid Twitter URL")
  | Some tweetId =>
      let* _ := newPage env in
      tryCatch
        (let embedUrl :=
           "https://platform.twitter.com/embed/Tweet.html?id=" +:+ tweetId
           +:+ "&theme=dark&conversation=all" in
         let* tweets := conversationPage embedUrl in
         match tweets with
         | [] => throw (mkError "No tweets found in thread")
         | _ =>
             let* formattedTweets := formatTweets tweets in
             ret (Thread.mk "twitter-thread" formattedTweets url)
         end)
        (fun e => throw (mkError ("Could not fetch thread: " +:+ message e)))
  end.

End Conversations.

(** A tweet of a conversation as the scraper formats it, from what
    the page gave for it. *)
Definition formattedFrom (tweet : Conversation.tweet) (p : Post.t) : Prop :=
  Post.platform p = "twitter"
  /\ Post.content p = Some (Conversation.text tweet)
  /\ Post.isMainTweet p = Conversation.isMainTweet tweet
  /\ Post.timestamp p = Some (Conversation.timestamp tweet)
  /\ (Post.author p ≫= Author.name) = Some (Conversation.authorName tweet)
  /\ (Post.author p ≫= Author.handle) = Some (Conversation.authorHandle tweet)
  /\ Post.originalImageUrls p
     = (fun u => Some (upgradeTwitterImage u)) <$> take 4 (Conversation.images tweet)
  /\ List.length (Post.images p) <= List.length (Post.originalImageUrls p)
  /\ List.length (Post.originalImageUrls p) <= 4.

(** A conversation of two tweets, the second with five images. *)
Definition conversationOfTwo : list Conversation.tweet :=
  [Conversation.mk "First" "Ada" "ada" "https://pbs.twimg.com/profile_images/1/a.jpg" []
     "2024-01-28T20:00:00.000Z" true;
   Conversation.mk "Second" "Eve" "eve" "https://pbs.twimg.com/profile_images/2/e.jpg"
     (Embed.images tweetWithFiveImages) "2024-01-28T20:05:00.000Z" false].


(** ** The browser (source lines 26-43)

    One browser is kept in [browserInstance] for reuse.  Browsers are
    named by the order of their launch.  A call of [getBrowser] runs up
    to its [await]; it goes on, past the [await], once the launch is
    over, and other calls may start in between. *)
Record BrowserState : Type := mkBrowserState {
  browserInstance : option nat;
  launched : nat;              (* the browsers launched so far *)
  closed : list nat            (* the browsers closed, last first *)
}.

Inductive GetBrowser : Type :=
| Launching (browser : nat)    (* waiting for [chromium.launch] *)
| Returned (browser : nat).    (* the instance was there *)

(** The call, up to the [await]. *)
Definition getBrowserCall (s : BrowserState) : BrowserState * GetBrowser :=
  match browserInstance s with
  | Some browser => (s, Returned browser)
  | None => (mkBrowserState None (S (launched s)) (closed s), Launching (launched s))
  end.

(** The rest of the call: [browserInstance = <the browser launched>;
    return browserInstance]. *)
Definition getBrowserResume (call : GetBrowser) (s : BrowserState) : BrowserState * nat :=
  match call with
  | Returned browser => (s, browser)
  | Launching browser => (mkBrowserState (Some browser) (launched s) (closed s), browser)
  end.

(** A call that nothing interleaves with. *)
Definition getBrowser (s : BrowserState) : BrowserState * nat :=
  let '(s1, call) := getBrowserCall s in getBrowserResume call s1.

Definition closeBrowser (s : BrowserState) : BrowserState :=
  match browserInstance s with
  | Some browser => mkBrowserState None (launched s) (browser :: closed s)
  | None => s
  end.

(** [k] calls started one after the other before any launch is over,
    as the members of a wave start them, and their completion. *)
Fixpoint callAll (k : nat) (s : BrowserState) : BrowserState * list GetBrowser :=
  match k with
  | O => (s, [])
  | S k' =>
      let '(s1, call) := getBrowserCall s in
      let '(s2, calls) := callAll k' s1 in
      (s2, call :: calls)
  end.

Fixpoint resumeAll (calls : list GetBrowser) (s : BrowserState) : BrowserState * list nat :=
  match calls with
  | [] => (s, [])
  | call :: rest =>
      let '(s1, browser) := getBrowserResume call s in
      let '(s2, browsers) := resumeAll rest s1 in
      (s2, browser :: browsers)
  end.

(** ** Vocabulary of the stages of one item *)

(** The card of a platform, in the [switch] of [processUrl]. *)
Definition cardOf (platform : Platform) : Card :=
  match platform with
  | Twitter | Threads => TwitterCard
  | Macrumors => MacrumorsCard
  | Bluesky => BlueskyCard
  | Mastodon => MastodonCard
  | Youtube => YouTubeCard
  | Tiktok => TikTokCard
  | Article | Unknown => ArticleCard
  end.

(** What follows a stage that was awaited: [failure e] when it is
    rejected with [e], [pending] when it never settles, and [next] on
    what it resolves to, in the world it leaves. *)
Definition stageThen {A} (failure : Error -> Prop) (pending : Prop)
    (stage : Promise A * World) (next : A -> World -> Prop) : Prop :=
  match stage.1 with
  | Rejected e => failure e
  | Pending => pending
  | Resolved a => next a stage.2
  end.

(** A server that sends the headers of an image and then cuts the body,
    and a capture that downloads from it with the downloader of the
    program. *)
Definition cutBody : Env :=
  answering (mkResponse 200 None (Some "image/png") (BodyError anError)).

Definition postWithOriginal : Post.t :=
  Post.mk "twitter"
    (Some (Author.mk (Some "Ada") (Some "ada") None None None (Some false)))
    (Some "Hello") [] [Some "https://pbs.twimg.com/media/GE5xQ.png"] None None None None None
    false None "https://x.com/ada/status/1".

Definition cutStages : Stages :=
  mkStages
    (fun _ _ => ret postWithOriginal)
    (fun _ => ret aThread)
    (fun _ _ _ => ret "<html></html>")
    (fun _ _ => ret "<html></html>")
    (fun _ filename => let* _ := emit (FsWrite filename "PNG") in ret filename)
    (downloadImage cutBody 5)
    (fun _ _ _ _ => ret "{}")
    (fun path data => emit (FsWrite path data)).

(** A server that answers every request with a redirection to the same
    address, and a capture from the fediverse on its network, with the
    scraper of the program; [fuel] bounds the redirections followed. *)
Definition redirecting : Env :=
  mkEnv
    (fun _ _ _ =>
       Respond (mkResponse 302 (Some "https://social.example/api/v1/statuses/42") None
                  (BodyEnd "")))
    (fun _ _ => true)
    (fun _ => None)
    (fun _ => Some ("social.example", "/@eve/42"))
    (fun _ => None)
    (fun _ => throw anError) (ret tt) (fun _ => None) (fun _ => "").

Definition redirectingStages (fuel : nat) : Stages :=
  mkStages
    (fun p url => match p with
                  | Mastodon => scrapeMastodon redirecting fuel url
                  | _ => throw anError
                  end)
    (fun _ => throw anError)
    (fun _ _ _ => ret "<html></html>")
    (fun _ _ => ret "<html></html>")
    (fun _ filename => let* _ := emit (FsWrite filename "PNG") in ret filename)
    (downloadImage redirecting fuel)
    (fun _ _ _ _ => ret "{}")
    (fun path data => emit (FsWrite path data)).

(** ** The scheduler, as the specification words it

    The URLs are split into consecutive waves of [c] URLs, the last one
    of what is left; the waves are run one after the other, the members
    of a wave together, and the results of the waves are concatenated
    in the order of the waves. *)
Fixpoint chunksFrom {A} (fuel c : nat) (l : list A) : list (list A) :=
  match fuel, l with
  | S fuel', _ :: _ => take c l :: chunksFrom fuel' c (drop c l)
  | _, _ => []
  end.

Definition chunksOf {A} (c : nat) (l : list A) : list (list A) :=
  chunksFrom (List.length l) c l.

(** [i] is the position, in the input, of the first URL of the first
    wave. *)
Fixpoint runWaves (stages : Stages) (total : nat) (outputDir : string) (options : Options)
    (i : nat) (chunks : list (list string)) : Async (list CaptureResult) :=
  match chunks with
  | [] => ret []
  | chunk :: rest =>
      let* waveResults :=
        promiseAll (imap (fun k url => processUrl stages url (i + k) total outputDir options)
                      chunk) in
      let* more := runWaves stages total outputDir options (i + List.length chunk) rest in
      ret (waveResults ++ more)
  end.

(** The lines [Processing: ...] of a trace: the items that were started. *)
Definition started (t : list Effect) : list string :=
  t ≫= fun e =>
         match e with
         | ConsoleLog line => if Js.includes line "Processing: " then [line] else []
         | _ => []
         end.

(** Stages that never settle for the posts that hang. *)
Definition hangStages : Stages :=
  mkStages
    (fun _ url => if Js.includes url "hang" then never else ret aPost)
    (fun _ => ret aThread)
    (fun _ _ _ => ret "<html></html>")
    (fun _ _ => ret "<html></html>")
    (fun _ filename => let* _ := emit (FsWrite filename "PNG") in ret filename)
    (fun _ _ => ret None)
    (fun _ _ _ _ => ret "{}")
    (fun path data => emit (FsWrite path data)).

Definition hangUrls : list string :=
  ["https://x.com/ada/status/1"; "https://x.com/hang/status/2";
   "https://x.com/eve/status/3"; "https://x.com/bob/status/4"].

(** ** The posts of a thread card, as the specification words them *)



(** A block shows a post when it holds the avatar of the author (or the
    placeholder), the escaped name and handle in the elements of the
    header, the escaped text in the element of the text, and every
    inline image of the post in an image element. *)
Definition showsPost (block : string) (tweet : Post.t) (author : Author.t) : bool :=
  (if Js.truthy (Author.avatar author)
   then Js.includes block
          (Js.tpl "<img class=`avatar` src=`" +:+ Js.orElse (Author.avatar author) ""
           +:+ Js.tpl "` alt=`Avatar`>")
   else Js.includes block (Js.tpl "<div class=`avatar placeholder`></div>"))
  && Js.includes block
       (Js.tpl "<span class=`name`>" +:+ escapeHtml (Author.name author) +:+ "</span>")
  && Js.includes block
       (Js.tpl "<span class=`handle`>@" +:+ escapeHtml (Author.handle author) +:+ "</span>")
  && Js.includes block
       (Js.tpl "<div class=`tweet-text`>" +:+ escapeHtml (Post.content tweet) +:+ "</div>")
  && forallb (fun img =>
                Js.includes block
                  (Js.tpl "<img src=`" +:+ img +:+ Js.tpl "` alt=`Tweet image`>"))
       (Post.images tweet).




(* ===================================================================== *)
(** * Theorems                                                             *)
(* ===================================================================== *)

Example detect_twitter :
  detectPlatform "https://x.com/aaronp613/status/2011100291228487867" = Twitter.
Proof. reflexivity. Qed.

Example detect_mastodon :
  detectPlatform "https://mastodon.social/@Gargron/109345678" = Mastodon.
Proof. vm_compute. reflexivity. Qed.

Example detect_unknown :
  detectPlatform "https://example.org/post/12" = Unknown.
Proof. vm_compute. reflexivity. Qed.

Example filename_example :
  generateFilename "https://x.com/zollotech/status/2016594947751756021" "twitter" 1706472000000
  = "twitter-2016594947751756021-1706472000000.png".
Proof. vm_compute. reflexivity. Qed.

Example escape_example :
  escapeHtml (Some "<a href='x'>T&C</a>") = "&lt;a href=&#039;x&#039;&gt;T&amp;C&lt;/a&gt;".
Proof. vm_compute. reflexivity. Qed.

Example base64_example : base64 "Many hands make light work." = "TWFueSBoYW5kcyBtYWtlIGxpZ2h0IHdvcmsu".
Proof. vm_compute. reflexivity. Qed.

Example base64_pad1 : base64 "light w" = "bGlnaHQgdw==".
Proof. vm_compute. reflexivity. Qed.

Example base64_pad2 : base64 "light wo" = "bGlnaHQgd28=".
Proof. vm_compute. reflexivity. Qed.

(** ** The promise monad *)

Lemma bind_resolved {A B} (m : Async A) (k : A -> Async B) w a w1 :
  m w = (Resolved a, w1) -> bind m k w = k a w1.
Proof. unfold bind. now intros ->. Qed.

Lemma bind_rejected {A B} (m : Async A) (k : A -> Async B) w e w1 :
  m w = (Rejected e, w1) -> bind m k w = (Rejected e, w1).
Proof. unfold bind. now intros ->. Qed.

Lemma bind_resolved_inv {A B} (m : Async A) (k : A -> Async B) w b w' :
  bind m k w = (Resolved b, w') ->
  exists a w1, m w = (Resolved a, w1) /\ k a w1 = (Resolved b, w').
Proof.
  unfold bind. destruct (m w) as [[a|e|] w1]; intros H; try discriminate.
  exists a, w1. split; [reflexivity | exact H].
Qed.

Lemma settles_ret {A} (a : A) : settles (ret a).
Proof. intros w. discriminate. Qed.

Lemma settles_throw {A} (e : Error) : settles (@throw A e).
Proof. intros w. discriminate. Qed.

Lemma settles_emit (e : Effect) : settles (emit e).
Proof. intros w. discriminate. Qed.

Lemma settles_dateNow : settles dateNow.
Proof. intros w. discriminate. Qed.

Lemma settles_bind {A B} (m : Async A) (k : A -> Async B) :
  settles m -> (forall a, settles (k a)) -> settles (bind m k).
Proof.
  intros Hm Hk w. unfold bind. specialize (Hm w).
  destruct (m w) as [[a|e|] w1]; simpl in *; [apply Hk | discriminate | congruence].
Qed.

Lemma settles_tryCatch {A} (m : Async A) (h : Error -> Async A) :
  settles m -> (forall e, settles (h e)) -> settles (tryCatch m h).
Proof.
  intros Hm Hh w. unfold tryCatch. specialize (Hm w).
  destruct (m w) as [[a|e|] w1]; simpl in *; [discriminate | apply Hh | congruence].
Qed.

Create HintDb settle.
#[local] Hint Resolve settles_ret settles_throw settles_emit settles_dateNow : settle.

(** ** Image materialiser *)

(** C10.  Called with an absent or an empty URL, [imageToBase64] and
    [downloadImage] resolve to [null] at once: the world is left as it
    was, so no request is issued and nothing is written. *)
Theorem materializer_absent_url env fuel (url : option string) filepath w :
  Js.truthy url = false ->
  imageToBase64 env fuel url w = (Resolved None, w)
  /\ downloadImage env fuel url filepath w = (Resolved None, w).
Proof.
  intros Hurl. destruct fuel; simpl; rewrite Hurl; simpl; split; reflexivity.
Qed.

Lemma materializer_absent_url_witness :
  Js.truthy (Some "") = false
  /\ imageToBase64 (answering notFound) 5 (Some "") world0 = (Resolved None, world0)
  /\ downloadImage (answering notFound) 5 (Some "") "/out/a-image-1.jpg" world0
     = (Resolved None, world0).
Proof.
  split; [reflexivity |].
  apply (materializer_absent_url (answering notFound) 5 (Some "") "/out/a-image-1.jpg" world0).
  reflexivity.
Defined.

(** C5 (the code departs from the claim).  A server that answers 404
    with an error page: [downloadImage] resolves to [null], but
    [imageToBase64] never looks at the status and resolves to a data URI
    made of the error page. *)
Theorem imageToBase64_ignores_status :
  imageToBase64 (answering notFound) 5 (Some "https://example.com/missing.png") world0
  = (Resolved (Some "data:text/html;base64,Tm90IEZvdW5k"),
     mkWorld 1706472000000 [NetGet true "https://example.com/missing.png"])
  /\ downloadImage (answering notFound) 5 (Some "https://example.com/missing.png")
       "/out/a-image-1.png" world0
     = (Resolved None, mkWorld 1706472000000 [NetGet true "https://example.com/missing.png"]).
Proof. split; vm_compute; reflexivity. Qed.

(** ** The pipeline of one URL *)

Ltac bind_inv H :=
  let a := fresh "a" in
  let w := fresh "w" in
  let Ha := fresh "Hstep" in
  apply bind_resolved_inv in H as (a & w & Ha & H).

Section PipelineFacts.
Variable stages : Stages.

Lemma capture_result url platform prefix outputDir options w r w' :
  capture stages url platform prefix outputDir options w = (Resolved r, w') ->
  exists card images meta author, r = Success url card images meta author.
Proof.
  unfold capture. intros H. repeat bind_inv H.
  unfold ret in H. injection H as <- _. eauto.
Qed.

(** The [try] block resolves only when every stage did: the extraction
    and the rendering, the rasterisation, the downloads, and the writing
    of the metadata. *)
Lemma capture_resolved_stages url platform prefix outputDir options w r w' :
  capture stages url platform prefix outputDir options w = (Resolved r, w') ->
  exists scraped w1 base shot w2 images w3 payload w4 w5,
    scrapeByPlatform stages platform url options w = (Resolved scraped, w1)
    /\ generateScreenshot stages (html scraped) (pathJoin outputDir (base +:+ "-card.png")) w1
       = (Resolved shot, w2)
    /\ downloadOriginals stages outputDir base 0 (dataOriginalImageUrls scraped) w2
       = (Resolved images, w3)
    /\ metadataJson stages (metadataSource scraped) url
         (pathJoin outputDir (base +:+ "-card.png")) images w3
       = (Resolved payload, w4)
    /\ writeFileSync stages (pathJoin outputDir (base +:+ "-metadata.json")) payload w4
       = (Resolved tt, w5).
Proof.
  unfold capture. intros H.
  bind_inv H. bind_inv H. injection Hstep0 as <- <-.
  do 4 bind_inv H. destruct a3.
  eexists _, _, _, _, _, _, _, _, _, _. repeat split; eassumption.
Qed.

Lemma processUrl_unknown url index total outputDir options w :
  detectPlatform url = Unknown ->
  processUrl stages url index total outputDir options w
  = (Resolved (Failure url "Unknown platform"),
     mkWorld (clock w)
       (trace w ++ [ConsoleLog (logPrefix index total +:+ "Processing: " +:+ url);
                    ConsoleLog (logPrefix index total +:+ "  ⚠️  Unknown platform, skipping")])).
Proof.
  intros Hp. unfold processUrl. rewrite Hp.
  unfold bind, consoleLog, emit, ret. simpl. now rewrite <- app_assoc.
Qed.

Lemma processUrl_known url index total outputDir options w :
  detectPlatform url <> Unknown ->
  processUrl stages url index total outputDir options w
  = tryCatch (capture stages url (detectPlatform url) (logPrefix index total) outputDir options)
      (fun error =>
         let* _ := consoleLog (logPrefix index total +:+ "  ❌ Error: " +:+ message error) in
         ret (Failure url (message error)))
      (entering url index total w).
Proof.
  intros Hp. unfold processUrl, bind at 1, consoleLog at 1, emit at 1. simpl.
  fold (entering url index total w).
  destruct (detectPlatform url); try reflexivity. now destruct Hp.
Qed.

Lemma processUrl_not_rejected url index total outputDir options w e :
  (processUrl stages url index total outputDir options w).1 <> Rejected e.
Proof.
  destruct (decide (detectPlatform url = Unknown)) as [Hp|Hp].
  - rewrite processUrl_unknown by exact Hp. discriminate.
  - rewrite processUrl_known by exact Hp. unfold tryCatch.
    destruct (capture _ _ _ _ _ _ _) as [[r|e'|] w1]; simpl; discriminate.
Qed.

Lemma processUrl_resultUrl url index total outputDir options w r w' :
  processUrl stages url index total outputDir options w = (Resolved r, w') ->
  resultUrl r = url.
Proof.
  destruct (decide (detectPlatform url = Unknown)) as [Hp|Hp].
  - rewrite processUrl_unknown by exact Hp. now intros [= <- _].
  - rewrite processUrl_known by exact Hp. unfold tryCatch.
    destruct (capture _ _ _ _ _ _ _) as [[r0|e'|] w1] eqn:Hc; simpl.
    + intros [= <- _]. apply capture_result in Hc as (? & ? & ? & ? & ->). reflexivity.
    + unfold bind, consoleLog, emit, ret. simpl. now intros [= <- _].
    + discriminate.
Qed.

Hypothesis Hsettle : StagesSettle stages.

Lemma settles_logImages prefix images : settles (logImages prefix images).
Proof.
  induction images as [|img rest IH]; simpl.
  - apply settles_ret.
  - apply settles_bind; [apply settles_emit | intros _; exact IH].
Qed.

Lemma settles_downloadOriginals outputDir baseFilename i urls :
  settles (downloadOriginals stages outputDir baseFilename i urls).
Proof.
  revert i. induction urls as [|[u|] rest IH]; intros i; simpl.
  - apply settles_ret.
  - apply settles_bind; [apply (downloadImage_settles _ Hsettle) |].
    intros result. apply settles_bind; [apply IH | intros more; apply settles_ret].
  - apply settles_throw.
Qed.

Lemma settles_scrapeAndRender platform card url options :
  settles (scrapeAndRender stages platform card url options).
Proof.
  unfold scrapeAndRender.
  apply settles_bind; [apply (scrape_settles _ Hsettle) | intros data].
  apply settles_bind; [apply (render_settles _ Hsettle) | intros h; apply settles_ret].
Qed.

Lemma settles_scrapeByPlatform platform url options :
  settles (scrapeByPlatform stages platform url options).
Proof.
  destruct platform; simpl; try apply settles_scrapeAndRender; try apply settles_throw.
  destruct (thread options); [| apply settles_scrapeAndRender].
  apply settles_bind; [apply (scrapeTwitterThread_settles _ Hsettle) | intros td].
  apply settles_bind; [apply (renderThread_settles _ Hsettle) | intros h; apply settles_ret].
Qed.

Lemma settles_capture url platform prefix outputDir options :
  settles (capture stages url platform prefix outputDir options).
Proof.
  unfold capture.
  apply settles_bind; [apply settles_scrapeByPlatform | intros scraped].
  apply settles_bind; [apply settles_dateNow | intros timestamp].
  apply settles_bind; [apply (generateScreenshot_settles _ Hsettle) | intros _].
  apply settles_bind; [apply settles_downloadOriginals | intros images].
  apply settles_bind; [apply (metadataJson_settles _ Hsettle) | intros payload].
  apply settles_bind; [apply (writeFileSync_settles _ Hsettle) | intros _].
  repeat (apply settles_bind; [first [apply settles_emit | apply settles_logImages] | intros _]).
  apply settles_ret.
Qed.

Lemma settles_processUrl url index total outputDir options :
  settles (processUrl stages url index total outputDir options).
Proof.
  unfold processUrl.
  apply settles_bind; [apply settles_emit | intros _].
  destruct (detectPlatform url);
    try (apply settles_tryCatch;
         [apply settles_capture
         | intros e; apply settles_bind; [apply settles_emit | intros _; apply settles_ret]]).
  apply settles_bind; [apply settles_emit | intros _; apply settles_ret].
Qed.

Lemma processUrl_resolves url index total outputDir options w :
  exists r w', processUrl stages url index total outputDir options w = (Resolved r, w').
Proof.
  pose proof (settles_processUrl url index total outputDir options w) as Hs.
  pose proof (processUrl_not_rejected url index total outputDir options w) as Hr.
  destruct (processUrl _ _ _ _ _ _ _) as [[r|e|] w']; simpl in *.
  - eauto.
  - now destruct (Hr e).
  - now destruct Hs.
Qed.

End PipelineFacts.

(** ** The batch scheduler *)

Lemma startAll_app {A} (ps qs : list (Async A)) w :
  startAll (ps ++ qs) w
  = ((startAll ps w).1 ++ (startAll qs (startAll ps w).2).1,
     (startAll qs (startAll ps w).2).2).
Proof.
  revert w. induction ps as [|p ps IH]; intros w; simpl.
  - now destruct (startAll qs w).
  - destruct (p w) as [r w1]. rewrite IH.
    destruct (startAll ps w1) as [rs w2]. simpl.
    now destruct (startAll qs w2).
Qed.

Lemma startAll_length {A} (ps : list (Async A)) w :
  List.length (startAll ps w).1 = List.length ps.
Proof.
  revert w. induction ps as [|p ps IH]; intros w; simpl; [reflexivity |].
  destruct (p w) as [r w1]. specialize (IH w1).
  destruct (startAll ps w1) as [rs w2]. simpl in *. now rewrite IH.
Qed.

Lemma allSettled_cons_resolved {A} (r : Promise A) rs vs :
  allSettled (r :: rs) = Resolved vs ->
  exists v vs', r = Resolved v /\ allSettled rs = Resolved vs' /\ vs = v :: vs'.
Proof.
  simpl. destruct r as [v|e|], (allSettled rs) as [vs'|e'|]; intros H; try discriminate.
  injection H as <-. eauto.
Qed.

Lemma allSettled_app_resolved {A} (ra rb : list (Promise A)) vs :
  allSettled (ra ++ rb) = Resolved vs ->
  exists va vb, allSettled ra = Resolved va /\ allSettled rb = Resolved vb /\ vs = va ++ vb.
Proof.
  revert vs. induction ra as [|r ra IH]; intros vs H.
  - exists [], vs. auto.
  - rewrite <- app_comm_cons in H.
    apply allSettled_cons_resolved in H as (v & vs' & -> & H & ->).
    apply IH in H as (va & vb & Ha & Hb & ->).
    exists (v :: va), vb. simpl. rewrite Ha. auto.
Qed.

Lemma allSettled_length {A} (rs : list (Promise A)) vs :
  allSettled rs = Resolved vs -> List.length vs = List.length rs.
Proof.
  revert vs. induction rs as [|r rs IH]; intros vs H.
  - now injection H as <-.
  - apply allSettled_cons_resolved in H as (v & vs' & -> & H & ->).
    simpl. now rewrite (IH _ H).
Qed.

(** When every member resolves wherever it is started, so does the whole. *)
Lemma allSettled_resolves {A} (ps : list (Async A)) w :
  (forall p w0, p ∈ ps -> exists a w1, p w0 = (Resolved a, w1)) ->
  exists vs, allSettled (startAll ps w).1 = Resolved vs.
Proof.
  revert w. induction ps as [|p ps IH]; intros w Hall; simpl.
  - eauto.
  - destruct (Hall p w) as (a & w1 & Hp); [left |]. rewrite Hp.
    destruct (IH w1) as (vs & Hvs); [intros q w0 Hq; apply Hall; now right |].
    destruct (startAll ps w1) as [rs w2]. simpl in *. rewrite Hvs. eauto.
Qed.

(** The value at a position is the value its member resolved to, in the
    world in which it was started. *)
Lemma startAll_lookup {A} (ps : list (Async A)) w vs i p :
  allSettled (startAll ps w).1 = Resolved vs ->
  ps !! i = Some p ->
  exists v wi wi', p wi = (Resolved v, wi') /\ vs !! i = Some v.
Proof.
  revert w vs i. induction ps as [|q ps IH]; intros w vs i Hvs Hi; [discriminate |].
  simpl in Hvs. destruct (q w) as [r w1] eqn:Hq.
  destruct (startAll ps w1) as [rs w2] eqn:Hrest. simpl in Hvs.
  apply allSettled_cons_resolved in Hvs as (v & vs' & -> & Hvs & ->).
  destruct i as [|i]; simpl in *.
  - injection Hi as <-. eauto.
  - eapply (IH w1); [rewrite Hrest; exact Hvs | exact Hi].
Qed.

Section SchedulerFacts.
Variable stages : Stages.
Variables (urls : list string) (outputDir : string) (options : Options).
Variable concurrency : nat.
Hypothesis Hconcurrency : 1 <= concurrency.

Lemma itemsFrom_split i :
  itemsFrom stages urls outputDir options i
  = imap (fun batchIndex url =>
            processUrl stages url (i + batchIndex) (List.length urls) outputDir options)
      (take concurrency (drop i urls))
    ++ itemsFrom stages urls outputDir options (i + concurrency).
Proof.
  unfold itemsFrom at 1.
  rewrite <- (take_drop concurrency (drop i urls)) at 1.
  rewrite imap_app, drop_drop. f_equal.
  unfold itemsFrom.
  destruct (decide (concurrency <= List.length (drop i urls))) as [Hle|Hgt].
  - apply imap_ext. intros k url _. simpl.
    rewrite length_take, Nat.min_l by exact Hle. f_equal. lia.
  - rewrite length_drop in Hgt.
    rewrite (drop_ge urls (i + concurrency)) by lia. reflexivity.
Qed.

Lemma waves_resolved fuel : forall i results w vs,
  List.length urls - i <= fuel ->
  allSettled (startAll (itemsFrom stages urls outputDir options i) w).1 = Resolved vs ->
  waves stages fuel urls outputDir concurrency options i results w
  = (Resolved (results ++ vs),
     (startAll (itemsFrom stages urls outputDir options i) w).2).
Proof.
  induction fuel as [|fuel IH]; intros i results w vs Hfuel Hvs.
  - assert (Hi : (i <? List.length urls)%nat = false) by (apply Nat.ltb_ge; lia).
    simpl. rewrite Hi.
    unfold itemsFrom in *. rewrite drop_ge in * by lia. simpl in *.
    injection Hvs as <-. now rewrite app_nil_r.
  - destruct (i <? List.length urls)%nat eqn:Hi.
    + simpl. rewrite Hi.
      rewrite itemsFrom_split, startAll_app in Hvs |- *. simpl in Hvs |- *.
      apply allSettled_app_resolved in Hvs as (va & vb & Ha & Hb & ->).
      unfold bind, promiseAll.
      destruct (startAll (imap _ (take concurrency (drop i urls))) w) as [ra w1] eqn:Hwave.
      simpl in *. rewrite Ha.
      rewrite (IH (i + concurrency) (results ++ va) w1 vb); [| lia | exact Hb].
      now rewrite app_assoc.
    + simpl. rewrite Hi.
      apply Nat.ltb_ge in Hi.
      unfold itemsFrom in *. rewrite drop_ge in * by lia. simpl in *.
      injection Hvs as <-. now rewrite app_nil_r.
Qed.

Lemma processInParallel_resolved fuel w vs :
  List.length urls <= fuel ->
  allSettled (startAll (itemsFrom stages urls outputDir options 0) w).1 = Resolved vs ->
  processInParallel stages fuel urls outputDir concurrency options w
  = (Resolved vs, (startAll (itemsFrom stages urls outputDir options 0) w).2).
Proof.
  intros Hfuel Hvs. unfold processInParallel.
  rewrite (waves_resolved fuel 0 [] w vs); [reflexivity | lia | exact Hvs].
Qed.

End SchedulerFacts.

(** With a concurrency of zero the loop never advances: the promise of
    a batch that is not empty stays pending. *)
Lemma processInParallel_zero stages urls outputDir options fuel w :
  urls <> [] ->
  (processInParallel stages fuel urls outputDir 0 options w).1 = Pending.
Proof.
  intros Hne. unfold processInParallel. generalize (@nil CaptureResult) as results.
  induction fuel as [|fuel IH]; intros results; simpl;
    (destruct urls as [|u rest]; [now destruct Hne |]); simpl.
  - reflexivity.
  - unfold bind, promiseAll. simpl. rewrite app_nil_r. apply IH.
Qed.

Section BatchFacts.
Variable stages : Stages.
Hypothesis Hsettle : StagesSettle stages.
Variables (urls : list string) (outputDir : string) (options : Options).

Lemma itemsFrom_lookup i url :
  urls !! i = Some url ->
  itemsFrom stages urls outputDir options 0 !! i
  = Some (processUrl stages url i (List.length urls) outputDir options).
Proof.
  intros Hi. unfold itemsFrom. rewrite drop_0, list_lookup_imap, Hi. reflexivity.
Qed.

Lemma items_resolve w :
  exists vs, allSettled (startAll (itemsFrom stages urls outputDir options 0) w).1 = Resolved vs.
Proof.
  apply allSettled_resolves. intros p w0 Hp.
  unfold itemsFrom in Hp. apply list_elem_of_lookup in Hp as (k & Hk).
  rewrite list_lookup_imap in Hk.
  destruct (drop 0 urls !! k) as [url|]; [| discriminate].
  injection Hk as <-. apply processUrl_resolves, Hsettle.
Qed.

(** What the scheduler returns: the results of the per-URL runs, started
    in the order of the input. *)
Lemma scheduler_spec concurrency fuel w :
  1 <= concurrency -> List.length urls <= fuel ->
  exists rs w',
    processInParallel stages fuel urls outputDir concurrency options w = (Resolved rs, w')
    /\ allSettled (startAll (itemsFrom stages urls outputDir options 0) w).1 = Resolved rs
    /\ List.length rs = List.length urls
    /\ (forall i url, urls !! i = Some url ->
          exists r wi wi',
            rs !! i = Some r
            /\ processUrl stages url i (List.length urls) outputDir options wi = (Resolved r, wi')
            /\ resultUrl r = url).
Proof.
  intros Hc Hfuel. destruct (items_resolve w) as (vs & Hvs).
  exists vs, (startAll (itemsFrom stages urls outputDir options 0) w).2.
  split; [now apply processInParallel_resolved |]. split; [exact Hvs |]. split.
  - rewrite (allSettled_length _ _ Hvs), startAll_length.
    unfold itemsFrom. now rewrite length_imap, drop_0.
  - intros i url Hi.
    destruct (startAll_lookup _ w vs i _ Hvs (itemsFrom_lookup i url Hi))
      as (v & wi & wi' & Hrun & Hv).
    exists v, wi, wi'. split; [exact Hv |]. split; [exact Hrun |].
    eapply processUrl_resultUrl, Hrun.
Qed.

End BatchFacts.

Lemma logImages_resolves prefix images w :
  exists w', logImages prefix images w = (Resolved tt, w').
Proof.
  revert w. induction images as [|img rest IH]; intros w; simpl; [eauto |].
  unfold bind, consoleLog, emit. simpl. apply IH.
Qed.

(** What the [try] block of [processUrl] comes to once the page is
    there: the stages that write the files, one after the other. *)
Lemma capture_files stages url platform prefix outputDir options w0 scraped w1
    (failure : Error -> Prop) (pending : Prop) (success : CaptureResult -> Prop) :
  scrapeByPlatform stages platform url options w0 = (Resolved scraped, w1) ->
  let run := (capture stages url platform prefix outputDir options w0).1 in
  let base :=
    Js.replaceFirst ".png" "" (generateFilename url (platformTag platform) (clock w1)) in
  let card := pathJoin outputDir (base +:+ "-card.png") in
  let meta := pathJoin outputDir (base +:+ "-metadata.json") in
  (forall e, run = Rejected e -> failure e) ->
  (run = Pending -> pending) ->
  (forall r, run = Resolved r -> success r) ->
  stageThen failure pending (generateScreenshot stages (html scraped) card w1) (fun _ w2 =>
  stageThen failure pending
    (downloadOriginals stages outputDir base 0 (dataOriginalImageUrls scraped) w2)
    (fun images w3 =>
  stageThen failure pending
    (metadataJson stages (metadataSource scraped) url card images w3) (fun payload w4 =>
  stageThen failure pending (writeFileSync stages meta payload w4) (fun _ _ =>
    success (Success url (pathBasename card) images (pathBasename meta)
               (Js.orElse (dataAuthor scraped ≫= Author.name)
                  (Js.orElse (dataSiteName scraped) "Unknown"))))))).
Proof.
  intros Hscraped run base card meta Hfailure Hpending Hsuccess.
  subst base card meta. unfold stageThen.
  remember run as c eqn:Hc. subst run.
  unfold capture in Hc. unfold bind at 1 in Hc. rewrite Hscraped in Hc.
  unfold bind at 1 in Hc. cbn [dateNow] in Hc. cbv zeta in Hc.
  unfold bind at 1 in Hc.
  destruct (generateScreenshot stages (html scraped) _ w1) as [[shot|e|] w2];
    cbn [fst snd] in *; [| now apply Hfailure | now apply Hpending].
  unfold bind at 1 in Hc.
  destruct (downloadOriginals stages outputDir _ 0 (dataOriginalImageUrls scraped) w2)
    as [[images|e|] w3]; cbn [fst snd] in *; [| now apply Hfailure | now apply Hpending].
  unfold bind at 1 in Hc.
  destruct (metadataJson stages (metadataSource scraped) url _ images w3)
    as [[payload|e|] w4]; cbn [fst snd] in *; [| now apply Hfailure | now apply Hpending].
  unfold bind at 1 in Hc.
  destruct (writeFileSync stages _ payload w4) as [[[]|e|] w5];
    cbn [fst snd] in *; [| now apply Hfailure | now apply Hpending].
  apply Hsuccess. rewrite Hc.
  unfold bind at 1, consoleLog at 1, emit at 1.
  unfold bind at 1, consoleLog at 1, emit at 1. unfold bind at 1.
  match goal with
  | |- context [logImages prefix images ?w6] =>
      destruct (logImages_resolves prefix images w6) as (w7 & Hlog); rewrite Hlog
  end.
  reflexivity.
Qed.

(** C2.  [processUrl] is never rejected, and a result it resolves to is
    one for its URL.  It settles as its stages do: stage after stage
    (the extraction, the rendering, the rasterisation, the downloads,
    the metadata and its writing), a stage that is rejected makes the
    result a failure that carries the message of the error, and a stage
    that never settles leaves [processUrl] pending; the result is a
    success once every stage has resolved.  So it resolves whenever
    every stage settles. *)
Theorem processUrl_settles_as_its_stages stages url index total outputDir options w :
  let run := (processUrl stages url index total outputDir options w).1 in
  let platform := detectPlatform url in
  let w0 := entering url index total w in
  let failure := fun e : Error => run = Resolved (Failure url (message e)) in
  let pending := run = Pending in
  let files := fun (scraped : Scraped) (w1 : World) =>
    let base :=
      Js.replaceFirst ".png" "" (generateFilename url (platformTag platform) (clock w1)) in
    let card := pathJoin outputDir (base +:+ "-card.png") in
    let meta := pathJoin outputDir (base +:+ "-metadata.json") in
    stageThen failure pending (generateScreenshot stages (html scraped) card w1) (fun _ w2 =>
    stageThen failure pending
      (downloadOriginals stages outputDir base 0 (dataOriginalImageUrls scraped) w2)
      (fun images w3 =>
    stageThen failure pending
      (metadataJson stages (metadataSource scraped) url card images w3) (fun payload w4 =>
    stageThen failure pending (writeFileSync stages meta payload w4) (fun _ _ =>
      run = Resolved
              (Success url (pathBasename card) images (pathBasename meta)
                 (Js.orElse (dataAuthor scraped ≫= Author.name)
                    (Js.orElse (dataSiteName scraped) "Unknown"))))))) in
  (forall e, run <> Rejected e)
  /\ (forall r, run = Resolved r -> resultUrl r = url)
  /\ (StagesSettle stages -> exists r, run = Resolved r)
  /\ (platform = Unknown -> run = Resolved (Failure url "Unknown platform"))
  /\ (platform <> Unknown ->
      if match platform with Twitter => thread options | _ => false end then
        stageThen failure pending (scrapeTwitterThreadStage stages url w0) (fun threadData w1 =>
        stageThen failure pending (renderThread stages (bento options) threadData w1)
          (fun page w2 =>
             files
               (mkScraped
                  (Some (default (Author.mk (Some "Unknown") None None None None None)
                           (head (Thread.tweets threadData) ≫= Post.author)))
                  None (Thread.tweets threadData ≫= Post.originalImageUrls) page
                  (inl threadData))
               w2))
      else
        stageThen failure pending (scrape stages platform url w0) (fun data w1 =>
        stageThen failure pending (render stages (cardOf platform) (bento options) data w1)
          (fun page w2 => files (ofPost data page) w2))).
Proof.
  intros run platform w0 failure pending files.
  split; [intros e; apply processUrl_not_rejected |]. split.
  { intros r Hr. subst run.
    destruct (processUrl stages url index total outputDir options w) as [p w'] eqn:Hrun.
    simpl in Hr. subst p. eapply processUrl_resultUrl, Hrun. }
  split.
  { intros Hsettle.
    destruct (processUrl_resolves stages Hsettle url index total outputDir options w)
      as (r & w' & Hrun).
    exists r. subst run. now rewrite Hrun. }
  split.
  { intros Hp. subst run. now rewrite processUrl_unknown by exact Hp. }
  intros Hp.
  assert (Hrun : run = (tryCatch
                          (capture stages url platform (logPrefix index total) outputDir options)
                          (fun error =>
                             let* _ := consoleLog (logPrefix index total +:+ "  ❌ Error: "
                                                   +:+ message error) in
                             ret (Failure url (message error))) w0).1).
  { subst run. now rewrite processUrl_known by exact Hp. }
  assert (Hfailure : forall e,
            (capture stages url platform (logPrefix index total) outputDir options w0).1
            = Rejected e -> failure e).
  { intros e He. unfold failure. rewrite Hrun. unfold tryCatch.
    destruct (capture _ _ _ _ _ _ w0) as [p w1]. simpl in He. now subst p. }
  assert (Hpending :
            (capture stages url platform (logPrefix index total) outputDir options w0).1
            = Pending -> pending).
  { intros He. unfold pending. rewrite Hrun. unfold tryCatch.
    destruct (capture _ _ _ _ _ _ w0) as [p w1]. simpl in He. now subst p. }
  assert (Hsuccess : forall r,
            (capture stages url platform (logPrefix index total) outputDir options w0).1
            = Resolved r -> run = Resolved r).
  { intros r He. rewrite Hrun. unfold tryCatch.
    destruct (capture _ _ _ _ _ _ w0) as [p w1]. simpl in He. now subst p. }
  assert (Hfiles : forall scraped w1,
            scrapeByPlatform stages platform url options w0 = (Resolved scraped, w1) ->
            files scraped w1).
  { intros scraped w1 Hscraped.
    exact (capture_files stages url platform (logPrefix index total) outputDir options w0
             scraped w1 failure pending (fun r => run = Resolved r) Hscraped
             Hfailure Hpending Hsuccess). }
  assert (Hearly : forall p w1,
            scrapeByPlatform stages platform url options w0 = (p, w1) ->
            (forall e, p = Rejected e -> failure e) /\ (p = Pending -> pending)).
  { intros p w1 Hscraped. split.
    - intros e ->. apply Hfailure. unfold capture, bind at 1. now rewrite Hscraped.
    - intros ->. apply Hpending. unfold capture, bind at 1. now rewrite Hscraped. }
  clear Hrun Hfailure Hpending Hsuccess.
  assert (Hpost : forall card,
            scrapeByPlatform stages platform url options w0
            = scrapeAndRender stages platform card url options w0 ->
            stageThen failure pending (scrape stages platform url w0) (fun data w1 =>
            stageThen failure pending (render stages card (bento options) data w1)
              (fun page w2 => files (ofPost data page) w2))).
  { intros card Heq. unfold scrapeAndRender in Heq. unfold stageThen.
    unfold bind at 1 in Heq.
    destruct (scrape stages platform url w0) as [[data|e|] w1]; cbn [fst snd].
    - unfold bind at 1 in Heq.
      destruct (render stages card (bento options) data w1) as [[page|e|] w2]; cbn [fst snd].
      + now apply Hfiles.
      + now apply (Hearly _ _ Heq).
      + now apply (Hearly _ _ Heq).
    - now apply (Hearly _ _ Heq).
    - now apply (Hearly _ _ Heq). }
  destruct platform eqn:Hplatform; try (apply Hpost; reflexivity); [| now destruct Hp].
  destruct (thread options) eqn:Hthread; [| apply Hpost; cbn; now rewrite Hthread].
  assert (Heq : scrapeByPlatform stages Twitter url options w0
                = (let* threadData := scrapeTwitterThreadStage stages url in
                   let* page := renderThread stages (bento options) threadData in
                   ret (mkScraped
                          (Some (default (Author.mk (Some "Unknown") None None None None None)
                                   (head (Thread.tweets threadData) ≫= Post.author)))
                          None (Thread.tweets threadData ≫= Post.originalImageUrls) page
                          (inl threadData))) w0)
    by (cbn; now rewrite Hthread).
  unfold stageThen. unfold bind at 1 in Heq.
  destruct (scrapeTwitterThreadStage stages url w0) as [[threadData|e|] w1]; cbn [fst snd].
  - unfold bind at 1 in Heq.
    destruct (renderThread stages (bento options) threadData w1) as [[page|e|] w2];
      cbn [fst snd].
    + now apply Hfiles.
    + now apply (Hearly _ _ Heq).
    + now apply (Hearly _ _ Heq).
  - now apply (Hearly _ _ Heq).
  - now apply (Hearly _ _ Heq).
Qed.

(** *** Waves *)

Lemma chunksFrom_lookup {A} (c : nat) : forall fuel (l : list A) k,
  1 <= c -> List.length l <= fuel ->
  chunksFrom fuel c l !! k
  = if decide (k * c < List.length l) then Some (take c (drop (k * c) l)) else None.
Proof.
  induction fuel as [|fuel IH]; intros l k Hc Hfuel.
  - destruct l; [| simpl in Hfuel; lia]. cbn [chunksFrom]. rewrite lookup_nil.
    destruct (decide _) as [H|H]; [simpl in H; lia | reflexivity].
  - destruct l as [|x l].
    { cbn [chunksFrom]. rewrite lookup_nil.
      destruct (decide _) as [H|H]; [simpl in H; lia | reflexivity]. }
    cbn [chunksFrom]. destruct k as [|k].
    + rewrite Nat.mul_0_l, drop_0.
      destruct (decide _) as [H|H]; [reflexivity | simpl in H; lia].
    + cbn [lookup list_lookup]. rewrite IH; [| exact Hc | rewrite length_drop; simpl in *; lia].
      rewrite length_drop, drop_drop.
      replace (c + k * c) with (S k * c) by lia.
      destruct (decide (k * c < List.length (x :: l) - c)),
               (decide (S k * c < List.length (x :: l))); try reflexivity; lia.
Qed.

Lemma chunksFrom_concat {A} (c : nat) : forall fuel (l : list A),
  1 <= c -> List.length l <= fuel -> List.concat (chunksFrom fuel c l) = l.
Proof.
  induction fuel as [|fuel IH]; intros l Hc Hfuel.
  - destruct l; [reflexivity | simpl in Hfuel; lia].
  - destruct l as [|x l]; [reflexivity |]. cbn [chunksFrom List.concat].
    rewrite IH; [apply take_drop | exact Hc | rewrite length_drop; simpl in *; lia].
Qed.

Lemma chunksFrom_sizes {A} (c : nat) : forall fuel (l : list A),
  1 <= c -> Forall (fun chunk => 1 <= List.length chunk <= c) (chunksFrom fuel c l).
Proof.
  induction fuel as [|fuel IH]; intros l Hc; [constructor |].
  destruct l as [|x l]; [constructor |]. cbn [chunksFrom].
  constructor; [| now apply IH]. rewrite length_take. simpl. lia.
Qed.

Lemma chunksFrom_enough {A} (c : nat) : forall fuel (l : list A),
  1 <= c -> List.length l <= fuel -> chunksFrom fuel c l = chunksOf c l.
Proof.
  intros fuel l Hc Hfuel. apply list_eq. intros k. unfold chunksOf.
  now rewrite !chunksFrom_lookup by (exact Hc || lia).
Qed.

Lemma bind_assoc {A B C} (m : Async A) (k : A -> Async B) (h : B -> Async C) w :
  (let* b := (let* a := m in k a) in h b) w = (let* a := m in let* b := k a in h b) w.
Proof. unfold bind. now destruct (m w) as [[a|e|] w1]. Qed.

Lemma bind_ext {A B} (m : Async A) (k k' : A -> Async B) w :
  (forall a w1, k a w1 = k' a w1) -> (let* a := m in k a) w = (let* a := m in k' a) w.
Proof. intros H. unfold bind. destruct (m w) as [[a|e|] w1]; auto. Qed.

Lemma allSettled_app {A} (ra rb : list (Promise A)) va vb :
  allSettled ra = Resolved va -> allSettled rb = Resolved vb ->
  allSettled (ra ++ rb) = Resolved (va ++ vb).
Proof.
  revert va. induction ra as [|r ra IH]; intros va Ha Hb.
  - injection Ha as <-. exact Hb.
  - apply allSettled_cons_resolved in Ha as (v & va' & -> & Ha & ->).
    simpl. now rewrite (IH _ Ha Hb).
Qed.

Section WaveFacts.
Variable stages : Stages.
Variables (urls : list string) (outputDir : string) (options : Options).
Variable concurrency : nat.
Hypothesis Hconcurrency : 1 <= concurrency.

(** The loop of the source and the waves of the specification are the
    same computation: the same promise and the same world. *)
Lemma waves_runWaves fuel : forall i results w,
  List.length urls - i <= fuel ->
  waves stages fuel urls outputDir concurrency options i results w
  = (let* more :=
       runWaves stages (List.length urls) outputDir options i
         (chunksFrom fuel concurrency (drop i urls)) in
     ret (results ++ more)) w.
Proof.
  induction fuel as [|fuel IH]; intros i results w Hfuel.
  - assert (Hi : (i <? List.length urls)%nat = false) by (apply Nat.ltb_ge; lia).
    simpl. rewrite Hi. unfold bind, ret. simpl. now rewrite app_nil_r.
  - cbn [waves]. destruct (i <? List.length urls)%nat eqn:Hi.
    + apply Nat.ltb_lt in Hi.
      destruct (drop i urls) as [|x rest] eqn:Hdrop.
      { apply (f_equal List.length) in Hdrop. rewrite length_drop in Hdrop. simpl in Hdrop. lia. }
      cbn [chunksFrom runWaves]. rewrite <- Hdrop.
      rewrite bind_assoc. apply bind_ext. intros waveResults w1.
      rewrite IH by lia. rewrite drop_drop, bind_assoc.
      assert (Hnext : runWaves stages (List.length urls) outputDir options
                        (i + List.length (take concurrency (drop i urls)))
                        (chunksFrom fuel concurrency (drop (i + concurrency) urls))
                      = runWaves stages (List.length urls) outputDir options (i + concurrency)
                          (chunksFrom fuel concurrency (drop (i + concurrency) urls))).
      { rewrite length_take, length_drop.
        destruct (decide (concurrency <= List.length urls - i)) as [Hle|Hgt].
        - now rewrite Nat.min_l by exact Hle.
        - rewrite (drop_ge urls (i + concurrency)) by lia. now destruct fuel. }
      rewrite Hnext. apply bind_ext. intros more w2.
      unfold bind, ret. now rewrite app_assoc.
    + apply Nat.ltb_ge in Hi. rewrite drop_ge by exact Hi.
      unfold bind, ret. simpl. now rewrite app_nil_r.
Qed.

Lemma waves_resolved_inv fuel : forall i results w rs w',
  waves stages fuel urls outputDir concurrency options i results w = (Resolved rs, w') ->
  exists vs,
    rs = results ++ vs
    /\ allSettled (startAll (itemsFrom stages urls outputDir options i) w).1 = Resolved vs.
Proof.
  induction fuel as [|fuel IH]; intros i results w rs w' H.
  - simpl in H. destruct (i <? List.length urls)%nat eqn:Hi; [discriminate |].
    injection H as <- _. apply Nat.ltb_ge in Hi. exists []. rewrite app_nil_r.
    unfold itemsFrom. now rewrite drop_ge by exact Hi.
  - cbn [waves] in H. destruct (i <? List.length urls)%nat eqn:Hi.
    + bind_inv H. apply IH in H as (vs & -> & Hvs).
      unfold promiseAll in Hstep.
      destruct (startAll _ w) as [ra w1] eqn:Hwave. injection Hstep as Hra <-.
      exists (a ++ vs). split; [now rewrite app_assoc |].
      rewrite (itemsFrom_split stages urls outputDir options concurrency Hconcurrency i),
        startAll_app.
      rewrite Hwave. simpl. now apply allSettled_app.
    + injection H as <- _. apply Nat.ltb_ge in Hi. exists []. rewrite app_nil_r.
      unfold itemsFrom. now rewrite drop_ge by exact Hi.
Qed.

End WaveFacts.

(** A wave ends before the next begins: with two URLs at a time, the
    third URL is never started when the second never settles; with
    three at a time it is. *)
Example wave_boundary :
  let two := processInParallel hangStages 5 hangUrls "/out" 2 demoOptions world0 in
  let three := processInParallel hangStages 5 hangUrls "/out" 3 demoOptions world0 in
  two.1 = Pending /\ three.1 = Pending
  /\ started (trace two.2)
     = ["[1/4] Processing: https://x.com/ada/status/1";
        "[2/4] Processing: https://x.com/hang/status/2"]
  /\ started (trace three.2)
     = ["[1/4] Processing: https://x.com/ada/status/1";
        "[2/4] Processing: https://x.com/hang/status/2";
        "[3/4] Processing: https://x.com/eve/status/3"].
Proof. cbv zeta. repeat split; vm_compute; reflexivity. Qed.

(** C3.  For a concurrency of at least one, the scheduler is the run of
    the waves of the specification: the URLs are split into consecutive
    waves, wave [k] being the [c] URLs from position [k * c] (fewer in
    the last wave), the waves are run one after the other, a wave being
    started once the one before has resolved as a whole, and the results
    of the waves are concatenated in order.  What the scheduler resolves
    to holds exactly one result per URL, the result at position [i]
    being the one [processUrl] resolved to for the URL at position [i],
    called with index [i]; and it resolves when the stages settle. *)
Theorem processInParallel_results stages urls outputDir concurrency options fuel w :
  1 <= concurrency ->
  List.length urls <= fuel ->
  let n := List.length urls in
  let chunks := chunksOf concurrency urls in
  processInParallel stages fuel urls outputDir concurrency options w
  = runWaves stages n outputDir options 0 chunks w
  /\ List.concat chunks = urls
  /\ (forall k,
        chunks !! k
        = if decide (k * concurrency < n)
          then Some (take concurrency (drop (k * concurrency) urls)) else None)
  /\ Forall (fun chunk => 1 <= List.length chunk <= concurrency) chunks
  /\ (forall rs w',
        processInParallel stages fuel urls outputDir concurrency options w = (Resolved rs, w') ->
        List.length rs = n
        /\ forall i url, urls !! i = Some url ->
             exists r wi wi',
               rs !! i = Some r
               /\ processUrl stages url i n outputDir options wi = (Resolved r, wi')
               /\ resultUrl r = url)
  /\ (StagesSettle stages ->
      exists rs w',
        processInParallel stages fuel urls outputDir concurrency options w = (Resolved rs, w')).
Proof.
  intros Hc Hfuel n chunks. split; [| split; [| split; [| split; [| split]]]].
  - unfold processInParallel.
    rewrite (waves_runWaves stages urls outputDir options concurrency Hc) by lia.
    rewrite drop_0, chunksFrom_enough by assumption. fold chunks.
    unfold bind, ret. destruct (runWaves _ _ _ _ _ _ w) as [[more|e|] w1]; reflexivity.
  - now apply chunksFrom_concat.
  - intros k. now apply chunksFrom_lookup.
  - now apply chunksFrom_sizes.
  - intros rs w' Hrun. unfold processInParallel in Hrun.
    apply (waves_resolved_inv stages urls outputDir options concurrency Hc) in Hrun
      as (vs & -> & Hvs).
    simpl. split.
    + rewrite (allSettled_length _ _ Hvs), startAll_length.
      unfold itemsFrom. now rewrite length_imap, drop_0.
    + intros i url Hi.
      destruct (startAll_lookup _ w vs i _ Hvs
                  (itemsFrom_lookup stages urls outputDir options i url Hi))
        as (v & wi & wi' & Hitem & Hv).
      exists v, wi, wi'. split; [exact Hv |]. split; [exact Hitem |].
      eapply processUrl_resultUrl, Hitem.
  - intros Hsettle.
    destruct (scheduler_spec stages Hsettle urls outputDir options concurrency fuel w Hc Hfuel)
      as (rs & w' & Hrun & _). eauto.
Qed.


(** C7.  For a URL classified as unknown, [processUrl] resolves to a
    failure at once: it writes two lines on the console and nothing
    else, so no file is written and no request is issued for the item;
    and the batch holds that failure at the position of the URL. *)
Theorem unknown_platform_no_writes stages urls outputDir concurrency options fuel w
    i url :
  StagesSettle stages ->
  1 <= concurrency ->
  List.length urls <= fuel ->
  urls !! i = Some url ->
  detectPlatform url = Unknown ->
  (forall index total w0,
     exists w0',
       processUrl stages url index total outputDir options w0
       = (Resolved (Failure url "Unknown platform"), w0')
       /\ fsWrites (trace w0') = fsWrites (trace w0)
       /\ netRequests (trace w0') = netRequests (trace w0))
  /\ exists rs w',
       processInParallel stages fuel urls outputDir concurrency options w = (Resolved rs, w')
       /\ rs !! i = Some (Failure url "Unknown platform").
Proof.
  intros Hsettle Hc Hfuel Hi Hp. split.
  - intros index total w0. eexists. split; [apply processUrl_unknown, Hp |].
    unfold fsWrites, netRequests. simpl. rewrite !bind_app. simpl.
    now rewrite !app_nil_r.
  - destruct (scheduler_spec stages Hsettle urls outputDir options concurrency fuel w Hc Hfuel)
      as (rs & w' & Hrun & _ & _ & Hpos).
    exists rs, w'. split; [exact Hrun |].
    destruct (Hpos i url Hi) as (r & wi & wi' & -> & Hitem & _).
    rewrite processUrl_unknown in Hitem by exact Hp. now injection Hitem as <- _.
Qed.

(** ** The fixtures at work *)

Lemma demoStages_settle : StagesSettle demoStages.
Proof.
  split; simpl; intros; auto with settle.
  - destruct (Js.includes u "gone"); auto with settle.
  - apply settles_bind; [apply settles_emit | intros _; apply settles_ret].
Qed.

Example demo_batch :
  (processInParallel demoStages 3 demoUrls "/out" 2 demoOptions world0).1
  = Resolved
      [Success "https://x.com/ada/status/1" "twitter-1-1706472000000-card.png" []
         "twitter-1-1706472000000-metadata.json" "Ada";
       Failure "https://example.org/post/12" "Unknown platform";
       Failure "https://bsky.app/profile/gone.example/post/3k" "Post not found"].
Proof. vm_compute. reflexivity. Qed.

Example demo_batch_writes :
  fsWrites (trace (processInParallel demoStages 3 demoUrls "/out" 2 demoOptions world0).2)
  = ["/out/twitter-1-1706472000000-card.png"; "/out/twitter-1-1706472000000-metadata.json"].
Proof. vm_compute. reflexivity. Qed.


Lemma processUrl_settles_as_its_stages_witness :
  StagesSettle demoStages
  /\ (processUrl demoStages "https://bsky.app/profile/gone.example/post/3k" 2 3 "/out"
        demoOptions world0).1
     = Resolved (Failure "https://bsky.app/profile/gone.example/post/3k" "Post not found")
  /\ exists r,
       (processUrl demoStages "https://x.com/ada/status/1" 0 3 "/out" demoOptions world0).1
       = Resolved r.
Proof.
  split; [exact demoStages_settle |]. split.
  - pose proof (processUrl_settles_as_its_stages demoStages
                  "https://bsky.app/profile/gone.example/post/3k" 2 3 "/out" demoOptions
                  world0) as (_ & _ & _ & _ & H).
    exact (H ltac:(vm_compute; discriminate)).
  - pose proof (processUrl_settles_as_its_stages demoStages "https://x.com/ada/status/1" 0 3
                  "/out" demoOptions world0) as (_ & _ & H & _).
    exact (H demoStages_settle).
Defined.

Lemma fetchJSON_redirecting {A} (parse : string -> option A) (fuel : nat) :
  forall url w, (fetchJSON redirecting parse fuel url w).1 = Pending.
Proof.
  induction fuel as [|fuel IH]; intros url w; [reflexivity |].
  cbn [fetchJSON]. change (httpGet redirecting w (Js.startsWith url "https") url)
    with (Respond (mkResponse 302 (Some "https://social.example/api/v1/statuses/42") None
                     (BodyEnd ""))).
  cbv iota beta. change (isRedirect _) with true. cbv iota. apply IH.
Qed.

Lemma scrapeMastodon_redirecting (fuel : nat) (w : World) :
  (scrapeMastodon redirecting fuel "https://social.example/@eve/42" w).1 = Pending.
Proof.
  unfold scrapeMastodon.
  change (urlParts redirecting "https://social.example/@eve/42")
    with (Some ("social.example", "/@eve/42")).
  cbv iota beta.
  replace (mastodonPostId "/@eve/42") with (Some "42") by (vm_compute; reflexivity).
  cbv iota beta. unfold bind at 1.
  match goal with
  | |- context [fetchJSON redirecting ?parse fuel ?url w] =>
      pose proof (fetchJSON_redirecting parse fuel url w) as Hloop;
      destruct (fetchJSON redirecting parse fuel url w) as [p w1]
  end.
  simpl in Hloop. subst p. reflexivity.
Qed.

(** The item hangs when a stage does.  With the scraper of the program
    and a server that redirects every request to itself, the capture
    never resolves, however many redirections are followed; with the
    downloader of the program and a server that cuts the body of an
    image, neither [processUrl] nor the batch resolves. *)
Lemma processUrl_can_stay_pending :
  (processUrl cutStages "https://x.com/ada/status/1" 0 1 "/out" demoOptions world0).1
  = Pending
  /\ (forall r,
        (processUrl cutStages "https://x.com/ada/status/1" 0 1 "/out" demoOptions world0).1
        <> Resolved r)
  /\ (processInParallel cutStages 5
        ["https://x.com/ada/status/1"; "https://example.org/post/12"] "/out" 2 demoOptions
        world0).1 = Pending
  /\ (forall fuel,
        (processUrl (redirectingStages fuel) "https://social.example/@eve/42" 0 1 "/out"
           demoOptions world0).1 = Pending).
Proof.
  assert (H : (processUrl cutStages "https://x.com/ada/status/1" 0 1 "/out" demoOptions
                 world0).1 = Pending) by (vm_compute; reflexivity).
  split; [exact H |]. split; [intros r; rewrite H; discriminate |].
  split; [vm_compute; reflexivity |].
  intros fuel. rewrite processUrl_known by (vm_compute; discriminate).
  replace (detectPlatform "https://social.example/@eve/42") with Mastodon
    by (vm_compute; reflexivity).
  unfold tryCatch, capture, bind at 1.
  change (scrapeByPlatform (redirectingStages fuel) Mastodon "https://social.example/@eve/42"
            demoOptions)
    with (scrapeAndRender (redirectingStages fuel) Mastodon MastodonCard
            "https://social.example/@eve/42" demoOptions).
  unfold scrapeAndRender, bind at 1.
  change (scrape (redirectingStages fuel) Mastodon "https://social.example/@eve/42")
    with (scrapeMastodon redirecting fuel "https://social.example/@eve/42").
  pose proof (scrapeMastodon_redirecting fuel
                (entering "https://social.example/@eve/42" 0 1 world0)) as Hloop.
  destruct (scrapeMastodon redirecting fuel "https://social.example/@eve/42" _) as [p w1].
  simpl in Hloop. subst p. reflexivity.
Qed.

Lemma processInParallel_results_witness :
  1 <= 2
  /\ List.length demoUrls <= 3
  /\ chunksOf 2 demoUrls
     = [["https://x.com/ada/status/1"; "https://example.org/post/12"];
        ["https://bsky.app/profile/gone.example/post/3k"]]
  /\ processInParallel demoStages 3 demoUrls "/out" 2 demoOptions world0
     = runWaves demoStages 3 "/out" demoOptions 0 (chunksOf 2 demoUrls) world0
  /\ exists rs w',
       processInParallel demoStages 3 demoUrls "/out" 2 demoOptions world0 = (Resolved rs, w')
       /\ List.length rs = 3.
Proof.
  split; [lia |]. split; [simpl; lia |]. split; [reflexivity |].
  destruct (processInParallel_results demoStages demoUrls "/out" 2 demoOptions 3 world0)
    as (Hwaves & _ & _ & _ & Hresults & Hsettle); [lia | simpl; lia |].
  split; [exact Hwaves |].
  destruct (Hsettle demoStages_settle) as (rs & w' & Hrun).
  exists rs, w'. split; [exact Hrun |]. exact (proj1 (Hresults rs w' Hrun)).
Defined.


Lemma unknown_platform_no_writes_witness :
  StagesSettle demoStages
  /\ 1 <= 2
  /\ List.length demoUrls <= 3
  /\ demoUrls !! 1 = Some "https://example.org/post/12"
  /\ detectPlatform "https://example.org/post/12" = Unknown
  /\ exists rs w',
       processInParallel demoStages 3 demoUrls "/out" 2 demoOptions world0 = (Resolved rs, w')
       /\ rs !! 1 = Some (Failure "https://example.org/post/12" "Unknown platform").
Proof.
  split; [exact demoStages_settle |]. split; [lia |]. split; [simpl; lia |].
  split; [reflexivity |]. split; [vm_compute; reflexivity |].
  apply (unknown_platform_no_writes demoStages demoUrls "/out" 2 demoOptions 3 world0 1
           "https://example.org/post/12" demoStages_settle).
  - lia.
  - simpl; lia.
  - reflexivity.
  - vm_compute; reflexivity.
Defined.

(** ** Strings *)

Lemma app_cons (a : ascii) (s t : string) : String a s +:+ t = String a (s +:+ t).
Proof. reflexivity. Qed.

Lemma app_empty_l (t : string) : "" +:+ t = t.
Proof. reflexivity. Qed.

Lemma app_empty_r (s : string) : s +:+ "" = s.
Proof. induction s as [|a s IH]; [reflexivity |]. now rewrite app_cons, IH. Qed.

Lemma app_assoc_string (s t u : string) : (s +:+ t) +:+ u = s +:+ (t +:+ u).
Proof. induction s as [|a s IH]; [reflexivity |]. now rewrite !app_cons, IH. Qed.

Lemma length_app_string (s t : string) :
  String.length (s +:+ t) = String.length s + String.length t.
Proof. induction s as [|a s IH]; [reflexivity |]. rewrite app_cons. simpl. now rewrite IH. Qed.

Lemma app_inj_r (s1 s2 t : string) : s1 +:+ t = s2 +:+ t -> s1 = s2.
Proof.
  revert s2. induction s1 as [|a s1 IH]; intros [|b s2] H.
  - reflexivity.
  - apply (f_equal String.length) in H. rewrite app_cons, app_empty_l in H.
    simpl in H. rewrite length_app_string in H. lia.
  - apply (f_equal String.length) in H. rewrite app_cons, app_empty_l in H.
    simpl in H. rewrite length_app_string in H. lia.
  - rewrite !app_cons in H. injection H as -> H. f_equal. now apply IH.
Qed.

Lemma every_impl (p q : ascii -> bool) (s : string) :
  (forall a, p a = true -> q a = true) -> Js.every p s = true -> Js.every q s = true.
Proof.
  intros Hpq. induction s as [|a s IH]; simpl; [reflexivity |].
  intros [Ha Hs]%andb_true_iff. rewrite (Hpq a Ha). now apply IH.
Qed.

Lemma every_keep (p : ascii -> bool) (s : string) : Js.every p (Js.keep p s) = true.
Proof.
  induction s as [|a s IH]; simpl; [reflexivity |].
  destruct (p a) eqn:Ha; simpl; [now rewrite Ha |]. exact IH.
Qed.

Lemma every_slice0 (p : ascii -> bool) (n : nat) (s : string) :
  Js.every p s = true -> Js.every p (Js.slice0 n s) = true.
Proof.
  revert s. induction n as [|n IH]; intros [|a s]; simpl; try reflexivity.
  intros [Ha Hs]%andb_true_iff. rewrite Ha. now apply IH.
Qed.

(** A separator splits a string in one way when it does not occur
    before itself. *)
Lemma separator_inj (c : ascii) (a b x y : string) :
  Js.every (fun d => negb (Ascii.eqb d c)) a = true ->
  Js.every (fun d => negb (Ascii.eqb d c)) b = true ->
  a +:+ String c x = b +:+ String c y ->
  a = b /\ x = y.
Proof.
  revert b. induction a as [|d a IH]; intros [|e b] Ha Hb H.
  - rewrite !app_empty_l in H. now injection H as ->.
  - rewrite app_empty_l, app_cons in H. injection H as <- _.
    simpl in Hb. now rewrite Ascii.eqb_refl in Hb.
  - rewrite app_empty_l, app_cons in H. injection H as -> _.
    simpl in Ha. now rewrite Ascii.eqb_refl in Ha.
  - rewrite !app_cons in H. injection H as -> H.
    simpl in Ha, Hb. apply andb_true_iff in Ha as [_ Ha]. apply andb_true_iff in Hb as [_ Hb].
    destruct (IH b Ha Hb H) as [-> ->]. auto.
Qed.

(** ** Artifact names *)

Lemma alnum_not_dash (a : ascii) : Js.isAlnum a = true -> negb (Ascii.eqb a "-") = true.
Proof.
  destruct (Ascii.eqb a "-") eqn:Ha; [| reflexivity].
  apply Ascii.eqb_eq in Ha as ->. discriminate.
Qed.

Lemma urlHash_no_dash (url : string) :
  Js.every (fun d => negb (Ascii.eqb d "-")) (urlHash url) = true.
Proof.
  apply (every_impl Js.isAlnum); [exact alnum_not_dash |].
  unfold urlHash. apply every_slice0, every_keep.
Qed.

Lemma platformTag_no_dash (p : Platform) :
  Js.every (fun d => negb (Ascii.eqb d "-")) (platformTag p) = true.
Proof. destruct p; reflexivity. Qed.

Lemma platformTag_inj (p q : Platform) : platformTag p = platformTag q -> p = q.
Proof. destruct p, q; intros H; try reflexivity; discriminate. Qed.

(** C8, as the code has it.  Two base names are equal exactly when the
    platform, the sanitised fragment of the URL (the first twenty
    letters and digits of what follows its last slash) and the
    millisecond of the capture are: captures that differ in one of the
    three never collide, and two different URLs that agree on all three
    do. *)
Theorem generateFilename_eq_iff (p1 p2 : Platform) (url1 url2 : string) (t1 t2 : N) :
  generateFilename url1 (platformTag p1) t1 = generateFilename url2 (platformTag p2) t2
  <-> p1 = p2 /\ urlHash url1 = urlHash url2 /\ t1 = t2.
Proof.
  unfold generateFilename. split.
  - intros H.
    apply separator_inj in H as [Hp H]; try apply platformTag_no_dash.
    apply separator_inj in H as [Hh H]; try apply urlHash_no_dash.
    apply app_inj_r in H. apply (inj pretty) in H.
    split; [now apply platformTag_inj | auto].
  - now intros (-> & -> & ->).
Qed.

(** C8, as the claim has it, fails: two different articles whose
    addresses end with a slash, captured in the same millisecond, get
    the same base name. *)
Lemma generateFilename_collision :
  ~ (forall url1 url2 platform timestamp,
       url1 <> url2 ->
       generateFilename url1 platform timestamp <> generateFilename url2 platform timestamp).
Proof.
  intros H.
  apply (H "https://www.cultofmac.com/news/first-story/"
           "https://www.cultofmac.com/news/second-story/" "article" 1706472000000%N).
  - discriminate.
  - vm_compute. reflexivity.
Qed.

Example collision_names :
  generateFilename "https://www.cultofmac.com/news/first-story/" "article" 1706472000000
  = "article--1706472000000.png".
Proof. vm_compute. reflexivity. Qed.

(** ** Counting occurrences *)

Lemma startsWith_empty (s : string) : Js.startsWith s "" = true.
Proof. now destruct s. Qed.

Lemma startsWith_app (x p t : string) :
  Js.startsWith x p = true -> Js.startsWith (x +:+ t) p = true.
Proof.
  revert x. induction p as [|b p IH]; intros x H; [apply startsWith_empty |].
  destruct x as [|a x]; [discriminate |].
  simpl in H. apply andb_true_iff in H as [Hab Hx].
  rewrite app_cons. simpl. rewrite Hab. simpl. now apply IH.
Qed.




Lemma every_app (q : ascii -> bool) (s t : string) :
  Js.every q (s +:+ t) = Js.every q s && Js.every q t.
Proof.
  induction s as [|a s IH]; [reflexivity |].
  rewrite app_cons. simpl. now rewrite IH, andb_assoc.
Qed.


(** ** Texts free of markup *)

Lemma markupFree_app (s t : string) :
  markupFree s = true -> markupFree t = true -> markupFree (s +:+ t) = true.
Proof. unfold markupFree. rewrite every_app. now intros -> ->. Qed.







Lemma join_cons (x : string) (l : list string) : Js.join (x :: l) = x +:+ Js.join l.
Proof. reflexivity. Qed.


(** ** Occurrences of a text *)

Lemma includes_here (p t : string) : Js.includes (p +:+ t) p = true.
Proof.
  assert (H : Js.startsWith (p +:+ t) p = true).
  { apply startsWith_app. induction p as [|a p IH]; [reflexivity |].
    simpl. now rewrite Ascii.eqb_refl. }
  destruct (p +:+ t); cbn [Js.includes]; now rewrite H.
Qed.

Lemma includes_later (s t p : string) :
  Js.includes t p = true -> Js.includes (s +:+ t) p = true.
Proof.
  intros H. induction s as [|a s IH]; [exact H |].
  rewrite app_cons. cbn [Js.includes]. rewrite IH. apply orb_true_r.
Qed.

Lemma includes_here3 (x y z t : string) :
  Js.includes (x +:+ y +:+ z +:+ t) (x +:+ y +:+ z) = true.
Proof. rewrite <- !app_assoc_string. apply includes_here. Qed.

Lemma startsWith_self_app (p t : string) : Js.startsWith (p +:+ t) p = true.
Proof.
  apply startsWith_app. induction p as [|a p IH]; [reflexivity |].
  simpl. now rewrite Ascii.eqb_refl.
Qed.

Lemma startsWith_iff (s p : string) :
  Js.startsWith s p = true <-> exists t, s = p +:+ t.
Proof.
  split.
  - revert s. induction p as [|b p IH]; intros s H; [exists s; reflexivity |].
    destruct s as [|a s]; [discriminate |].
    simpl in H. apply andb_true_iff in H as [Hab Hs].
    apply Ascii.eqb_eq in Hab as ->. apply IH in Hs as (t & ->).
    exists t. now rewrite app_cons.
  - intros (t & ->). apply startsWith_self_app.
Qed.

Lemma includes_iff (s p : string) :
  Js.includes s p = true <-> exists pre post, s = pre +:+ p +:+ post.
Proof.
  split.
  - induction s as [|a s IH]; cbn [Js.includes]; intros H.
    + rewrite orb_false_r in H. apply startsWith_iff in H as (t & Ht).
      exists "", t. now rewrite app_empty_l.
    + apply orb_true_iff in H as [H | H].
      * apply startsWith_iff in H as (t & Ht). exists "", t. now rewrite app_empty_l.
      * apply IH in H as (pre & post & ->). exists (String a pre), post.
        now rewrite app_cons.
  - intros (pre & post & ->). apply includes_later, includes_here.
Qed.

(** ** Thread cards *)




Section ThreadFacts.
Variable env : Env.
Variable now : Z.
Hypothesis Hdates : forall date, markupFree (toLocaleDateString env date) = true.






End ThreadFacts.




(** *** What a block shows *)













(** *** The opening markup of a block *)













(** A block shows its own post and not another one of the thread. *)
Example blocks_tell_posts_apart :
  let ada := tweetBy "Ada" "ada" "First <post>" [] true in
  let bob := tweetBy "Bob" "bob" "Second & last?" ["data:image/png;base64,AAAA"] false in
  let author := fun tweet => default (Author.mk None None None None None None)
                               (Post.author tweet) in
  let env := answering notFound in
  showsPost (threadPost env 0 ada false) ada (author ada) = true
  /\ showsPost (threadPost env 0 ada false) bob (author bob) = false
  /\ showsPost (bentoThreadPost bob true) bob (author bob) = true
  /\ showsPost (bentoThreadPost bob true) ada (author ada) = false.
Proof. cbv zeta. repeat split; vm_compute; reflexivity. Qed.

(** The three posts come in the order of the payload. *)
Example demoThread_order :
  match renderTwitterThreadCard (answering notFound) 0 demoThread with
  | inr doc =>
      match Js.indexOf doc "First &lt;post&gt;", Js.indexOf doc "Second &amp; last?",
            Js.indexOf doc "Third" with
      | Some i, Some j, Some k => (i <? j)%nat && (j <? k)%nat
      | _, _, _ => false
      end
  | inl _ => false
  end = true.
Proof. vm_compute. reflexivity. Qed.

(** ** Forum cards *)

(** The number of a forum post goes into both cards as it is. *)
Lemma macrumors_postNumber_raw env now data author a p :
  Post.author data = Some author ->
  Post.postNumber data = Some (String a p) ->
  exists doc bentoDoc,
    renderMacrumorsCard env now data = inr doc
    /\ renderBentoMacrumorsCard data = inr bentoDoc
    /\ Js.includes doc ("#" +:+ String a p +:+ "</span>") = true
    /\ Js.includes bentoDoc ("#" +:+ String a p +:+ "</span>") = true.
Proof.
  intros Hauthor Hnumber. unfold renderMacrumorsCard, renderBentoMacrumorsCard.
  rewrite Hauthor, Hnumber. cbn [Js.truthy Js.orElse].
  eexists _, _. split; [reflexivity |]. split; [reflexivity |].
  change (Js.tpl "<span class=`post-number`>#")
    with (Js.tpl "<span class=`post-number`>" +:+ "#").
  rewrite !app_assoc_string.
  split; repeat first [apply includes_here3 | apply includes_later].
Qed.

(** C1 (the code departs from the claim).  On a forum post whose number
    holds markup, both forum cards carry the number unescaped, while the
    text of the post is escaped. *)
Theorem macrumors_postNumber_unescaped :
  exists doc bentoDoc,
    renderMacrumorsCard (answering notFound) 0 forumPost = inr doc
    /\ renderBentoMacrumorsCard forumPost = inr bentoDoc
    /\ Js.includes doc "#1<script>alert(1)</script></span>" = true
    /\ Js.includes bentoDoc "#1<script>alert(1)</script></span>" = true
    /\ Js.includes doc "Nice &lt;b&gt;phone&lt;/b&gt;" = true
    /\ Js.includes doc "<b>phone" = false.
Proof.
  eexists _, _. split; [reflexivity |]. split; [reflexivity |].
  repeat split; vm_compute; reflexivity.
Qed.

(** ** Inline images *)

Lemma inlineImages_length env fuel urls w l w' :
  inlineImages env fuel urls w = (Resolved l, w') -> List.length l <= List.length urls.
Proof.
  revert w l w'. induction urls as [|u urls IH]; intros w l w' H.
  - injection H as <- _. reflexivity.
  - cbn [inlineImages] in H. bind_inv H. bind_inv H.
    apply IH in Hstep0. injection H as <- _.
    destruct a as [[|c d]|]; simpl; lia.
Qed.

Lemma tryCatch_throw_resolved {A} (m : Async A) (f : Error -> Error) w a w' :
  tryCatch m (fun e => throw (f e)) w = (Resolved a, w') -> m w = (Resolved a, w').
Proof.
  unfold tryCatch. destruct (m w) as [[b|e|] w1]; intros H; try discriminate. exact H.
Qed.

(** The Twitter scraper keeps its cap of four inline images. *)
Lemma scrapeTwitter_at_most_4 env fuel url w post w' :
  scrapeTwitter env fuel url w = (Resolved post, w') ->
  List.length (Post.images post) <= 4.
Proof.
  unfold scrapeTwitter. destruct (statusId url) as [tweetId|]; [| discriminate].
  intros H. bind_inv H. apply tryCatch_throw_resolved in H.
  repeat bind_inv H. injection H as <- _. simpl.
  apply inlineImages_length in Hstep2.
  rewrite length_fmap, length_take in Hstep2. lia.
Qed.

Example detect_fediverse : detectPlatform "https://social.example/@eve/42" = Mastodon.
Proof. vm_compute. reflexivity. Qed.

(** C4 (the code departs from the claim).  The Mastodon scraper inlines
    every attachment of a status: a status with five images gives a
    payload with five inline images.  The Bluesky formatter does the
    same with the images of a post view and the thumbnail of its
    external embed. *)
Theorem scrapeMastodon_five_inline_images :
  (exists post w',
     scrapeMastodon fediverse 5 "https://social.example/@eve/42" world0 = (Resolved post, w')
     /\ Post.platform post = "mastodon"
     /\ Post.content post = Some "Five pictures"
     /\ List.length (Post.images post) = 5)
  /\ (exists post w',
        formatBlueskyPost fediverse 5 postWithFiveImages
          "https://bsky.app/profile/eve.example/post/3k" world0 = (Resolved post, w')
        /\ List.length (Post.images post) = 5).
Proof.
  split; eexists _, _.
  - split; [vm_compute; reflexivity |]. repeat split.
  - split; [vm_compute; reflexivity |]. reflexivity.
Qed.

(* ===================================================================== *)
(** * Further properties                                                   *)
(* ===================================================================== *)

(** ** Escaping *)

Lemma flatMap_app (f : ascii -> string) (s t : string) :
  flatMap f (s +:+ t) = flatMap f s +:+ flatMap f t.
Proof.
  induction s as [|a s IH]; [reflexivity |].
  rewrite app_cons. simpl. now rewrite IH, app_assoc_string.
Qed.

Lemma flatMap_ext (f g : ascii -> string) (s : string) :
  (forall a, f a = g a) -> flatMap f s = flatMap g s.
Proof. intros Hfg. induction s as [|a s IH]; simpl; [reflexivity |]. now rewrite Hfg, IH. Qed.

Lemma replaceAll_flatMap_char (c : ascii) (by_ s : string) :
  Js.replaceAll c by_ s = flatMap (fun a => if Ascii.eqb a c then by_ else String a "") s.
Proof.
  induction s as [|a s IH]; simpl; [reflexivity |].
  rewrite IH. now destruct (Ascii.eqb a c).
Qed.

Lemma flatMap_flatMap (f g : ascii -> string) (s : string) :
  flatMap g (flatMap f s) = flatMap (fun a => flatMap g (f a)) s.
Proof.
  induction s as [|a s IH]; simpl; [reflexivity |]. now rewrite flatMap_app, IH.
Qed.

Lemma escapeChar_passes (a : ascii) :
  Js.replaceAll "'" "&#039;"
    (Js.replaceAll Js.dq "&quot;"
       (Js.replaceAll ">" "&gt;"
          (Js.replaceAll "<" "&lt;"
             (if Ascii.eqb a "&" then "&amp;" else String a ""))))
  = escapeChar a.
Proof. destruct a as [[] [] [] [] [] [] [] []]; reflexivity. Qed.

Lemma escapeHtml_flatMap (s : string) : escapeHtml (Some s) = flatMap escapeChar s.
Proof.
  destruct s as [|a s]; [reflexivity |]. unfold escapeHtml.
  rewrite (replaceAll_flatMap_char "&").
  rewrite (replaceAll_flatMap_char "<"), flatMap_flatMap.
  rewrite (replaceAll_flatMap_char ">"), flatMap_flatMap.
  rewrite (replaceAll_flatMap_char Js.dq), flatMap_flatMap.
  rewrite (replaceAll_flatMap_char "'"), flatMap_flatMap.
  apply flatMap_ext. intros c.
  rewrite <- (escapeChar_passes c), <- !replaceAll_flatMap_char. reflexivity.
Qed.

(** X1.  The five passes of [escapeHtml] amount to one pass that
    replaces each character on its own: the entities written by an
    earlier pass are not escaped again by a later one.  So the escaped
    form of a text in two parts is made of the escaped forms of the
    parts. *)
Theorem escapeHtml_charwise (s t : string) :
  escapeHtml (Some s) = flatMap escapeChar s
  /\ escapeHtml (Some (s +:+ t)) = escapeHtml (Some s) +:+ escapeHtml (Some t)
  /\ escapeHtml None = "".
Proof.
  split; [apply escapeHtml_flatMap |]. split; [| reflexivity].
  rewrite !escapeHtml_flatMap. apply flatMap_app.
Qed.

Lemma every_flatMap (q : ascii -> bool) (f : ascii -> string) (s : string) :
  (forall a, Js.every q (f a) = true) -> Js.every q (flatMap f s) = true.
Proof.
  intros Hf. induction s as [|a s IH]; simpl; [reflexivity |].
  now rewrite every_app, Hf, IH.
Qed.

(** X2.  The escaped text holds no angle bracket and no quote, whatever
    the text. *)
Theorem escapeHtml_no_delimiter (text : option string) :
  Js.every (fun c => negb (isDelimiter c)) (escapeHtml text) = true.
Proof.
  destruct text as [s|]; [| reflexivity].
  rewrite escapeHtml_flatMap.
  apply every_flatMap. intros a.
  destruct a as [[] [] [] [] [] [] [] []]; reflexivity.
Qed.

Lemma escapeChar_cases (a : ascii) :
  (a = "&"%char /\ escapeChar a = "&amp;")
  \/ (a = "<"%char /\ escapeChar a = "&lt;")
  \/ (a = ">"%char /\ escapeChar a = "&gt;")
  \/ (a = Js.dq /\ escapeChar a = "&quot;")
  \/ (a = "'"%char /\ escapeChar a = "&#039;")
  \/ (a <> "&"%char /\ escapeChar a = String a "").
Proof.
  unfold escapeChar.
  destruct (Ascii.eqb a "&") eqn:H1; [apply Ascii.eqb_eq in H1; tauto |].
  destruct (Ascii.eqb a "<") eqn:H2; [apply Ascii.eqb_eq in H2; tauto |].
  destruct (Ascii.eqb a ">") eqn:H3; [apply Ascii.eqb_eq in H3; tauto |].
  destruct (Ascii.eqb a Js.dq) eqn:H4; [apply Ascii.eqb_eq in H4; tauto |].
  destruct (Ascii.eqb a "'") eqn:H5; [apply Ascii.eqb_eq in H5; tauto |].
  apply Ascii.eqb_neq in H1. tauto.
Qed.

Lemma flatMap_escapeChar_inj (s t : string) :
  flatMap escapeChar s = flatMap escapeChar t -> s = t.
Proof.
  revert t. induction s as [|a s IH]; intros [|b t] H; simpl in H.
  - reflexivity.
  - destruct (escapeChar_cases b) as [[_ E]|[[_ E]|[[_ E]|[[_ E]|[[_ E]|[_ E]]]]]];
      rewrite E in H; discriminate.
  - destruct (escapeChar_cases a) as [[_ E]|[[_ E]|[[_ E]|[[_ E]|[[_ E]|[_ E]]]]]];
      rewrite E in H; discriminate.
  - destruct (escapeChar_cases a) as [[Ha Ea]|[[Ha Ea]|[[Ha Ea]|[[Ha Ea]|[[Ha Ea]|[Ha Ea]]]]]];
      destruct (escapeChar_cases b)
        as [[Hb Eb]|[[Hb Eb]|[[Hb Eb]|[[Hb Eb]|[[Hb Eb]|[Hb Eb]]]]]];
      rewrite Ea, Eb in H; repeat rewrite app_cons in H; rewrite ?app_empty_l in H;
      try discriminate;
      try (injection H as H; subst; f_equal; now apply IH);
      try (injection H as H' H; subst; first [now destruct Ha | now destruct Hb
                                              | f_equal; now apply IH]).
Qed.

(** X3.  Escaping loses nothing: two texts with the same escaped form
    are the same text. *)
Theorem escapeHtml_injective (s t : string) :
  escapeHtml (Some s) = escapeHtml (Some t) -> s = t.
Proof.
  rewrite !escapeHtml_flatMap.
  apply flatMap_escapeChar_inj.
Qed.

Lemma escapeHtml_injective_witness :
  escapeHtml (Some "a<b") = escapeHtml (Some "a<b") /\ "a<b" = "a<b".
Proof.
  split; [reflexivity |].
  apply (escapeHtml_injective "a<b" "a<b"). reflexivity.
Defined.

(** ** File extensions *)

Lemma firstMatch_some {A} (f : string -> option A) (s : string) (x : A) :
  Js.firstMatch f s = Some x -> exists t, f t = Some x.
Proof.
  induction s as [|a s IH]; simpl.
  - destruct (f "") eqn:H; [intros [= <-]; eauto | discriminate].
  - destruct (f (String a s)) eqn:H; [intros [= <-]; eauto | exact IH].
Qed.

Lemma extensionAt_known (s ext : string) :
  extensionAt s = Some ext -> In ext imageExtensions.
Proof. unfold extensionAt. intros H. now apply List.find_some in H. Qed.

Lemma firstMatch_suffix {A} (f : string -> option A) (s : string) (x : A) :
  Js.firstMatch f s = Some x -> exists pre t, s = pre +:+ t /\ f t = Some x.
Proof.
  induction s as [|a s IH]; simpl.
  - destruct (f "") eqn:H; [intros [= <-]; exists "", ""; auto | discriminate].
  - destruct (f (String a s)) eqn:H; [intros [= <-]; exists "", (String a s); auto |].
    intros (pre & t & -> & Ht)%IH. exists (String a pre), t. now rewrite app_cons.
Qed.

Lemma firstMatch_none {A} (f : string -> option A) (s pre t : string) :
  Js.firstMatch f s = None -> s = pre +:+ t -> f t = None.
Proof.
  revert pre. induction s as [|a s IH]; intros pre; simpl.
  - destruct (f "") eqn:H; [discriminate |]. intros _ Hs.
    destruct pre; [| discriminate]. rewrite app_empty_l in Hs. now subst.
  - destruct (f (String a s)) eqn:H; [discriminate |]. intros Hnone Hs.
    destruct pre as [|b pre]; [rewrite app_empty_l in Hs; now subst |].
    rewrite app_cons in Hs. injection Hs as _ Hs. now apply (IH pre).
Qed.

(** An extension after a marker: what the two patterns of
    [getImageExtension] look for, at the head of a text. *)
Lemma extensionAfter_some (marker t ext : string) :
  (if Js.startsWith t marker
   then extensionAt (Js.dropChars (String.length marker) t) else None) = Some ext ->
  In ext imageExtensions /\ exists rest, t = marker +:+ ext +:+ rest.
Proof.
  destruct (Js.startsWith t marker) eqn:Hm; [| discriminate].
  apply startsWith_iff in Hm as (r & ->). intros H.
  assert (Hdrop : Js.dropChars (String.length marker) (marker +:+ r) = r).
  { clear. induction marker as [|a m IH]; [now destruct r |]. rewrite app_cons. exact IH. }
  rewrite Hdrop in H. unfold extensionAt in H.
  apply List.find_some in H as [Hin Hstarts].
  apply startsWith_iff in Hstarts as (rest & ->). eauto.
Qed.

Lemma extensionAfter_none (marker ext rest : string) :
  In ext imageExtensions ->
  (if Js.startsWith (marker +:+ ext +:+ rest) marker
   then extensionAt (Js.dropChars (String.length marker) (marker +:+ ext +:+ rest))
   else None) <> None.
Proof.
  intros Hin. rewrite startsWith_self_app.
  assert (Hdrop : forall r, Js.dropChars (String.length marker) (marker +:+ r) = r).
  { clear. intros r. induction marker as [|a m IH]; [now destruct r |].
    rewrite app_cons. exact IH. }
  rewrite Hdrop. unfold extensionAt. intros Hnone.
  apply (List.find_none _ _ Hnone) in Hin. now rewrite startsWith_self_app in Hin.
Qed.

Lemma firstMatch_extension (marker lower : string) :
  match Js.firstMatch
          (fun s => if Js.startsWith s marker
                    then extensionAt (Js.dropChars (String.length marker) s) else None)
          lower with
  | Some ext => In ext imageExtensions /\ Js.includes lower (marker +:+ ext) = true
  | None => forall ext, In ext imageExtensions -> Js.includes lower (marker +:+ ext) = false
  end.
Proof.
  destruct (Js.firstMatch _ lower) as [ext|] eqn:H.
  - apply firstMatch_suffix in H as (pre & t & -> & Ht).
    apply extensionAfter_some in Ht as (Hin & rest & ->). split; [exact Hin |].
    apply includes_iff. exists pre, rest. now rewrite app_assoc_string.
  - intros ext Hin. apply not_true_is_false.
    intros (pre & rest & Hlower)%includes_iff.
    rewrite app_assoc_string in Hlower.
    apply (firstMatch_none _ _ _ _ H) in Hlower.
    now apply (extensionAfter_none marker ext rest Hin).
Qed.

(** X4.  Whatever the URL, the extension given to a downloaded image is
    one of jpg, jpeg, png, gif and webp.  It is read from the URL in
    lower case: after a dot when one of the five follows a dot there,
    else after [format=] when one follows it, and it is jpg when
    neither occurs. *)
Theorem getImageExtension_known (url : string) :
  let lower := Js.toLowerCase url in
  let known := ["jpg"; "jpeg"; "png"; "gif"; "webp"] in
  In (getImageExtension url) known
  /\ ((exists ext, In ext known /\ Js.includes lower ("." +:+ ext) = true) ->
      Js.includes lower ("." +:+ getImageExtension url) = true)
  /\ ((forall ext, In ext known -> Js.includes lower ("." +:+ ext) = false) ->
      (exists ext, In ext known /\ Js.includes lower ("format=" +:+ ext) = true) ->
      Js.includes lower ("format=" +:+ getImageExtension url) = true)
  /\ ((forall ext, In ext known ->
         Js.includes lower ("." +:+ ext) = false
         /\ Js.includes lower ("format=" +:+ ext) = false) ->
      getImageExtension url = "jpg").
Proof.
  intros lower known. unfold getImageExtension. fold lower.
  pose proof (firstMatch_extension "." lower) as Hdot.
  pose proof (firstMatch_extension "format=" lower) as Hformat.
  cbn [String.length] in Hdot, Hformat.
  destruct (Js.firstMatch _ lower) as [ext|].
  - destruct Hdot as [Hin Hinc]. split; [exact Hin |]. split; [auto |]. split.
    + intros Hnone. now rewrite (Hnone ext Hin) in Hinc.
    + intros Hnone. destruct (Hnone ext Hin) as [Hd _]. now rewrite Hd in Hinc.
  - destruct (Js.firstMatch _ lower) as [ext|].
    + destruct Hformat as [Hin Hinc]. split; [exact Hin |]. split; [| split].
      * intros (e & He & Hinc'). now rewrite (Hdot e He) in Hinc'.
      * auto.
      * intros Hnone. destruct (Hnone ext Hin) as [_ Hf]. now rewrite Hf in Hinc.
    + split; [simpl; auto |]. split; [| split].
      * intros (e & He & Hinc'). now rewrite (Hdot e He) in Hinc'.
      * intros _ (e & He & Hinc'). now rewrite (Hformat e He) in Hinc'.
      * reflexivity.
Qed.

Example extension_of_twitter_media :
  getImageExtension "https://pbs.twimg.com/media/GE5xQ?format=PNG&name=4096x4096" = "png".
Proof. vm_compute. reflexivity. Qed.

(** ** Relative times *)

(** X5.  The text of a time: nothing for an absent time, [Invalid Date]
    for one that cannot be read, [just now] for one less than a minute
    old or in the future, then whole minutes from 1 to 59, whole hours
    from 1 to 23, whole days from 1 to 6, and the calendar date from a
    week on. *)
Theorem formatRelativeTime_ranges env now (dateStr : option string) :
  match dateStr with
  | None | Some "" => formatRelativeTime env now dateStr = ""
  | Some s =>
      match dateParse env s with
      | None => formatRelativeTime env now dateStr = "Invalid Date"
      | Some date =>
          let age := (now - date)%Z in
          ((age < 60000)%Z -> formatRelativeTime env now dateStr = "just now")
          /\ ((60000 <= age < 3600000)%Z ->
              formatRelativeTime env now dateStr = pretty (age / 60000)%Z +:+ "m"
              /\ (1 <= age / 60000 <= 59)%Z)
          /\ ((3600000 <= age < 86400000)%Z ->
              formatRelativeTime env now dateStr = pretty (age / 3600000)%Z +:+ "h"
              /\ (1 <= age / 3600000 <= 23)%Z)
          /\ ((86400000 <= age < 604800000)%Z ->
              formatRelativeTime env now dateStr = pretty (age / 86400000)%Z +:+ "d"
              /\ (1 <= age / 86400000 <= 6)%Z)
          /\ ((604800000 <= age)%Z ->
              formatRelativeTime env now dateStr = toLocaleDateString env date)
      end
  end.
Proof.
  destruct dateStr as [[|a d]|]; try reflexivity.
  unfold formatRelativeTime.
  destruct (dateParse env (String a d)) as [date|]; [| reflexivity].
  set (age := (now - date)%Z). cbv zeta.
  assert (H1 : forall k, (0 < k)%Z -> forall b, (age / k <? b)%Z = true <-> (age < k * b)%Z).
  { intros k Hk b. rewrite Z.ltb_lt. split; intros H.
    - destruct (Z.lt_ge_cases age (k * b)) as [Hlt|Hge]; [exact Hlt |].
      apply Z.div_le_lower_bound in Hge; lia.
    - apply Z.div_lt_upper_bound; lia. }
  assert (H0 : forall k, (0 < k)%Z -> forall b, (age / k <? b)%Z = false <-> (k * b <= age)%Z).
  { intros k Hk b. rewrite <- Bool.not_true_iff_false, H1 by exact Hk. lia. }
  assert (Hdiv : forall k lo hi, (0 < k)%Z -> (k * lo <= age < k * (hi + 1))%Z ->
                                 (lo <= age / k <= hi)%Z).
  { intros k lo hi Hk [Hlo Hhi]. split.
    - apply Z.div_le_lower_bound; lia.
    - enough (age / k < hi + 1)%Z by lia. apply Z.div_lt_upper_bound; lia. }
  split; [| split; [| split; [| split]]]; intros Hage.
  - now rewrite (proj2 (H1 60000%Z eq_refl 1%Z)) by lia.
  - split; [| apply Hdiv; lia].
    rewrite (proj2 (H0 60000%Z eq_refl 1%Z)) by lia.
    now rewrite (proj2 (H1 60000%Z eq_refl 60%Z)) by lia.
  - split; [| apply Hdiv; lia].
    rewrite (proj2 (H0 60000%Z eq_refl 1%Z)) by lia.
    rewrite (proj2 (H0 60000%Z eq_refl 60%Z)) by lia.
    now rewrite (proj2 (H1 3600000%Z eq_refl 24%Z)) by lia.
  - split; [| apply Hdiv; lia].
    rewrite (proj2 (H0 60000%Z eq_refl 1%Z)) by lia.
    rewrite (proj2 (H0 60000%Z eq_refl 60%Z)) by lia.
    rewrite (proj2 (H0 3600000%Z eq_refl 24%Z)) by lia.
    now rewrite (proj2 (H1 86400000%Z eq_refl 7%Z)) by lia.
  - rewrite (proj2 (H0 60000%Z eq_refl 1%Z)) by lia.
    rewrite (proj2 (H0 60000%Z eq_refl 60%Z)) by lia.
    rewrite (proj2 (H0 3600000%Z eq_refl 24%Z)) by lia.
    now rewrite (proj2 (H0 86400000%Z eq_refl 7%Z)) by lia.
Qed.

Example relative_time_examples :
  formatRelativeTime numericDates 1706472000000 (Some "lunch") = "2h"
  /\ formatRelativeTime numericDates 1706472000000 (Some "soon") = "just now"
  /\ formatRelativeTime numericDates 1706472000000 (Some "never") = "Invalid Date".
Proof. repeat split; vm_compute; reflexivity. Qed.

(** ** Image addresses *)

Lemma takeWhile_app_stop (p : ascii -> bool) (s : string) (c : ascii) (t : string) :
  Js.every p s = true -> p c = false -> Js.takeWhile p (s +:+ String c t) = s.
Proof.
  intros Hs Hc. induction s as [|a s IH].
  - rewrite app_empty_l. simpl. now rewrite Hc.
  - simpl in Hs. apply andb_true_iff in Hs as [Ha Hs].
    rewrite app_cons. simpl. now rewrite Ha, IH.
Qed.

Lemma every_takeWhile (p : ascii -> bool) (s : string) :
  Js.every p (Js.takeWhile p s) = true.
Proof.
  induction s as [|a s IH]; simpl; [reflexivity |].
  destruct (p a) eqn:Ha; simpl; [now rewrite Ha |]. reflexivity.
Qed.

(** X6.  Upgrading the address of a Twitter image to full resolution
    is idempotent: an upgraded address is left as it is. *)
Theorem upgradeTwitterImage_idempotent (url : string) :
  upgradeTwitterImage (upgradeTwitterImage url) = upgradeTwitterImage url.
Proof.
  unfold upgradeTwitterImage at 2 3.
  destruct (Js.includes url "pbs.twimg.com/media") eqn:Hin;
    [| unfold upgradeTwitterImage; now rewrite Hin].
  unfold upgradeTwitterImage.
  match goal with |- context [if ?c then _ else _] => destruct c end; [| reflexivity].
  f_equal. unfold Js.splitHead.
  apply (takeWhile_app_stop _ _ "?" "format=jpg&name=4096x4096");
    [apply every_takeWhile | reflexivity].
Qed.

Example upgrade_example :
  upgradeTwitterImage "https://pbs.twimg.com/media/GE5xQ?format=jpg&name=small"
  = "https://pbs.twimg.com/media/GE5xQ?format=jpg&name=4096x4096".
Proof. vm_compute. reflexivity. Qed.

(** ** The image materialiser, further *)

Lemma fsWrites_app (t u : list Effect) : fsWrites (t ++ u) = fsWrites t ++ fsWrites u.
Proof. unfold fsWrites. apply bind_app. Qed.

(** What [imageToBase64] leaves and gives. *)
Lemma imageToBase64_uri env fuel (url : option string) w :
  fsWrites (trace (imageToBase64 env fuel url w).2) = fsWrites (trace w)
  /\ clock (imageToBase64 env fuel url w).2 = clock w
  /\ match (imageToBase64 env fuel url w).1 with
     | Resolved (Some uri) =>
         Js.startsWith uri "data:" = true /\ Js.includes uri ";base64," = true
     | _ => True
     end.
Proof.
  revert url w. induction fuel as [|fuel IH]; intros url w; simpl;
    destruct (Js.truthy url); simpl; auto.
  destruct (httpGet env w _ _) as [e|e|res]; simpl; auto.
  - now rewrite fsWrites_app, app_nil_r.
  - destruct (isRedirect res).
    + destruct (IH (location res)
                  (mkWorld (clock w)
                     (trace w ++ [NetGet (Js.startsWith (Js.orElse url "") "https")
                                    (Js.orElse url "")])))
        as (Hfs & Hclock & Huri).
      rewrite Hfs, Hclock. simpl. rewrite fsWrites_app, app_nil_r. auto.
    + destruct (body res) as [data|e]; simpl; rewrite fsWrites_app, app_nil_r; auto.
      split; [reflexivity |]. split; [reflexivity |]. split.
      * apply startsWith_self_app.
      * apply includes_later, includes_later, includes_here.
Qed.

Lemma inlineImages_Forall env fuel (P : string -> Prop) :
  (forall url w, match (imageToBase64 env fuel url w).1 with
                 | Resolved (Some uri) => P uri
                 | _ => True
                 end) ->
  forall urls w l w',
    inlineImages env fuel urls w = (Resolved l, w') -> Forall P l.
Proof.
  intros HP urls. induction urls as [|u urls IH]; intros w l w' H.
  - injection H as <- _. constructor.
  - cbn [inlineImages] in H. bind_inv H. bind_inv H. injection H as <- _.
    apply IH in Hstep0. specialize (HP u w). rewrite Hstep in HP. simpl in HP.
    destruct a as [[|c d]|]; auto.
Qed.

Lemma inlineImages_disk env fuel urls w :
  fsWrites (trace (inlineImages env fuel urls w).2) = fsWrites (trace w).
Proof.
  revert w. induction urls as [|u urls IH]; intros w; simpl; [reflexivity |].
  unfold bind at 1.
  pose proof (imageToBase64_uri env fuel u w) as (Hfs & _).
  destruct (imageToBase64 env fuel u w) as [[b|e|] w1]; simpl in *; auto.
  unfold bind. specialize (IH w1).
  destruct (inlineImages env fuel urls w1) as [[l|e|] w2]; simpl in *; congruence.
Qed.

(** X7.  Inlining never touches the disk, and what it gives are data
    URIs: this holds of [imageToBase64], for what it resolves to when
    it is not [null], and of the loop that inlines the images of a
    post, which keeps no more images than it is given addresses. *)
Theorem imageToBase64_data_uri env fuel (url : option string) (urls : list (option string)) w :
  (fsWrites (trace (imageToBase64 env fuel url w).2) = fsWrites (trace w)
   /\ match (imageToBase64 env fuel url w).1 with
      | Resolved (Some uri) =>
          Js.startsWith uri "data:" = true /\ Js.includes uri ";base64," = true
      | _ => True
      end)
  /\ fsWrites (trace (inlineImages env fuel urls w).2) = fsWrites (trace w)
  /\ match (inlineImages env fuel urls w).1 with
     | Resolved uris =>
         Forall (fun uri => Js.startsWith uri "data:" = true
                            /\ Js.includes uri ";base64," = true) uris
         /\ List.length uris <= List.length urls
     | _ => True
     end.
Proof.
  pose proof (imageToBase64_uri env fuel url w) as (Hfs & _ & Huri).
  split; [split; assumption |]. split; [apply inlineImages_disk |].
  destruct (inlineImages env fuel urls w) as [[uris|e|] w'] eqn:Hrun; simpl; auto.
  split; [| eapply inlineImages_length, Hrun].
  eapply inlineImages_Forall; [| exact Hrun].
  intros u w0. now pose proof (imageToBase64_uri env fuel u w0) as (_ & _ & H).
Qed.

Lemma every_get (q : ascii -> bool) (s : string) (k : nat) :
  Js.every q s = true ->
  match String.get k s with
  | Some c => q c = true
  | None => True
  end.
Proof.
  revert k. induction s as [|a s IH]; intros k Hs; simpl; [exact I |].
  simpl in Hs. apply andb_true_iff in Hs as [Ha Hs].
  destruct k; [exact Ha | now apply IH].
Qed.

Lemma b64Char_plain (n : N) : negb (Ascii.eqb (b64Char n) "<") = true.
Proof.
  unfold b64Char.
  pose proof (every_get (fun c => negb (Ascii.eqb c "<")) b64Alphabet (N.to_nat n) eq_refl) as H.
  destruct (String.get (N.to_nat n) b64Alphabet); [exact H | reflexivity].
Qed.

Lemma markupFree_base64 (s : string) : markupFree (base64 s) = true.
Proof.
  assert (H : forall n s, String.length s <= n -> markupFree (base64 s) = true).
  { intros n. induction n as [|n IH]; intros t Ht.
    - destruct t; [reflexivity | simpl in Ht; lia].
    - destruct t as [|a [|b [|c t]]]; unfold markupFree; simpl;
        rewrite ?b64Char_plain; simpl; try reflexivity.
      apply (IH t). simpl in Ht. lia. }
  now apply (H (String.length s)).
Qed.

(** An inline image holds no markup when its content type holds none. *)
Lemma imageToBase64_free env fuel (url : option string) w :
  plainContentTypes env ->
  match (imageToBase64 env fuel url w).1 with
  | Resolved (Some uri) => markupFree uri = true
  | _ => True
  end.
Proof.
  intros Henv. revert url w. induction fuel as [|fuel IH]; intros url w; simpl;
    destruct (Js.truthy url); simpl; auto.
  destruct (httpGet env w _ _) as [e|e|res] eqn:Hget; simpl; auto.
  destruct (isRedirect res); [apply IH |].
  destruct (body res) as [data|e]; simpl; auto.
  repeat apply markupFree_app; try reflexivity.
  - exact (Henv _ _ _ _ Hget).
  - apply markupFree_base64.
Qed.

(** X8.  When the content types the servers announce hold no markup,
    neither does an inline image, be it the one [imageToBase64]
    resolves to or one kept by the loop that inlines the images of a
    post: a data URI is its content type and base64 text. *)
Theorem imageToBase64_markupFree env fuel (url : option string) (urls : list (option string))
    w :
  plainContentTypes env ->
  match (imageToBase64 env fuel url w).1 with
  | Resolved (Some uri) => markupFree uri = true
  | _ => True
  end
  /\ match (inlineImages env fuel urls w).1 with
     | Resolved uris => Forall (fun uri => markupFree uri = true) uris
     | _ => True
     end.
Proof.
  intros Henv. split; [now apply imageToBase64_free |].
  destruct (inlineImages env fuel urls w) as [[uris|e|] w'] eqn:Hrun; simpl; auto.
  eapply inlineImages_Forall; [| exact Hrun].
  intros u w0. now apply imageToBase64_free.
Qed.

Lemma imageToBase64_markupFree_witness :
  plainContentTypes (answering notFound)
  /\ markupFree "data:text/html;base64,Tm90IEZvdW5k" = true.
Proof.
  assert (H : plainContentTypes (answering notFound))
    by (intros w secure url res [= <-]; reflexivity).
  split; [exact H |].
  exact (proj1 (imageToBase64_markupFree (answering notFound) 5
                  (Some "https://example.com/missing.png") [] world0 H)).
Defined.

(** X9.  [downloadImage] writes to no other path than the one it is
    given and resolves to nothing but [null] or that path; it resolves
    to the path only once the file has been created and written. *)
Theorem downloadImage_writes_its_path env fuel (url : option string) filepath w :
  exists k,
    k <= 2
    /\ fsWrites (trace (downloadImage env fuel url filepath w).2)
       = fsWrites (trace w) ++ replicate k filepath
    /\ match (downloadImage env fuel url filepath w).1 with
       | Resolved (Some path) => path = filepath /\ k = 2
       | _ => True
       end.
Proof.
  revert url w. induction fuel as [|fuel IH]; intros url w; simpl;
    destruct (Js.truthy url); simpl;
    try (exists 0; simpl; rewrite app_nil_r; split; [lia | auto]; fail).
  destruct (httpGet env w _ _) as [e|e|res]; simpl.
  - exists 0. simpl. rewrite app_nil_r. split; [lia | auto].
  - exists 0. rewrite fsWrites_app. simpl. split; [lia | auto].
  - destruct (isRedirect res).
    + destruct (IH (location res)
                  (mkWorld (clock w)
                     (trace w ++ [NetGet (Js.startsWith (Js.orElse url "") "https")
                                    (Js.orElse url "")])))
        as (k & Hk & Hfs & Hres).
      exists k. rewrite Hfs. simpl. rewrite fsWrites_app. simpl.
      rewrite app_nil_r. auto.
    + destruct (negb (statusCode res =? 200)%N); simpl.
      * exists 0. rewrite fsWrites_app. simpl. split; [lia | auto].
      * destruct (body res) as [data|e]; simpl.
        -- destruct (streamFinishes env _ filepath); simpl.
           ++ exists 2. rewrite !fsWrites_app. simpl.
              rewrite app_nil_r, <- app_assoc. auto.
           ++ exists 1. rewrite !fsWrites_app. simpl. rewrite app_nil_r.
              split; [lia | auto].
        -- exists 1. rewrite !fsWrites_app. simpl. rewrite app_nil_r.
           split; [lia | auto].
Qed.

Example download_resolves_to_its_path :
  downloadImage
    (answering (mkResponse 200 None (Some "image/png") (BodyEnd "PNG"))) 5
    (Some "https://cdn.example/a.png") "/out/a-image-1.png" world0
  = (Resolved (Some "/out/a-image-1.png"),
     mkWorld 1706472000000
       [NetGet true "https://cdn.example/a.png"; FsCreate "/out/a-image-1.png";
        FsWrite "/out/a-image-1.png" "PNG"]).
Proof. vm_compute. reflexivity. Qed.

(** X10.  [fetchJSON] never touches the disk, and it resolves only to
    what the body of an answer parses to: the answer to its last
    request, which is no redirection. *)
Theorem fetchJSON_parsed_body {A} env (parse : string -> option A) fuel url w :
  fsWrites (trace (fetchJSON env parse fuel url w).2) = fsWrites (trace w)
  /\ match (fetchJSON env parse fuel url w).1 with
     | Resolved v =>
         exists w0 target res data,
           httpGet env w0 (Js.startsWith target "https") target = Respond res
           /\ isRedirect res = false
           /\ body res = BodyEnd data
           /\ parse data = Some v
           /\ trace (fetchJSON env parse fuel url w).2
              = trace w0 ++ [NetGet (Js.startsWith target "https") target]
     | _ => True
     end.
Proof.
  revert url w. induction fuel as [|fuel IH]; intros url w; simpl; auto.
  destruct (httpGet env w _ _) as [e|e|res] eqn:Hget; simpl; auto.
  - now rewrite fsWrites_app, app_nil_r.
  - destruct (isRedirect res) eqn:Hredirect.
    + destruct (IH (Js.orElse (location res) "")
                  (mkWorld (clock w) (trace w ++ [NetGet (Js.startsWith url "https") url])))
        as (Hfs & Hres).
      rewrite Hfs. simpl. rewrite fsWrites_app, app_nil_r. auto.
    + destruct (body res) as [data|e] eqn:Hbody; simpl;
        [| now rewrite fsWrites_app, app_nil_r].
      destruct (parse data) as [v|] eqn:Hparse; simpl; rewrite fsWrites_app, app_nil_r;
        [| auto].
      split; [reflexivity |]. exists w, url, res, data. auto.
Qed.

(** ** The scrapers, further *)

Lemma bind_rejected_inv {A B} (m : Async A) (k : A -> Async B) w e w' :
  bind m k w = (Rejected e, w') ->
  m w = (Rejected e, w') \/ exists a w1, m w = (Resolved a, w1) /\ k a w1 = (Rejected e, w').
Proof.
  unfold bind. destruct (m w) as [[a|e0|] w1]; intros H; try discriminate.
  - right. exists a, w1. split; [reflexivity | exact H].
  - left. now injection H as -> ->.
Qed.

(** X11.  A rejection of [scrapeTwitter] is one of three: the address
    holds no [status/<digits>], and nothing has been done; the browser
    page could not be opened; or its message is that of the failure
    met while reading the tweet, behind [Could not fetch tweet: ]. *)
Theorem scrapeTwitter_rejections env fuel url w e w' :
  scrapeTwitter env fuel url w = (Rejected e, w') ->
  (statusId url = None /\ e = mkError "Invalid Twitter URL" /\ w' = w)
  \/ newPage env w = (Rejected e, w')
  \/ Js.startsWith (message e) "Could not fetch tweet: " = true.
Proof.
  unfold scrapeTwitter. destruct (statusId url) as [tweetId|].
  - intros H. apply bind_rejected_inv in H as [H|(u & w1 & _ & H)]; [auto |].
    right. right. unfold tryCatch in H.
    destruct (bind _ _ w1) as [[p|e0|] w2]; try discriminate.
    injection H as <- _. apply startsWith_self_app.
  - intros [= <- <-]. auto.
Qed.

Lemma scrapeTwitter_rejections_witness :
  scrapeTwitter (answering notFound) 5 "https://x.com/ada/status/1" world0
  = (Rejected (mkError "Could not fetch tweet: ECONNREFUSED"), world0)
  /\ Js.startsWith "Could not fetch tweet: ECONNREFUSED" "Could not fetch tweet: " = true.
Proof.
  assert (H : scrapeTwitter (answering notFound) 5 "https://x.com/ada/status/1" world0
              = (Rejected (mkError "Could not fetch tweet: ECONNREFUSED"), world0))
    by (vm_compute; reflexivity).
  split; [exact H |].
  destruct (scrapeTwitter_rejections _ _ _ _ _ _ H) as [(Hid & _)|[Hpage|Hmsg]].
  - discriminate.
  - discriminate.
  - exact Hmsg.
Defined.

Lemma inlineImages_data_uris env fuel urls w :
  match (inlineImages env fuel urls w).1 with
  | Resolved l => Forall (fun uri => Js.startsWith uri "data:" = true) l
  | _ => True
  end.
Proof.
  revert w. induction urls as [|u urls IH]; intros w; simpl; [constructor |].
  unfold bind at 1.
  pose proof (imageToBase64_uri env fuel u w) as (_ & _ & Huri).
  destruct (imageToBase64 env fuel u w) as [[b|e|] w1]; simpl in *; auto.
  unfold bind. specialize (IH w1).
  destruct (inlineImages env fuel urls w1) as [[l|e|] w2]; simpl in *; auto.
  destruct b as [[|a d]|]; auto. constructor; [apply Huri | exact IH].
Qed.



(** *** The text of a Mastodon post *)





Lemma unicodeSpaces_bytes :
  Forall (fun p => Js.every (fun c => spaceByte c && negb (Js.isSpace c)) p = true
                   /\ forall z, Js.spaceWidth (p +:+ z) = String.length p)
    Js.unicodeSpaces.
Proof.
  apply Forall_forall. intros p Hp. apply list_elem_of_In in Hp.
  unfold Js.unicodeSpaces in Hp. cbn in Hp.
  repeat (destruct Hp as [<- | Hp]; [split; [reflexivity | intros [|c z]; reflexivity] |]).
  destruct Hp.
Qed.


Lemma spaceWidth_S (s : string) (k : nat) :
  Js.spaceWidth s = S k ->
  exists p rest,
    s = p +:+ rest /\ String.length p = S k
    /\ Js.every spaceByte p = true
    /\ (forall z, Js.spaceWidth (p +:+ z) = S k).
Proof.
  destruct s as [|a s]; [discriminate |]. intros Hw.
  assert (Hw' := Hw). unfold Js.spaceWidth in Hw.
  destruct (Js.isSpace a) eqn:Ha.
  - injection Hw as <-. exists (String a ""), s. repeat split.
    + unfold spaceByte. simpl. now rewrite Ha.
    + intros z. rewrite app_cons. simpl. now rewrite Ha.
  - destruct (List.find _ _) as [p|] eqn:Hfind; [| discriminate].
    apply List.find_some in Hfind as [Hin Hstarts].
    apply startsWith_iff in Hstarts as (rest & Hrest).
    pose proof unicodeSpaces_bytes as Hall. rewrite List.Forall_forall in Hall.
    destruct (Hall p Hin) as [Hbytes Hwidth].
    exists p, rest. split; [exact Hrest |]. split; [exact Hw |]. split.
    + clear -Hbytes. induction p as [|c p IH]; [reflexivity |].
      simpl in *. apply andb_true_iff in Hbytes as [Hc Hp].
      apply andb_true_iff in Hc as [Hc _]. rewrite Hc. now apply IH.
    + intros z. now rewrite Hwidth.
Qed.

















Example clean_example :
  Js.trim (Js.collapseSpaces (Js.stripTags "<p>Hello,<br/>  <b>world</b> </p>"))
  = "Hello, world".
Proof. reflexivity. Qed.

Example clean_unicode :
  Js.trim (Js.collapseSpaces
             (Js.stripTags ("<p>Hello," +:+ Js.bytes [194; 160] +:+ " world"
                            +:+ Js.bytes [226; 128; 168] +:+ "</p>")))
  = "Hello, world".
Proof. vm_compute. reflexivity. Qed.



(** X14.  A Mastodon payload names its instance, the host of the
    address; its handle is [@<user>@<host>]; its author has a name; its
    inline images are data URIs, none without an original address. *)
Theorem scrapeMastodon_payload env fuel url w post w' :
  scrapeMastodon env fuel url w = (Resolved post, w') ->
  exists host pathname author name user,
    urlParts env url = Some (host, pathname)
    /\ Post.platform post = "mastodon"
    /\ Post.url post = url
    /\ Post.instance post = Some host
    /\ Post.author post = Some author
    /\ Author.name author = Some name /\ name <> ""
    /\ Author.handle author = Some ("@" +:+ user +:+ "@" +:+ host)
    /\ List.length (Post.images post) <= List.length (Post.originalImageUrls post)
    /\ Forall (fun uri => Js.startsWith uri "data:" = true) (Post.images post).
Proof.
  unfold scrapeMastodon.
  destruct (urlParts env url) as [[instance pathname]|]; [| discriminate].
  destruct (mastodonPostId pathname) as [postId|]; [| discriminate].
  intros H. repeat bind_inv H. injection H as <- _. simpl.
  match goal with
  | Hi : inlineImages env fuel ?l ?w0 = _ |- _ =>
      pose proof (inlineImages_data_uris env fuel l w0) as Huris;
      rewrite Hi in Huris; simpl in Huris; apply inlineImages_length in Hi
  end.
  eexists instance, pathname, _, _, _.
  repeat (split; [reflexivity |]).
  split; [| split; [reflexivity | split; assumption]].
  unfold Js.orElse.
  destruct (Masto.statusAccount a ≫= Masto.display_name) as [[|]|]; try discriminate;
    destruct (Masto.statusAccount a ≫= Masto.username) as [[|]|]; discriminate.
Qed.

Lemma scrapeMastodon_payload_witness :
  exists post w',
    scrapeMastodon fediverse 5 "https://social.example/@eve/42" world0 = (Resolved post, w')
    /\ (Post.author post ≫= Author.handle) = Some "@eve@social.example"
    /\ Post.instance post = Some "social.example".
Proof.
  eexists _, _. split; [vm_compute; reflexivity |].
  split; [reflexivity |].
  destruct (scrapeMastodon_payload fediverse 5 "https://social.example/@eve/42" world0 _ _
              ltac:(vm_compute; reflexivity))
    as (host & pathname & author & name & user & Hparts & _ & _ & Hinst & _).
  injection Hparts as <- _. exact Hinst.
Defined.

(** X15.  A Bluesky payload has an author with a name and a handle,
    neither empty, whatever the answer lacks; its inline images are data
    URIs, none without an original address. *)
Theorem formatBlueskyPost_payload env fuel bpost url w post w' :
  formatBlueskyPost env fuel bpost url w = (Resolved post, w') ->
  exists author name handle,
    Post.platform post = "bluesky"
    /\ Post.url post = url
    /\ Post.author post = Some author
    /\ Author.name author = Some name /\ name <> ""
    /\ Author.handle author = Some handle /\ handle <> ""
    /\ List.length (Post.images post) <= List.length (Post.originalImageUrls post)
    /\ Forall (fun uri => Js.startsWith uri "data:" = true) (Post.images post).
Proof.
  unfold formatBlueskyPost.
  intros H. repeat bind_inv H. injection H as <- _. simpl.
  match goal with
  | Hi : inlineImages env fuel ?l ?w0 = _ |- _ =>
      pose proof (inlineImages_data_uris env fuel l w0) as Huris;
      rewrite Hi in Huris; simpl in Huris; apply inlineImages_length in Hi
  end.
  eexists _, _, _.
  repeat (split; [reflexivity |]).
  split; [| split; [reflexivity | split; [| split; assumption]]].
  - unfold Js.orElse.
    destruct (Bsky.postAuthor bpost ≫= Bsky.displayName) as [[|]|]; try discriminate;
      destruct (Bsky.postAuthor bpost ≫= Bsky.handle) as [[|]|]; discriminate.
  - unfold Js.orElse.
    destruct (Bsky.postAuthor bpost ≫= Bsky.handle) as [[|]|]; discriminate.
Qed.

Lemma formatBlueskyPost_payload_witness :
  exists post w',
    formatBlueskyPost fediverse 5 postWithFiveImages "https://bsky.app/profile/eve.example/post/3k"
      world0 = (Resolved post, w')
    /\ (Post.author post ≫= Author.name) = Some "Eve"
    /\ List.length (Post.images post) <= List.length (Post.originalImageUrls post).
Proof.
  eexists _, _. split; [vm_compute; reflexivity |].
  split; [reflexivity |].
  destruct (formatBlueskyPost_payload fediverse 5 postWithFiveImages
              "https://bsky.app/profile/eve.example/post/3k" world0 _ _
              ltac:(vm_compute; reflexivity))
    as (author & name & handle & _ & _ & _ & _ & _ & _ & _ & Hlen & _).
  exact Hlen.
Defined.

(** ** The files of a capture *)

Lemma app_inj_l (s t1 t2 : string) : s +:+ t1 = s +:+ t2 -> t1 = t2.
Proof.
  induction s as [|a s IH]; [now rewrite !app_empty_l |].
  rewrite !app_cons. intros [= H]. now apply IH.
Qed.

Lemma every_isDigit_pretty_N_go (x : N) (s : string) :
  Js.every Js.isDigit s = true -> Js.every Js.isDigit (pretty_N_go x s) = true.
Proof.
  revert s. induction (N.lt_wf_0 x) as [x _ IH]; intros s Hs.
  destruct (decide (x = 0)%N) as [->|Hx]; [now rewrite pretty_N_go_0 |].
  rewrite pretty_N_go_step by lia. apply IH; [apply N.div_lt; lia |].
  simpl. rewrite Hs, andb_true_r.
  unfold pretty_N_char. repeat case_match; reflexivity.
Qed.

Lemma every_isDigit_pretty_N (x : N) : Js.every Js.isDigit (pretty x) = true.
Proof.
  unfold pretty, pretty_N. case_decide; [reflexivity |].
  now apply every_isDigit_pretty_N_go.
Qed.

Lemma every_isDigit_pretty_nat (n : nat) : Js.every Js.isDigit (pretty n) = true.
Proof. apply every_isDigit_pretty_N. Qed.

Lemma isDigit_plain (a : ascii) :
  Js.isDigit a = true -> notSlash a = true /\ notDot a = true.
Proof.
  destruct a as [[] [] [] [] [] [] [] []]; try discriminate; auto.
Qed.

Lemma isAlnum_plain (a : ascii) :
  Js.isAlnum a = true -> notSlash a = true /\ notDot a = true.
Proof.
  destruct a as [[] [] [] [] [] [] [] []]; try discriminate; auto.
Qed.

Lemma lastSegmentFrom_app (c : ascii) (acc s t : string) :
  Js.lastSegmentFrom c acc (s +:+ t) = Js.lastSegmentFrom c (Js.lastSegmentFrom c acc s) t.
Proof.
  revert acc. induction s as [|a s IH]; intros acc; [reflexivity |].
  rewrite app_cons. simpl. destruct (Ascii.eqb a c); apply IH.
Qed.

Lemma lastSegmentFrom_free (c : ascii) (acc t : string) :
  Js.every (fun a => negb (Ascii.eqb a c)) t = true ->
  Js.lastSegmentFrom c acc t = acc +:+ t.
Proof.
  revert acc. induction t as [|a t IH]; intros acc; simpl.
  - now rewrite app_empty_r.
  - intros [Ha Ht]%andb_true_iff. apply negb_true_iff in Ha. rewrite Ha, IH by exact Ht.
    now rewrite app_assoc_string.
Qed.

(** [path.basename(path.join(dir, name))] is [name], for a name with no
    slash. *)
Lemma basename_join (dir name : string) :
  Js.every notSlash name = true -> pathBasename (pathJoin dir name) = name.
Proof.
  intros Hname. unfold pathBasename, pathJoin, Js.splitPop.
  rewrite lastSegmentFrom_app. rewrite app_cons, app_empty_l. simpl.
  now apply lastSegmentFrom_free.
Qed.

Lemma replaceFirst_png (x : string) :
  Js.every notDot x = true -> Js.replaceFirst ".png" "" (x +:+ ".png") = x.
Proof.
  induction x as [|a x IH]; [reflexivity |].
  intros [Ha Hx]%andb_true_iff. apply negb_true_iff in Ha.
  rewrite app_cons. simpl. rewrite Ha. simpl. now rewrite IH.
Qed.

Lemma urlHash_plain (url : string) :
  Js.every notSlash (urlHash url) = true /\ Js.every notDot (urlHash url) = true.
Proof.
  assert (H : Js.every Js.isAlnum (urlHash url) = true)
    by apply every_slice0, every_keep.
  split; (eapply every_impl; [| exact H]); intros a Ha; now apply isAlnum_plain.
Qed.

Lemma pretty_plain (t : N) :
  Js.every notSlash (pretty t) = true /\ Js.every notDot (pretty t) = true.
Proof.
  split; (eapply every_impl; [| apply every_isDigit_pretty_N]);
    intros a Ha; now apply isDigit_plain.
Qed.

Lemma baseFilename_plain (p : Platform) (url : string) (t : N) :
  let base := platformTag p +:+ "-" +:+ urlHash url +:+ "-" +:+ pretty t in
  Js.replaceFirst ".png" "" (generateFilename url (platformTag p) t) = base
  /\ Js.every notSlash base = true.
Proof.
  intros base. pose proof (urlHash_plain url) as [Hs Hd].
  pose proof (pretty_plain t) as [Hts Htd].
  assert (Hp : Js.every notSlash (platformTag p) = true) by now destruct p.
  assert (Hq : Js.every notDot (platformTag p) = true) by now destruct p.
  split.
  - unfold generateFilename.
    replace (platformTag p +:+ "-" +:+ urlHash url +:+ "-" +:+ pretty t +:+ ".png")
      with (base +:+ ".png") by (unfold base; now rewrite !app_assoc_string).
    apply replaceFirst_png. unfold base.
    now rewrite !every_app, Hq, Hd, Htd.
  - unfold base. now rewrite !every_app, Hp, Hs, Hts.
Qed.

Lemma getImageExtension_plain (url : string) :
  In (getImageExtension url) imageExtensions
  /\ Js.every notSlash (getImageExtension url) = true.
Proof.
  assert (H : In (getImageExtension url) imageExtensions).
  { unfold getImageExtension.
    destruct (Js.firstMatch _ (Js.toLowerCase url)) as [ext|] eqn:Hdot.
    - apply firstMatch_some in Hdot as (t & Ht). cbv beta in Ht. revert Ht.
      destruct (Js.startsWith t "."); [| discriminate]. apply extensionAt_known.
    - clear Hdot.
      destruct (Js.firstMatch _ (Js.toLowerCase url)) as [ext|] eqn:Hformat.
      + apply firstMatch_some in Hformat as (t & Ht). cbv beta in Ht. revert Ht.
        destruct (Js.startsWith t "format="); [| discriminate]. apply extensionAt_known.
      + simpl. auto. }
  split; [exact H |].
  simpl in H. destruct H as [<-|[<-|[<-|[<-|[<-|[]]]]]]; reflexivity.
Qed.

Lemma imageName_plain (base : string) (k : nat) (url : string) :
  Js.every notSlash base = true ->
  Js.every notSlash (base +:+ "-image-" +:+ pretty k +:+ "." +:+ getImageExtension url) = true.
Proof.
  intros Hbase. rewrite !every_app, Hbase.
  rewrite (proj2 (getImageExtension_plain url)).
  rewrite (every_impl Js.isDigit notSlash (pretty k)); [reflexivity | |].
  - intros a Ha. now apply isDigit_plain.
  - apply every_isDigit_pretty_nat.
Qed.

Lemma imageName_inj (base : string) (k k' : nat) (ext ext' : string) :
  imageName base k ext = imageName base k' ext' -> k = k'.
Proof.
  unfold imageName. intros H. do 2 apply app_inj_l in H.
  change ("." +:+ ext) with (String "." ext) in H.
  change ("." +:+ ext') with (String "." ext') in H.
  apply separator_inj in H as [H _].
  - now apply (inj pretty) in H.
  - eapply every_impl; [| apply every_isDigit_pretty_nat]. intros a Ha.
    now apply isDigit_plain.
  - eapply every_impl; [| apply every_isDigit_pretty_nat]. intros a Ha.
    now apply isDigit_plain.
Qed.

Lemma imageNames_NoDup (base : string) (ks : list (nat * string)) :
  StronglySorted lt (ks.*1) -> NoDup ((fun p => imageName base p.1 p.2) <$> ks).
Proof.
  induction ks as [|[k ext] ks IH]; simpl; [constructor |].
  intros Hsorted. apply StronglySorted_inv in Hsorted as [Hks Hk].
  constructor; [| now apply IH].
  intros ([k' ext'] & Heq & Hin)%list_elem_of_fmap. simpl in Heq.
  apply imageName_inj in Heq as <-.
  rewrite Forall_forall in Hk. specialize (Hk k).
  assert (k < k); [| lia]. apply Hk. apply list_elem_of_fmap. now exists (k, ext').
Qed.

Section ArtifactFacts.
Variable stages : Stages.

Lemma downloadOriginals_names outputDir base i urls w l w' :
  Js.every notSlash base = true ->
  downloadOriginals stages outputDir base i urls w = (Resolved l, w') ->
  exists ks : list (nat * string),
    l = (fun p => imageName base p.1 p.2) <$> ks
    /\ Forall (fun p => i < p.1 <= i + List.length urls /\ In p.2 imageExtensions) ks
    /\ StronglySorted lt (ks.*1).
Proof.
  intros Hbase. revert i w l w'.
  induction urls as [|[u|] urls IH]; intros i w l w' H; cbn [downloadOriginals] in H.
  - injection H as <- _. exists []. repeat constructor.
  - bind_inv H. bind_inv H. injection H as <- _.
    apply IH in Hstep0 as (ks & -> & Hks & Hsorted).
    assert (Hks' : Forall (fun p => i < p.1 <= i + List.length (Some u :: urls)
                                    /\ In p.2 imageExtensions) ks).
    { eapply Forall_impl; [exact Hks |]. simpl. intros p [Hp Hin]. split; [lia | exact Hin]. }
    destruct (Js.truthy a); [| now exists ks].
    exists ((i + 1, getImageExtension u) :: ks). split; [| split].
    + simpl. f_equal. now apply basename_join, imageName_plain.
    + constructor; [| exact Hks']. simpl.
      split; [lia | apply getImageExtension_plain].
    + simpl. constructor; [exact Hsorted |].
      apply Forall_fmap. eapply Forall_impl; [exact Hks |]. simpl. intros p [Hp _]. lia.
  - discriminate.
Qed.

(** X16.  The files of a successful capture are named after one base,
    [<platform>-<fragment>-<milliseconds>]: the card is
    [<base>-card.png], the metadata [<base>-metadata.json], and every
    image [<base>-image-<k>.<ext>] with [k] from 1 and a known
    extension.  Whatever the output directory, the names hold no
    directory, and no two of them are the same.  The author is never
    the empty text. *)
Theorem processUrl_artifact_names url index total outputDir options w
    u card images meta author w' :
  processUrl stages url index total outputDir options w
  = (Resolved (Success u card images meta author), w') ->
  exists (t : N) (ks : list (nat * string)),
    let base := platformTag (detectPlatform url) +:+ "-" +:+ urlHash url +:+ "-" +:+ pretty t in
    u = url
    /\ author <> ""
    /\ card = base +:+ "-card.png"
    /\ meta = base +:+ "-metadata.json"
    /\ images = (fun p => imageName base p.1 p.2) <$> ks
    /\ Forall (fun p => 1 <= p.1 /\ In p.2 imageExtensions) ks
    /\ Forall (fun name => Js.every notSlash name = true) (card :: meta :: images)
    /\ NoDup (card :: meta :: images).
Proof.
  destruct (decide (detectPlatform url = Unknown)) as [Hp|Hp].
  { rewrite processUrl_unknown by exact Hp. discriminate. }
  rewrite processUrl_known by exact Hp. unfold tryCatch.
  destruct (capture _ _ _ _ _ _ _) as [[r|e|] w1] eqn:Hcap; [| | discriminate].
  2: { unfold bind, consoleLog, emit, ret. simpl. discriminate. }
  intros [= -> <-]. unfold capture in Hcap.
  bind_inv Hcap. bind_inv Hcap. injection Hstep0 as <- <-.
  pose proof (baseFilename_plain (detectPlatform url) url (clock w0)) as [Hbase Hplain].
  cbv zeta in Hbase, Hplain. rewrite Hbase in Hcap.
  do 7 bind_inv Hcap. injection Hcap as <- <- <- <- <-.
  apply downloadOriginals_names in Hstep1 as (ks & -> & Hks & Hsorted); [| exact Hplain].
  exists (clock w0), ks. cbv zeta.
  set (base := platformTag (detectPlatform url) +:+ "-" +:+ urlHash url +:+ "-"
               +:+ pretty (clock w0)) in *.
  assert (Hcard : Js.every notSlash (base +:+ "-card.png") = true)
    by now rewrite every_app, Hplain.
  assert (Hmeta : Js.every notSlash (base +:+ "-metadata.json") = true)
    by now rewrite every_app, Hplain.
  rewrite !basename_join by assumption.
  split; [reflexivity |]. split.
  { unfold Js.orElse. destruct (dataAuthor a ≫= Author.name) as [[|]|]; try discriminate;
      destruct (dataSiteName a) as [[|]|]; discriminate. }
  do 3 (split; [reflexivity |]). split.
  { eapply Forall_impl; [exact Hks |]. simpl. intros p [Hp' Hin]. split; [lia | exact Hin]. }
  split.
  { do 2 (constructor; [assumption |]). apply Forall_fmap.
    eapply Forall_impl; [exact Hks |]. simpl. intros p [_ Hin]. unfold imageName.
    rewrite !every_app, Hplain. simpl.
    rewrite (every_impl Js.isDigit notSlash (pretty p.1));
      [| intros c Hc; now apply isDigit_plain | apply every_isDigit_pretty_nat].
    simpl in Hin. destruct Hin as [<-|[<-|[<-|[<-|[<-|[]]]]]]; reflexivity. }
  assert (Hother : forall suffix, (suffix = "-card.png" \/ suffix = "-metadata.json") ->
            base +:+ suffix ∉ (fun p => imageName base p.1 p.2) <$> ks).
  { intros suffix Hsuffix ([k ext] & Heq & _)%list_elem_of_fmap.
    unfold imageName in Heq. apply app_inj_l in Heq.
    rewrite !app_cons in Heq. destruct Hsuffix as [-> | ->]; discriminate. }
  constructor; [| constructor; [apply Hother; auto | now apply imageNames_NoDup]].
  intros [Heq | Hin]%elem_of_cons; [| revert Hin; apply Hother; auto].
  apply app_inj_l in Heq. discriminate.
Qed.

End ArtifactFacts.

Lemma processUrl_artifact_names_witness :
  processUrl fediverseStages "https://social.example/@eve/42" 0 1 "/out" demoOptions world0
  = (Resolved (Success "https://social.example/@eve/42"
                 "mastodon-42-1706472000000-card.png"
                 ((fun k => "mastodon-42-1706472000000-image-" +:+ k +:+ ".png")
                  <$> ["1"; "2"; "3"; "4"; "5"])
                 "mastodon-42-1706472000000-metadata.json" "Eve"),
     (processUrl fediverseStages "https://social.example/@eve/42" 0 1 "/out" demoOptions
        world0).2)
  /\ NoDup ("mastodon-42-1706472000000-card.png"
            :: "mastodon-42-1706472000000-metadata.json"
            :: ((fun k => "mastodon-42-1706472000000-image-" +:+ k +:+ ".png")
                <$> ["1"; "2"; "3"; "4"; "5"])).
Proof.
  assert (H : processUrl fediverseStages "https://social.example/@eve/42" 0 1 "/out"
                demoOptions world0
              = (Resolved (Success "https://social.example/@eve/42"
                             "mastodon-42-1706472000000-card.png"
                             ((fun k => "mastodon-42-1706472000000-image-" +:+ k +:+ ".png")
                              <$> ["1"; "2"; "3"; "4"; "5"])
                             "mastodon-42-1706472000000-metadata.json" "Eve"),
                 (processUrl fediverseStages "https://social.example/@eve/42" 0 1 "/out"
                    demoOptions world0).2))
    by (vm_compute; reflexivity).
  split; [exact H |].
  destruct (processUrl_artifact_names _ _ _ _ _ _ _ _ _ _ _ _ _ H)
    as (t & ks & _ & _ & _ & _ & _ & _ & _ & Hdistinct).
  exact Hdistinct.
Defined.

(** ** Batches *)

Lemma waves_stuck stages fuel urls outputDir options : forall i results w,
  i < List.length urls ->
  waves stages fuel urls outputDir 0 options i results w = (Pending, w).
Proof.
  induction fuel as [|fuel IH]; intros i results w Hi; simpl;
    (destruct (i <? List.length urls)%nat eqn:Hlt; [| apply Nat.ltb_ge in Hlt; lia]).
  - reflexivity.
  - unfold bind, promiseAll. simpl. apply IH. lia.
Qed.

(** X17.  The two degenerate batches.  An empty batch resolves at once
    to no result, without any effect, whatever the concurrency.  With a
    concurrency of zero a batch that is not empty never resolves, and
    does nothing at all: the loop does not advance, and no URL is ever
    processed. *)
Theorem processInParallel_degenerate stages fuel urls outputDir concurrency options w :
  (urls = [] ->
   processInParallel stages fuel urls outputDir concurrency options w = (Resolved [], w))
  /\ (urls <> [] -> concurrency = 0 ->
      processInParallel stages fuel urls outputDir concurrency options w = (Pending, w)).
Proof.
  split.
  - intros ->. unfold processInParallel. now destruct fuel.
  - intros Hne ->. apply waves_stuck. destruct urls; [now destruct Hne | simpl; lia].
Qed.

Lemma processInParallel_degenerate_witness :
  processInParallel demoStages 7 [] "/out" 2 demoOptions world0 = (Resolved [], world0)
  /\ processInParallel demoStages 7 demoUrls "/out" 0 demoOptions world0 = (Pending, world0).
Proof.
  split.
  - now apply (processInParallel_degenerate demoStages 7 [] "/out" 2 demoOptions world0).
  - now apply (processInParallel_degenerate demoStages 7 demoUrls "/out" 0 demoOptions world0).
Defined.

(** X18.  The direct processing of a single URL and the scheduler
    agree: for one URL, a concurrency of at least one and one wave of
    fuel, [processInParallel] does what the special case does, with the
    same result and the same effects. *)
Theorem runBatch_single_consistent stages fuel url outputDir parallel options w :
  1 <= fuel -> 1 <= parallel ->
  processInParallel stages fuel [url] outputDir parallel options w
  = runBatch stages fuel [url] outputDir parallel options w.
Proof.
  intros Hfuel Hparallel.
  destruct fuel as [|fuel]; [lia |]. destruct parallel as [|c]; [lia |].
  unfold runBatch, processInParallel. cbn [waves List.length Nat.ltb Nat.leb drop take imap].
  rewrite take_nil. cbn [imap]. change (0 + 0) with 0.
  generalize (processUrl stages url 0 1 outputDir options). intros p.
  unfold bind, promiseAll. cbn [startAll].
  destruct (p w) as [[r|e|] w1]; cbn [allSettled]; try reflexivity.
  destruct fuel; reflexivity.
Qed.

Lemma runBatch_single_consistent_witness :
  processInParallel demoStages 1 ["https://x.com/ada/status/1"] "/out" 3 demoOptions world0
  = runBatch demoStages 1 ["https://x.com/ada/status/1"] "/out" 3 demoOptions world0.
Proof.
  apply (runBatch_single_consistent demoStages 1 "https://x.com/ada/status/1" "/out" 3
           demoOptions world0); lia.
Defined.

Lemma filter_partition_length {A} (p : A -> bool) (l : list A) :
  List.length (List.filter p l) + List.length (List.filter (fun a => negb (p a)) l)
  = List.length l.
Proof.
  induction l as [|a l IH]; simpl; [reflexivity |].
  destruct (p a); simpl; lia.
Qed.

(** X19.  A batch whose stages settle resolves to one result per URL,
    in the order of the URLs, and its totals add up: the successful and
    the failed results are as many as the URLs.  A single URL needs no
    concurrency; several need one of at least one. *)
Theorem runBatch_totals stages fuel urls outputDir parallel options w :
  StagesSettle stages ->
  List.length urls = 1 \/ 1 <= parallel ->
  List.length urls <= fuel ->
  exists rs w',
    runBatch stages fuel urls outputDir parallel options w = (Resolved rs, w')
    /\ resultUrl <$> rs = urls
    /\ successful (totals urls rs) + failed (totals urls rs) = totalUrls (totals urls rs)
    /\ imagesSaved rs
       = foldl (fun sum r =>
                  sum + match r with
                        | Success _ _ imageFilenames _ _ => List.length imageFilenames
                        | Failure _ _ => 0
                        end) 0 rs.
Proof.
  intros Hsettle Hparallel Hfuel.
  assert (Hrun : exists rs w',
             runBatch stages fuel urls outputDir parallel options w = (Resolved rs, w')
             /\ resultUrl <$> rs = urls).
  { destruct urls as [|url [|url' rest]].
    - exists [], w. split; [| reflexivity]. unfold runBatch, processInParallel.
      now destruct fuel.
    - destruct (processUrl_resolves stages Hsettle url 0 1 outputDir options w)
        as (r & w' & Hr).
      exists [r], w'. unfold runBatch, bind. rewrite Hr. split; [reflexivity |].
      simpl. f_equal. eapply processUrl_resultUrl, Hr.
    - assert (Hc : 1 <= parallel) by (destruct Hparallel as [H|H]; [discriminate | exact H]).
      destruct (scheduler_spec stages Hsettle (url :: url' :: rest) outputDir options
                  parallel fuel w Hc Hfuel) as (rs & w' & Hrs & _ & Hlen & Hpos).
      exists rs, w'. split; [exact Hrs |].
      apply list_eq. intros i. rewrite list_lookup_fmap.
      destruct ((url :: url' :: rest) !! i) as [u|] eqn:Hi.
      + destruct (Hpos i u Hi) as (r & _ & _ & -> & _ & Hu). simpl. now rewrite Hu.
      + apply lookup_ge_None in Hi.
        rewrite lookup_ge_None_2; [reflexivity | rewrite Hlen; exact Hi]. }
  destruct Hrun as (rs & w' & Hrun & Hurls).
  exists rs, w'. split; [exact Hrun |]. split; [exact Hurls |]. split.
  - unfold totals. simpl. rewrite filter_partition_length.
    rewrite <- Hurls. now rewrite length_fmap.
  - unfold imagesSaved. clear.
    match goal with |- foldl ?g 0 _ = _ => set (f := g) end. generalize 0.
    induction rs as [|[u e|u c i m a] rs IH]; intros n; [reflexivity | |];
      cbn [List.filter success foldl].
    + rewrite IH. now replace (f n (Failure u e)) with n by (unfold f; lia).
    + apply IH.
Qed.

Lemma runBatch_totals_witness :
  exists rs w',
    runBatch demoStages 3 demoUrls "/out" 2 demoOptions world0 = (Resolved rs, w')
    /\ totals demoUrls rs = mkTotals 3 1 2
    /\ successful (totals demoUrls rs) + failed (totals demoUrls rs)
       = totalUrls (totals demoUrls rs).
Proof.
  eexists _, _. split; [vm_compute; reflexivity |]. split; [reflexivity |].
  destruct (runBatch_totals demoStages 3 demoUrls "/out" 2 demoOptions world0
              demoStages_settle (or_intror (le_S 1 1 (le_n 1))) (le_n 3))
    as (rs & w' & Hrun & _ & Hsum & _).
  vm_compute in Hrun. injection Hrun as <- _. exact Hsum.
Defined.

(** ** The command line *)

Lemma startsWith_http_not_option (arg : string) :
  Js.startsWith arg "http" = true ->
  String.eqb arg "--file" = false /\ String.eqb arg "--output" = false
  /\ String.eqb arg "--thread" = false /\ String.eqb arg "--bento" = false
  /\ String.eqb arg "--parallel" = false /\ Js.startsWith arg "#" = false /\ arg <> "".
Proof.
  destruct arg as [|a arg]; [discriminate |]. simpl.
  intros [Ha _]%andb_true_iff. apply Ascii.eqb_eq in Ha as ->. simpl.
  repeat split; discriminate.
Qed.

Lemma parseArgsFrom_spec env resolve skip result args :
  exists extra,
    Config.urls (parseArgsFrom env resolve skip result args) = Config.urls result ++ extra
    /\ extra `sublist_of` args
    /\ Forall (fun u => Js.startsWith u "http" = true) extra
    /\ (Config.parallel result <> 0%Z ->
        Config.parallel (parseArgsFrom env resolve skip result args) <> 0%Z).
Proof.
  revert skip result. induction args as [|arg rest IH]; intros skip result.
  - exists []. simpl. rewrite app_nil_r. repeat split; auto.
  - cbn [parseArgsFrom].
    assert (Hskip : forall b r,
              Config.urls r = Config.urls result ->
              (Config.parallel result <> 0%Z -> Config.parallel r <> 0%Z) ->
              exists extra,
                Config.urls (parseArgsFrom env resolve b r rest) = Config.urls result ++ extra
                /\ extra `sublist_of` arg :: rest
                /\ Forall (fun u => Js.startsWith u "http" = true) extra
                /\ (Config.parallel result <> 0%Z ->
                    Config.parallel (parseArgsFrom env resolve b r rest) <> 0%Z)).
    { intros b r Hurls Hpar. destruct (IH b r) as (extra & Hextra & Hsub & Hhttp & Hp).
      exists extra. rewrite Hextra, Hurls. repeat split; auto. now constructor. }
    destruct skip; [apply Hskip; auto |].
    repeat match goal with
           | |- context [if ?c then _ else _] =>
               lazymatch c with
               | Js.startsWith arg "http" => fail
               | _ => destruct c; [apply Hskip; simpl; auto |]
               end
           end.
    { intros _. destruct (parseInt env _) as [n|]; [| discriminate].
      destruct (n =? 0)%Z eqn:Hn; [discriminate | now apply Z.eqb_neq in Hn]. }
    destruct (Js.startsWith arg "http") eqn:Harg; [| apply Hskip; auto].
    edestruct IH as (extra & Hextra & Hsub & Hhttp & Hp).
    exists (arg :: extra). rewrite Hextra. simpl. rewrite <- app_assoc. simpl.
    repeat split; auto. now constructor.
Qed.

Lemma parseArgsFrom_addresses env resolve result args :
  Forall (fun a => Js.startsWith a "http" = true) args ->
  parseArgsFrom env resolve false result args
  = Config.mk (Config.urls result ++ args) (Config.file result) (Config.output result)
      (Config.parallel result) (Config.thread result) (Config.bento result).
Proof.
  intros Hargs. revert result. induction Hargs as [|arg rest Harg _ IH]; intros result.
  - simpl. rewrite app_nil_r. now destruct result.
  - cbn [parseArgsFrom].
    destruct (startsWith_http_not_option arg Harg) as (-> & -> & -> & -> & -> & _).
    simpl. rewrite Harg, IH. simpl. now rewrite <- app_assoc.
Qed.

(** X20.  What [parseArgs] reads from a command line.  Its URLs are
    arguments of the line, in their order, and each starts with [http];
    its concurrency is never zero, whatever follows [--parallel]; and a
    line made of addresses only gives these addresses with the default
    settings. *)
Theorem parseArgs_urls env resolve dir (args : list string) :
  Config.urls (parseArgs env resolve dir args) `sublist_of` args
  /\ Forall (fun u => Js.startsWith u "http" = true) (Config.urls (parseArgs env resolve dir args))
  /\ Config.parallel (parseArgs env resolve dir args) <> 0%Z
  /\ (Forall (fun a => Js.startsWith a "http" = true) args ->
      parseArgs env resolve dir args = Config.mk args None dir 3 false false).
Proof.
  unfold parseArgs.
  destruct (parseArgsFrom_spec env resolve false
              (Config.mk [] None dir DEFAULT_PARALLEL false false) args)
    as (extra & Hextra & Hsub & Hhttp & Hp).
  rewrite Hextra. simpl in *.
  split; [exact Hsub |]. split; [exact Hhttp |]. split; [apply Hp; discriminate |].
  intros Hargs. now rewrite parseArgsFrom_addresses.
Qed.

Lemma parseArgs_urls_witness :
  parseArgs twitterEmbed (fun p => "/home/ada/" +:+ p) "/app/screenshots"
    ["https://x.com/ada/status/1"; "https://bsky.app/profile/eve.example/post/3k"]
  = Config.mk ["https://x.com/ada/status/1"; "https://bsky.app/profile/eve.example/post/3k"]
      None "/app/screenshots" 3 false false.
Proof.
  apply (parseArgs_urls twitterEmbed (fun p => "/home/ada/" +:+ p) "/app/screenshots").
  repeat constructor.
Defined.

(** The value of an option is not taken as a URL, and a count that
    cannot be read, or is zero, gives the default concurrency. *)
Example parseArgs_options :
  parseArgs twitterEmbed (fun p => "/home/ada/" +:+ p) "/app/screenshots"
    ["--output"; "http"; "--parallel"; "0"; "--bento"; "https://x.com/ada/status/1";
     "--file"]
  = Config.mk ["https://x.com/ada/status/1"] None "/home/ada/http" 3 false true.
Proof. reflexivity. Qed.

Lemma trimEnd_split (s : string) :
  exists t, s = Js.trimEnd s +:+ t /\ (t = "" \/ Js.allSpacesFrom 0 t = true).
Proof.
  induction s as [|a s (t & Hs & Ht)]; [exists ""; auto |].
  cbn [Js.trimEnd]. destruct (Js.allSpacesFrom 0 (String a s)) eqn:Hall.
  - exists (String a s). auto.
  - exists t. rewrite app_cons, <- Hs. auto.
Qed.

Lemma allSpacesFrom_app (x y : string) : forall k,
  Js.allSpacesFrom k x = true -> Js.allSpacesFrom 0 y = true ->
  Js.allSpacesFrom k (x +:+ y) = true.
Proof.
  induction x as [|a x IH]; intros k Hx Hy.
  - simpl in Hx. apply Nat.eqb_eq in Hx as ->. now rewrite app_empty_l.
  - rewrite app_cons. cbn [Js.allSpacesFrom] in *. destruct k as [|k]; [| now apply IH].
    destruct (Js.spaceWidth (String a x)) as [|j] eqn:Hw; [discriminate |].
    apply spaceWidth_S in Hw as (p & rest & Hp & _ & _ & Hwidth).
    rewrite <- app_cons, Hp, app_assoc_string, Hwidth. now apply IH.
Qed.

Lemma trimEnd_idempotent (s : string) : Js.trimEnd (Js.trimEnd s) = Js.trimEnd s.
Proof.
  induction s as [|a s IH]; [reflexivity |].
  cbn [Js.trimEnd]. destruct (Js.allSpacesFrom 0 (String a s)) eqn:Hall; [reflexivity |].
  cbn [Js.trimEnd]. rewrite IH.
  destruct (Js.allSpacesFrom 0 (String a (Js.trimEnd s))) eqn:Hcut; [| reflexivity].
  destruct (trimEnd_split s) as (t & Hs & [-> | Ht]).
  - rewrite app_empty_r in Hs. rewrite <- Hs in Hcut. congruence.
  - pose proof (allSpacesFrom_app _ _ 0 Hcut Ht) as H.
    rewrite app_cons, <- Hs in H. congruence.
Qed.

Lemma trimStartFrom_head (s : string) : forall k,
  Js.trimStartFrom k s = "" \/ Js.spaceWidth (Js.trimStartFrom k s) = 0.
Proof.
  induction s as [|a s IH]; intros k; [now left |].
  cbn [Js.trimStartFrom]. destruct k as [|k]; [| apply IH].
  destruct (Js.spaceWidth (String a s)) eqn:Hw; [now right | apply IH].
Qed.

Lemma spaceWidth_prefix (x y : string) :
  Js.spaceWidth (x +:+ y) = 0 -> Js.spaceWidth x = 0.
Proof.
  intros H. destruct (Js.spaceWidth x) as [|j] eqn:Hw; [reflexivity |].
  apply spaceWidth_S in Hw as (p & rest & -> & _ & _ & Hwidth).
  rewrite app_assoc_string, Hwidth in H. discriminate.
Qed.

Lemma trim_idempotent (s : string) : Js.trim (Js.trim s) = Js.trim s.
Proof.
  unfold Js.trim, Js.trimStart.
  destruct (Js.trimEnd (Js.trimStartFrom 0 s)) as [|a z] eqn:Hz; [reflexivity |].
  assert (Hstart : Js.trimStartFrom 0 (String a z) = String a z).
  { destruct (trimEnd_split (Js.trimStartFrom 0 s)) as (t & Hs & _).
    rewrite Hz in Hs.
    destruct (trimStartFrom_head s 0) as [H0 | H0]; [rewrite H0 in Hs; discriminate |].
    rewrite Hs in H0. apply spaceWidth_prefix in H0.
    cbn [Js.trimStartFrom]. now rewrite H0. }
  rewrite Hstart, <- Hz. apply trimEnd_idempotent.
Qed.

Lemma splitFrom_line (c : ascii) (acc u rest : string) :
  Js.every (fun a => negb (Ascii.eqb a c)) u = true ->
  splitFrom c acc (u +:+ String c rest) = (acc +:+ u) :: splitFrom c "" rest.
Proof.
  revert acc. induction u as [|a u IH]; intros acc.
  - intros _. rewrite app_empty_l, app_empty_r. simpl. now rewrite Ascii.eqb_refl.
  - intros [Ha Hu]%andb_true_iff. apply negb_true_iff in Ha.
    rewrite app_cons. simpl. rewrite Ha, IH by exact Hu.
    now rewrite app_assoc_string.
Qed.

Lemma splitFrom_unlines (l : list string) :
  Forall cleanUrl l -> splitFrom newline "" (unlines l) = l ++ [""].
Proof.
  induction 1 as [|u l (_ & _ & Hu) _ IH]; [reflexivity |].
  unfold unlines. rewrite fmap_cons, join_cons, app_assoc_string.
  rewrite app_cons, app_empty_l, splitFrom_line by exact Hu.
  rewrite app_empty_l. simpl. f_equal. exact IH.
Qed.

(** X21.  The URLs read from a file are lines of it, trimmed: each
    starts with [http] and has no white space around it; blank lines,
    comments and other lines are left out.  A file written with one
    clean address per line is read back as these addresses, in order. *)
Theorem urlsOfFile_round_trip (content : string) (l : list string) :
  Forall (fun u => Js.startsWith u "http" = true /\ Js.trim u = u) (urlsOfFile content)
  /\ urlsOfFile content `sublist_of` (Js.trim <$> splitFrom newline "" content)
  /\ (Forall cleanUrl l -> urlsOfFile (unlines l) = l).
Proof.
  split; [| split].
  - unfold urlsOfFile. apply Forall_forall. intros u Hu.
    apply list_elem_of_In, List.filter_In in Hu as [Hin Hp].
    apply andb_true_iff in Hp as [_ Hhttp]. split; [exact Hhttp |].
    apply list_elem_of_In, list_elem_of_fmap in Hin as (line & -> & _).
    apply trim_idempotent.
  - unfold urlsOfFile. generalize (Js.trim <$> splitFrom newline "" content).
    intros lines. induction lines as [|x lines IH]; simpl; [constructor |].
    destruct (_ && _); now constructor.
  - intros Hl. unfold urlsOfFile. rewrite splitFrom_unlines by exact Hl.
    rewrite fmap_app, List.filter_app. simpl. rewrite app_nil_r.
    induction Hl as [|u l (Hhttp & Htrim & _) _ IH]; [reflexivity |].
    rewrite fmap_cons. cbn [List.filter]. rewrite Htrim, Hhttp.
    destruct (startsWith_http_not_option u Hhttp) as (_ & _ & _ & _ & _ & -> & Hne).
    destruct u; [now destruct Hne |]. simpl. now rewrite IH.
Qed.

Lemma urlsOfFile_round_trip_witness :
  urlsOfFile (unlines ["https://x.com/ada/status/1"; "http://example.org/a b"])
  = ["https://x.com/ada/status/1"; "http://example.org/a b"].
Proof.
  apply (urlsOfFile_round_trip "" ["https://x.com/ada/status/1"; "http://example.org/a b"]).
  repeat constructor.
Defined.

Example urlsOfFile_example :
  urlsOfFile ("# my list" +:+ String newline ("  https://x.com/ada/status/1  "
              +:+ String newline (String newline ("ftp://example.org"
              +:+ String newline "http://example.org/post"))))
  = ["https://x.com/ada/status/1"; "http://example.org/post"].
Proof. reflexivity. Qed.

(** A byte order mark before the first address and a no-break space
    after an address are white space: they are trimmed. *)
Example urlsOfFile_unicode :
  urlsOfFile (Js.bytes [239; 187; 191] +:+ "https://x.com/ada/status/1"
              +:+ String newline ("http://example.org/post" +:+ Js.bytes [194; 160]))
  = ["https://x.com/ada/status/1"; "http://example.org/post"].
Proof. vm_compute. reflexivity. Qed.

(** ** Bluesky and conversations *)

Lemma tryCatch_wrapped {A} (m : Async A) (prefix : string) w :
  match (tryCatch m (fun e => throw (mkError (prefix +:+ message e))) w).1 with
  | Rejected e => Js.startsWith (message e) prefix = true
  | Resolved a => exists w', m w = (Resolved a, w')
  | Pending => True
  end.
Proof.
  unfold tryCatch. destruct (m w) as [[a|e|] w1]; simpl; eauto.
  apply startsWith_self_app.
Qed.

(** X22.  What [scrapeBluesky] settles to.  It is rejected with
    [Invalid Bluesky URL] exactly when the address holds no
    [profile/<handle>/post/<id>]; every other rejection carries a
    message that starts with [Could not fetch Bluesky post: ]; and what
    it resolves to is a payload made by [formatBlueskyPost] for the
    address given. *)
Theorem scrapeBluesky_outcomes env fuel parseThread parseResolve encode url w :
  match (scrapeBluesky env fuel parseThread parseResolve encode url w).1 with
  | Rejected e =>
      (blueskyPostRef url = None /\ e = mkError "Invalid Bluesky URL")
      \/ (blueskyPostRef url <> None
          /\ Js.startsWith (message e) "Could not fetch Bluesky post: " = true)
  | Resolved data =>
      blueskyPostRef url <> None
      /\ Post.platform data = "bluesky" /\ Post.url data = url
      /\ exists post w1 w2, formatBlueskyPost env fuel post url w1 = (Resolved data, w2)
  | Pending => blueskyPostRef url <> None
  end.
Proof.
  unfold scrapeBluesky. destruct (blueskyPostRef url) as [[handle postId]|]; [| simpl; auto].
  match goal with
  | |- context [tryCatch ?m ?h w] =>
      pose proof (tryCatch_wrapped m "Could not fetch Bluesky post: " w) as H;
      change (fun e => throw (mkError ("Could not fetch Bluesky post: " +:+ message e)))
        with h in H;
      destruct (tryCatch m h w) as [[data|e|] w'] eqn:Hrun
  end; simpl in *.
  - destruct H as (w2 & H). split; [discriminate |].
    assert (Hformat : exists post w1 w3,
               formatBlueskyPost env fuel post url w1 = (Resolved data, w3)).
    { bind_inv H. destruct a as [d|].
      - injection H as -> ->.
        destruct (Js.includes handle ".ap.brid.gy"); [| discriminate].
        unfold tryCatch in Hstep.
        destruct (bind _ _ w) as [[b|e|] w3] eqn:Hdirect; try discriminate.
        injection Hstep as -> ->. bind_inv Hdirect.
        destruct a as [p|]; [| discriminate].
        bind_inv Hdirect. injection Hdirect as -> ->. eauto.
      - bind_inv H. destruct a as [did|]; [| discriminate].
        bind_inv H. destruct a as [p|]; [| discriminate]. eauto. }
    destruct Hformat as (post & w1 & w3 & Hformat). split; [| split]; [| | eauto].
    + unfold formatBlueskyPost in Hformat. repeat bind_inv Hformat.
      now injection Hformat as <- _.
    + unfold formatBlueskyPost in Hformat. repeat bind_inv Hformat.
      now injection Hformat as <- _.
  - right. split; [discriminate | exact H].
  - discriminate.
Qed.

(** A bridged account whose direct request fails is resolved like any
    other handle. *)
Example scrapeBluesky_bridged_falls_through :
  let parseThread := fun _ : string => Some (Some (Some postWithFiveImages)) in
  let parseResolve := fun _ : string => Some (Some (Some "did:plc:eve")) in
  let env :=
    mkEnv
      (fun _ _ url =>
         if Js.includes url "uri=at://"
         then RequestError anError
         else Respond (mkResponse 200 None (Some "image/png") (BodyEnd "PNG")))
      (fun _ _ => true) (fun _ => None) (fun _ => None) (fun _ => None)
      (fun _ => throw anError) (ret tt) (fun _ => None) (fun _ => "") in
  let run :=
    scrapeBluesky env 5 parseThread parseResolve (fun s => Js.replaceAll "/" "%2F" s)
      "https://bsky.app/profile/eve.example.ap.brid.gy/post/3k" world0 in
  (exists data, run.1 = Resolved data /\ List.length (Post.images data) = 5)
  /\ take 3 (netRequests (trace run.2))
     = ["https://public.api.bsky.app/xrpc/app.bsky.feed.getPostThread?uri=at://eve.example.ap.brid.gy/app.bsky.feed.post/3k&depth=0";
        "https://public.api.bsky.app/xrpc/com.atproto.identity.resolveHandle?handle=eve.example.ap.brid.gy";
        "https://public.api.bsky.app/xrpc/app.bsky.feed.getPostThread?uri=at:%2F%2Fdid:plc:eve%2Fapp.bsky.feed.post%2F3k&depth=0"].
Proof.
  cbv zeta. split; [eexists; split; vm_compute; reflexivity | vm_compute; reflexivity].
Qed.

Lemma formatTweet_payload env fuel tweet w p w' :
  formatTweet env fuel tweet w = (Resolved p, w') -> formattedFrom tweet p.
Proof.
  unfold formatTweet, formattedFrom. intros H. repeat bind_inv H. injection H as <- _. simpl.
  apply inlineImages_length in Hstep0.
  rewrite !length_fmap in *. rewrite length_take in *.
  repeat split; try lia. now rewrite <- list_fmap_compose.
Qed.

Lemma formatTweets_payload env fuel tweets w l w' :
  formatTweets env fuel tweets w = (Resolved l, w') -> Forall2 formattedFrom tweets l.
Proof.
  revert w l w'. induction tweets as [|tweet rest IH]; intros w l w' H.
  - injection H as <- _. constructor.
  - cbn [formatTweets] in H. bind_inv H. bind_inv H. injection H as <- _.
    constructor; [eapply formatTweet_payload, Hstep | eapply IH, Hstep0].
Qed.

(** X23.  A conversation scraped from Twitter is never empty: it holds
    one tweet per tweet the conversation page gave, in order, with its
    text, its author, its time and its main-tweet flag; each tweet has
    the upgraded addresses of its first four images as original
    addresses and no inline image without one, so a thread asks for at
    most four downloads per tweet. *)
Theorem scrapeTwitterThread_payload env fuel page url w thread w' :
  scrapeTwitterThread env fuel page url w = (Resolved thread, w') ->
  Thread.platform thread = "twitter-thread"
  /\ Thread.url thread = url
  /\ Thread.tweets thread <> []
  /\ (exists tweetId found w1 w2,
        statusId url = Some tweetId
        /\ page ("https://platform.twitter.com/embed/Tweet.html?id=" +:+ tweetId
                 +:+ "&theme=dark&conversation=all") w1 = (Resolved found, w2)
        /\ List.length (Thread.tweets thread) = List.length found
        /\ Forall2 formattedFrom found (Thread.tweets thread))
  /\ List.length (Thread.tweets thread ≫= Post.originalImageUrls)
     <= 4 * List.length (Thread.tweets thread).
Proof.
  unfold scrapeTwitterThread. destruct (statusId url) as [tweetId|]; [| discriminate].
  intros H. bind_inv H. apply tryCatch_throw_resolved in H. bind_inv H.
  destruct a0 as [|tweet rest]; [discriminate |].
  bind_inv H. injection H as <- _. simpl.
  apply formatTweets_payload in Hstep1.
  split; [reflexivity |]. split; [reflexivity |]. split; [| split].
  - inversion Hstep1. discriminate.
  - exists tweetId, (tweet :: rest), w0, w1. split; [reflexivity |]. split; [exact Hstep0 |].
    split; [symmetry; eapply Forall2_length, Hstep1 | exact Hstep1].
  - clear -Hstep1.
    induction Hstep1 as [|raw p found l (_ & _ & _ & _ & _ & _ & _ & _ & Hp) _ IH].
    + simpl. lia.
    + cbn [mbind list_bind]. rewrite length_app. simpl List.length. lia.
Qed.

Lemma scrapeTwitterThread_payload_witness :
  exists thread w',
    scrapeTwitterThread twitterEmbed 5 (fun _ => ret conversationOfTwo)
      "https://x.com/ada/status/1" world0 = (Resolved thread, w')
    /\ (fun p => List.length (Post.originalImageUrls p)) <$> Thread.tweets thread = [0; 4]
    /\ Thread.tweets thread <> [].
Proof.
  eexists _, _. split; [vm_compute; reflexivity |]. split; [reflexivity |].
  eapply (scrapeTwitterThread_payload twitterEmbed 5 (fun _ => ret conversationOfTwo)
            "https://x.com/ada/status/1" world0).
  vm_compute; reflexivity.
Defined.

(** ** From the scraper to the card *)

Lemma formatTweet_well_formed env fuel tweet w p w' :
  plainContentTypes env ->
  formatTweet env fuel tweet w = (Resolved p, w') -> WellFormedTweet p.
Proof.
  intros Henv H. unfold formatTweet in H. repeat bind_inv H. injection H as <- _.
  split; simpl.
  - eauto.
  - intros author [= <-]. simpl.
    pose proof (imageToBase64_free env fuel (Some (Conversation.avatar tweet)) w Henv) as Ha.
    rewrite Hstep in Ha. simpl in Ha. destruct a as [[|c d]|]; auto.
  - eapply inlineImages_Forall; [| exact Hstep0].
    intros url0 wi. now apply imageToBase64_free.
Qed.

Lemma formatTweets_well_formed env fuel tweets w l w' :
  plainContentTypes env ->
  formatTweets env fuel tweets w = (Resolved l, w') -> Forall WellFormedTweet l.
Proof.
  intros Henv. revert w l w'. induction tweets as [|tweet rest IH]; intros w l w' H.
  - injection H as <- _. constructor.
  - cbn [formatTweets] in H. bind_inv H. bind_inv H. injection H as <- _.
    constructor; [eapply formatTweet_well_formed; eauto | eapply IH, Hstep0].
Qed.

Lemma mapIndexed_inr {A B} (f : nat -> A -> Error + B) (l : list A) (i0 : nat) :
  (forall k x, l !! k = Some x -> exists y, f (i0 + k) x = inr y) ->
  exists ys, mapIndexed f i0 l = inr ys.
Proof.
  revert i0. induction l as [|x l IH]; intros i0 Hf; [now exists [] |].
  cbn [mapIndexed]. destruct (Hf 0 x eq_refl) as (y & Hy).
  rewrite Nat.add_0_r in Hy. rewrite Hy.
  destruct (IH (S i0)) as (ys & ->); [| eauto].
  intros k z Hk. replace (S i0 + k) with (i0 + S k) by lia. now apply (Hf (S k)).
Qed.

(** X24.  What the conversation scraper builds is what the thread
    cards take: when the content types the servers announce hold no
    markup, every tweet of a scraped conversation has an author and
    inline images free of markup, and both thread templates render the
    conversation without throwing. *)
Theorem scraped_thread_renders env fuel page now url w thread w' :
  plainContentTypes env ->
  scrapeTwitterThread env fuel page url w = (Resolved thread, w') ->
  Forall WellFormedTweet (Thread.tweets thread)
  /\ exists doc bentoDoc,
       renderTwitterThreadCard env now thread = inr doc
       /\ renderBentoTwitterThreadCard thread = inr bentoDoc.
Proof.
  intros Henv H.
  assert (Hwf : Forall WellFormedTweet (Thread.tweets thread)).
  { unfold scrapeTwitterThread in H. destruct (statusId url) as [tweetId|]; [| discriminate].
    bind_inv H. apply tryCatch_throw_resolved in H. bind_inv H.
    destruct a0 as [|tweet rest]; [discriminate |].
    bind_inv H. injection H as <- _. simpl.
    eapply formatTweets_well_formed; eauto. }
  split; [exact Hwf |].
  unfold renderTwitterThreadCard, renderBentoTwitterThreadCard.
  destruct (mapIndexed_inr (threadTweetHtml env now (List.length (Thread.tweets thread)))
              (Thread.tweets thread) 0) as (blocks & ->).
  { intros k tweet Hk. apply (Forall_lookup_1 _ _ _ _ Hwf) in Hk.
    destruct (tweet_author _ Hk) as [author Hauthor].
    unfold threadTweetHtml. rewrite Hauthor. eauto. }
  destruct (mapIndexed_inr (bentoThreadTweetHtml (List.length (Thread.tweets thread)))
              (Thread.tweets thread) 0) as (bentoBlocks & ->).
  { intros k tweet Hk. apply (Forall_lookup_1 _ _ _ _ Hwf) in Hk.
    destruct (tweet_author _ Hk) as [author Hauthor].
    unfold bentoThreadTweetHtml. rewrite Hauthor. eauto. }
  eauto.
Qed.

Lemma twitterEmbed_plain : plainContentTypes twitterEmbed.
Proof. intros w secure url res [= <-]. reflexivity. Qed.

Lemma scraped_thread_renders_witness :
  plainContentTypes twitterEmbed
  /\ exists thread w',
       scrapeTwitterThread twitterEmbed 5 (fun _ => ret conversationOfTwo)
         "https://x.com/ada/status/1" world0 = (Resolved thread, w')
       /\ Forall WellFormedTweet (Thread.tweets thread)
       /\ exists doc bentoDoc,
            renderTwitterThreadCard twitterEmbed 0 thread = inr doc
            /\ renderBentoTwitterThreadCard thread = inr bentoDoc.
Proof.
  split; [exact twitterEmbed_plain |].
  eexists _, _. split; [vm_compute; reflexivity |].
  eapply (scraped_thread_renders twitterEmbed 5 (fun _ => ret conversationOfTwo) 0
            "https://x.com/ada/status/1" world0); [exact twitterEmbed_plain |].
  vm_compute; reflexivity.
Defined.

(** ** Platform detection *)

Lemma toLowerCase_app (s t : string) :
  Js.toLowerCase (s +:+ t) = Js.toLowerCase s +:+ Js.toLowerCase t.
Proof.
  induction s as [|a s IH]; [reflexivity |].
  rewrite app_cons. simpl. now rewrite IH, app_cons.
Qed.

Lemma toLowerCase_split (u x y : string) :
  Js.toLowerCase u = x +:+ y ->
  exists a b, u = a +:+ b /\ Js.toLowerCase a = x /\ Js.toLowerCase b = y.
Proof.
  revert u. induction x as [|c x IH]; intros u H.
  - exists "", u. rewrite app_empty_l in H. auto.
  - destruct u as [|d u]; [discriminate |].
    rewrite app_cons in H. simpl in H. injection H as Hc Hu.
    apply IH in Hu as (a & b & -> & Ha & Hb).
    exists (String d a), b. rewrite app_cons. simpl. now rewrite Hc, Ha.
Qed.

(** X25.  An address is taken for a tweet exactly when [x.com] or
    [twitter.com] occurs in it, anywhere and in any letter case: the
    marker need not be the host, and it wins over every other
    platform. *)
Theorem detectPlatform_twitter_iff (url : string) :
  detectPlatform url = Twitter
  <-> exists pre marker post,
        url = pre +:+ marker +:+ post
        /\ (Js.toLowerCase marker = "x.com" \/ Js.toLowerCase marker = "twitter.com").
Proof.
  unfold detectPlatform. split.
  - intros H.
    assert (Hm : Js.includes (Js.toLowerCase url) "x.com" = true
                 \/ Js.includes (Js.toLowerCase url) "twitter.com" = true).
    { destruct (Js.includes (Js.toLowerCase url) "x.com"); [now left |].
      destruct (Js.includes (Js.toLowerCase url) "twitter.com"); [now right |].
      simpl in H. repeat case_match; discriminate. }
    assert (Hsplit : forall p, Js.includes (Js.toLowerCase url) p = true ->
              exists pre marker post,
                url = pre +:+ marker +:+ post /\ Js.toLowerCase marker = p).
    { intros p (x & y & Hxy)%includes_iff.
      apply toLowerCase_split in Hxy as (pre & rest & -> & _ & Hrest).
      apply toLowerCase_split in Hrest as (marker & post & -> & Hmarker & _).
      eauto. }
    destruct Hm as [Hm | Hm]; apply Hsplit in Hm as (pre & marker & post & -> & Hmarker);
      eauto 6.
  - intros (pre & marker & post & -> & Hmarker).
    rewrite !toLowerCase_app.
    destruct Hmarker as [-> | ->].
    + now rewrite (includes_later _ _ "x.com" (includes_here "x.com" _)).
    + rewrite (includes_later _ _ "twitter.com" (includes_here "twitter.com" _)).
      now rewrite orb_true_r.
Qed.

Example detectPlatform_substring :
  detectPlatform "https://www.netflix.com/title/80057281" = Twitter
  /\ detectPlatform "https://bsky.app/profile/fox.com/post/3k" = Twitter
  /\ detectPlatform "https://bsky.app/profile/eve.example/post/3k" = Bluesky.
Proof. repeat split; vm_compute; reflexivity. Qed.

(** ** The browser *)

Lemma callAll_fresh (k : nat) (s : BrowserState) :
  browserInstance s = None ->
  callAll k s
  = (mkBrowserState None (launched s + k) (closed s), Launching <$> seq (launched s) k).
Proof.
  revert s. induction k as [|k IH]; intros s Hs; simpl.
  - rewrite Nat.add_0_r. destruct s. simpl in Hs. now subst.
  - unfold getBrowserCall. rewrite Hs. rewrite IH by reflexivity. simpl.
    now replace (S (launched s + k)) with (launched s + S k) by lia.
Qed.

Lemma resumeAll_launching (ids : list nat) (s : BrowserState) :
  resumeAll (Launching <$> ids) s
  = (mkBrowserState (from_option Some (browserInstance s) (last ids)) (launched s) (closed s),
     ids).
Proof.
  revert s. induction ids as [|b ids IH]; intros s; simpl.
  - now destruct s.
  - rewrite IH. simpl. f_equal. f_equal. rewrite last_cons. now destruct (last ids).
Qed.

(** X26.  The browser is reused by calls that do not overlap: after a
    call of [getBrowser], a further call launches nothing and returns
    the same browser.  Calls that overlap are not: [k] calls started
    before the first launch is over launch [k] browsers and return [k]
    different ones, and [closeBrowser] then closes one of them only, the
    last, leaving the others open. *)
Theorem getBrowser_reuse_and_overlap (s : BrowserState) (k : nat) :
  (let '(s1, first) := getBrowser s in
   let '(s2, second) := getBrowser s1 in
   second = first /\ s2 = s1 /\ browserInstance s1 = Some first
   /\ launched s1 <= S (launched s))
  /\ (browserInstance s = None ->
      let '(s1, calls) := callAll k s in
      let '(s2, browsers) := resumeAll calls s1 in
      browsers = seq (launched s) k
      /\ NoDup browsers
      /\ launched s2 = launched s + k
      /\ closed (closeBrowser s2)
         = (if k is O then closed s else (launched s + k - 1) :: closed s)).
Proof.
  split.
  - unfold getBrowser, getBrowserCall. destruct (browserInstance s) as [b|] eqn:Hs; simpl.
    + rewrite Hs. simpl. repeat split; auto.
    + repeat split; auto.
  - intros Hs. rewrite callAll_fresh by exact Hs. rewrite resumeAll_launching.
    cbn [browserInstance launched closed].
    split; [reflexivity |]. split; [apply NoDup_seq |]. split; [reflexivity |].
    destruct k as [|k]; [reflexivity |].
    rewrite seq_S, last_snoc. unfold closeBrowser. cbn [from_option browserInstance closed].
    f_equal. lia.
Qed.

Lemma getBrowser_reuse_and_overlap_witness :
  let fresh := mkBrowserState None 0 [] in
  browserInstance fresh = None
  /\ (resumeAll (callAll 3 fresh).2 (callAll 3 fresh).1).2 = [0; 1; 2]
  /\ closed (closeBrowser (resumeAll (callAll 3 fresh).2 (callAll 3 fresh).1).1) = [2].
Proof.
  cbv zeta. split; [reflexivity |].
  pose proof (proj2 (getBrowser_reuse_and_overlap (mkBrowserState None 0 []) 3) eq_refl) as H.
  destruct (callAll 3 (mkBrowserState None 0 [])) as [s1 calls]. cbn [fst snd].
  destruct (resumeAll calls s1) as [s2 browsers]. cbn [fst snd].
  destruct H as (Hb & _ & _ & Hc). split; [exact Hb | exact Hc].
Defined.
